(** * AURA400: emotion encoder, circuit evaluator and metrics aggregator

    Shallow embedding of [aura400_prod.py] (class [Aura400Circuit]) and of
    [aura_live.py] (class [QuantumEmotionalCore] and the API entry points
    that drive it).

    Conventions of the embedding:
    - Python [float] and numpy [float64] values are idealised as real
      numbers ([R]); rounding, [nan] and [inf] are outside the model.
    - Python [int] counters are [Z]; sizes and qubit indices are [nat].
    - numpy arrays are lists.
    - Everything the code obtains from outside (the random generator, the
      wall clock, [uuid4], the Qiskit library and its simulator, the file
      system) is an explicit environment argument.
    - Exceptions are values of [Exn]; a function that can raise returns
      [Exn + A]; mutated objects are threaded explicitly. *)

From Stdlib Require Import Reals Lra Lia ZArith List String Ascii Bool.
From Stdlib Require Import DecimalString.
Import ListNotations.

Local Open Scope R_scope.

(** ** Shared numeric helpers *)

(** [np.sum] of a one-dimensional array. *)
Definition Rsum (l : list R) : R := fold_right Rplus 0 l.

(** [np.clip(x, lo, hi)], which numpy defines as
    [minimum(hi, maximum(x, lo))]. *)
Definition clip (lo hi x : R) : R := Rmin hi (Rmax x lo).

(** Complex numbers as (real, imaginary) pairs. *)
Definition Complex : Type := (R * R)%type.

Definition Cadd (a b : Complex) : Complex := (fst a + fst b, snd a + snd b).
Definition Cmul (a b : Complex) : Complex :=
  (fst a * fst b - snd a * snd b, fst a * snd b + snd a * fst b).
Definition Cconj (a : Complex) : Complex := (fst a, - snd a).
Definition Czero : Complex := (0, 0).

(** [np.abs(z) ** 2]. *)
Definition Cabs2 (z : Complex) : R := fst z * fst z + snd z * snd z.

(** Element-wise binary operation on two arrays of the same shape. *)
Fixpoint zip_with {A B C : Type} (f : A -> B -> C) (xs : list A) (ys : list B)
  : list C :=
  match xs, ys with
  | x :: xs', y :: ys' => f x y :: zip_with f xs' ys'
  | _, _ => []
  end.

(** ** Exceptions and log records *)

Inductive Exn : Type :=
| ValueError (msg : string)
| IndexError (msg : string)
| ImportError (msg : string)
| OSError (msg : string)
| LibraryError (msg : string).

(** [str(e)]. *)
Definition str (e : Exn) : string :=
  match e with
  | ValueError m | IndexError m | ImportError m | OSError m | LibraryError m => m
  end.

Inductive Level : Type := INFO | WARNING | ERROR.

(** Decimal rendering of a non-negative integer inside an f-string. *)
Definition fmt_nat (n : nat) : string := NilEmpty.string_of_uint (Nat.to_uint n).

(** [dict.get(key)] on a dictionary with string keys, kept as the literal's
    list of items. *)
Fixpoint dict_get {V : Type} (d : list (string * V)) (k : string) : option V :=
  match d with
  | [] => None
  | (k', v) :: d' => if String.eqb k' k then Some v else dict_get d' k
  end.

(** [dict.get(key, default)]. *)
Definition dict_get_or {V : Type} (d : list (string * V)) (k : string) (dflt : V) : V :=
  match dict_get d k with
  | Some v => v
  | None => dflt
  end.

(** [str.lower()] on the ASCII range. *)
Definition lower_ascii (c : ascii) : ascii :=
  let n := nat_of_ascii c in
  if (65 <=? n)%nat && (n <=? 90)%nat then ascii_of_nat (n + 32) else c.

Fixpoint lower (s : string) : string :=
  match s with
  | EmptyString => EmptyString
  | String c s' => String (lower_ascii c) (lower s')
  end.

(** ** [aura400_prod.py] *)

Module Aura400.

(** The module-level [EMOTIONS] dictionary. *)
Definition EMOTIONS : list (string * R) :=
  [ ("alegria"%string, 9 / 10);
    ("tristeza"%string, 1 / 10);
    ("miedo"%string, 2 / 10);
    ("ira"%string, 3 / 10);
    ("sorpresa"%string, 8 / 10);
    ("asco"%string, 15 / 100);
    ("confianza"%string, 7 / 10);
    ("anticipacion"%string, 6 / 10) ].

(** [ROTATION_ANGLE], at its default [np.pi/3]. *)
Definition ROTATION_ANGLE : R := PI / 3.

(** *** Circuits *)

Inductive Angle : Type :=
| Theta (k : nat)      (* the k-th entry of the ParameterVector *)
| Fixed (a : R).

Inductive Gate : Type :=
| H (q : nat)
| CRY (a : R) (c t : nat)
| CZ (c t : nat)
| SWAP (a b : nat)
| RY (a : Angle) (q : nat).

(** The dictionary stored in [last_result] and returned to the caller. *)
Record MetricsDict : Type := mkMetricsDict {
  fidelity : R;
  shots : Z;
  backend : string;
  m_n_cells : nat;
  m_qubits_per_cell : nat;
  m_total_qubits : nat
}.

Record ResultDict : Type := mkResultDict {
  state_vector : list Complex;
  metrics : MetricsDict;
  emotion : option string;
  intensity : option R
}.

(** [n_cells] and [qubits_per_cell] are counts; negative values, which
    numpy and Qiskit reject as sizes, are outside the model. *)
Record Aura400Circuit : Type := mkAura400Circuit {
  n_cells : nat;
  qubits_per_cell : nat;
  backend_name : string;
  last_result : option ResultDict
}.

Definition total_qubits (c : Aura400Circuit) : nat :=
  (n_cells c * qubits_per_cell c)%nat.

(** Observable effects, in program order. *)
Inductive Event : Type :=
| Log (lvl : Level) (msg : string)
| LogFidelity (f : R)              (* "Ejecucion exitosa. Fidelidad: ..." *)
| CircuitConstructed (gates : list Gate)
| BackendRun (gates : list Gate) (nshots : Z)   (* entry into bind / transpile / run *)
| FileWritten (path : string).

(** What the evaluator gets from outside: the Qiskit library and the
    simulator behind it, the file system and the random generator. *)
Record Env : Type := mkEnv {
  (* QuantumCircuit(...) and the gate methods: [Some e] when one of them raises *)
  qiskit_rejects : list Gate -> option Exn;
  (* bind_parameters, transpile, backend.run, job.result, get_statevector *)
  backend_run : list Gate -> Z -> Exn + list Complex;
  (* open(...) and json.dump *)
  file_write : string -> option Exn;
  (* standard normal deviates of the generator, in draw order *)
  gauss : nat -> R
}.

Record World : Type := mkWorld {
  self : Aura400Circuit;
  trace : list Event
}.

(** State and exception monad over [World]. *)
Definition M (A : Type) : Type := World -> World * (Exn + A).

Definition ret {A : Type} (a : A) : M A := fun w => (w, inr a).
Definition raise {A : Type} (e : Exn) : M A := fun w => (w, inl e).
Definition bind {A B : Type} (m : M A) (k : A -> M B) : M B :=
  fun w =>
    match m w with
    | (w', inl e) => (w', inl e)
    | (w', inr a) => k a w'
    end.
Definition try_except {A : Type} (m : M A) (handler : Exn -> M A) : M A :=
  fun w =>
    match m w with
    | (w', inl e) => handler e w'
    | (w', inr a) => (w', inr a)
    end.

Notation "x <- m ;; k" := (bind m (fun x => k))
  (at level 61, m at next level, right associativity).
Notation "m ;;; k" := (bind m (fun _ => k))
  (at level 61, right associativity).

Definition emit (ev : Event) : M unit :=
  fun w => (mkWorld (self w) (trace w ++ [ev]), inr tt).
Definition get_self : M Aura400Circuit := fun w => (w, inr (self w)).
Definition set_last_result (r : ResultDict) : M unit :=
  fun w =>
    (mkWorld (mkAura400Circuit (n_cells (self w)) (qubits_per_cell (self w))
                               (backend_name (self w)) (Some r))
             (trace w), inr tt).
Definition lift {A : Type} (r : Exn + A) : M A := fun w => (w, r).
Definition check (r : option Exn) : M unit :=
  match r with
  | Some e => raise e
  | None => ret tt
  end.

(** [range(0, stop, step)]; a zero step is a [ValueError]. *)
Definition range_step (stop step : nat) : Exn + list nat :=
  match step with
  | O => inl (ValueError "range() arg 3 must not be zero")
  | S _ => inr (map (fun k => (k * step)%nat) (seq 0 ((stop + step - 1) / step)))
  end.

Definition _build_intra_cell_connections (c : Aura400Circuit) (starts : list nat)
  : list Gate :=
  flat_map
    (fun i =>
       (if (i + 1 <? total_qubits c)%nat then [CRY ROTATION_ANGLE i (i + 1)] else [])
       ++
       (if (i + 2 <? total_qubits c)%nat && (i + 3 <? total_qubits c)%nat
        then [CRY ROTATION_ANGLE (i + 2) (i + 3); CZ (i + 1) (i + 2)]
        else []))
    starts.

Definition _build_inter_cell_connections (c : Aura400Circuit) (starts : list nat)
  : list Gate :=
  map (fun i => SWAP i ((i + qubits_per_cell c) mod total_qubits c)) starts.

Definition _add_emotional_feedback (c : Aura400Circuit) (starts : list nat)
  : list Gate :=
  map (fun i => RY (Theta (i / qubits_per_cell c)) i) starts.

Definition build_circuit (env : Env) : M (list Gate) :=
  try_except
    (c <- get_self ;;
     starts <- lift (range_step (total_qubits c) (qubits_per_cell c)) ;;
     let qc := map H (seq 0 (total_qubits c))
               ++ _build_intra_cell_connections c starts
               ++ _build_inter_cell_connections c starts
               ++ _add_emotional_feedback c starts in
     check (qiskit_rejects env qc) ;;;
     emit (CircuitConstructed qc) ;;;
     emit (Log INFO "Circuito construido correctamente") ;;;
     ret qc)
    (fun e =>
       emit (Log ERROR ("Error construyendo el circuito: " ++ str e)%string) ;;;
       raise e).

(** [circuit.bind_parameters(dict(zip(self.params, parameter_values)))]. *)
Definition bind_parameters (values : list R) (qc : list Gate) : list Gate :=
  map (fun g =>
         match g with
         | RY (Theta k) q => RY (Fixed (nth k values 0)) q
         | _ => g
         end) qc.

(** An empty string and [None] are both falsy in [if save_to:]. *)
Definition truthy (s : option string) : option string :=
  match s with
  | Some EmptyString => None
  | _ => s
  end.

Definition execute_circuit (env : Env) (parameter_values : list R) (nshots : Z)
           (save_to : option string) : M ResultDict :=
  try_except
    (c <- get_self ;;
     if negb (List.length parameter_values =? n_cells c)%nat then
       raise (ValueError ("Se esperaban " ++ fmt_nat (n_cells c)
                          ++ " parametros, se recibieron "
                          ++ fmt_nat (List.length parameter_values))%string)
     else
       circuit <- build_circuit env ;;
       let bound_circuit := bind_parameters parameter_values circuit in
       emit (BackendRun bound_circuit nshots) ;;;
       sv <- lift (backend_run env bound_circuit nshots) ;;
       z0 <- match sv with
             | [] => raise (IndexError "index 0 is out of bounds")
             | z :: _ => ret z
             end ;;
       let result :=
         mkResultDict sv
           (mkMetricsDict (Cabs2 z0) nshots (backend_name c) (n_cells c)
                          (qubits_per_cell c) (total_qubits c))
           None None in
       set_last_result result ;;;
       match truthy save_to with
       | Some path =>
           check (file_write env path) ;;;
           emit (FileWritten path) ;;;
           emit (Log INFO ("Resultados guardados en " ++ path)%string)
       | None => ret tt
       end ;;;
       emit (LogFidelity (Cabs2 z0)) ;;;
       ret result)
    (fun e =>
       emit (Log ERROR ("Error ejecutando el circuito: " ++ str e)%string) ;;;
       raise e).

(** [rng.normal(loc, scale, size)]: [size] draws, each [loc + scale * z]
    for the next standard normal deviate [z] of the generator. *)
Definition normal (g : nat -> R) (loc scale : R) (size : nat) : list R :=
  map (fun k => loc + scale * g k) (seq 0 size).

(** [emotion_to_params], with the lookup table made explicit. *)
Definition emotion_to_params_in (table : list (string * R)) (g : nat -> R)
           (c : Aura400Circuit) (emo : string) (level : R) : list R :=
  let base := dict_get_or table (lower emo) (5 / 10) in
  map (clip 0 1) (normal g (base * level) (5 / 100) (n_cells c)).

Definition emotion_to_params : (nat -> R) -> Aura400Circuit -> string -> R -> list R :=
  emotion_to_params_in EMOTIONS.

(** [emotion.lower() in EMOTIONS], the membership test of [validate_args]. *)
Definition supported (emo : string) : bool :=
  match dict_get EMOTIONS (lower emo) with
  | Some _ => true
  | None => false
  end.

Definition feel_emotion (env : Env) (emo : string) (level : R) (nshots : Z)
           (save_to : option string) : M ResultDict :=
  c <- get_self ;;
  let params := emotion_to_params (gauss env) c emo level in
  result <- execute_circuit env params nshots save_to ;;
  (* [result] is the very dictionary stored in [last_result]: the two
     item assignments below are seen through both names *)
  let result' := mkResultDict (state_vector result) (metrics result)
                              (Some emo) (Some level) in
  set_last_result result' ;;;
  emit (Log INFO ("Emocion experimentada: " ++ emo)%string) ;;;
  ret result'.

End Aura400.

(** ** [aura_live.py] *)

Module AuraLive.

(** The [metrics] dictionary of the core. *)
Record Metrics : Type := mkMetrics {
  executions : Z;
  errors : Z;
  avg_intensity : R;
  last_execution_time : option R;
  success_rate : R;
  start_time : R
}.

(** The attributes of [QuantumEmotionalCore] that the evaluation cycle, the
    reset and the metrics snapshot read or write.  The configuration
    constants ([N_BLOCKS], [QUBITS_PER_BLOCK], [TOTAL_QUBITS]) and the
    constant [sensor_feedback] dictionary are left out.  [log] is the
    module-level logger's output. *)
Record QuantumEmotionalCore : Type := mkCore {
  emotion_state : list R;
  quantum_intensity : R;
  phase_coherence : R;
  entanglement_measure : R;
  emotional_vector : list R;
  session_id : string;
  metrics : Metrics;
  backend_type : string;
  qiskit_available : bool;
  log : list (Level * string)
}.

Definition set_emotion_state (v : list R) (s : QuantumEmotionalCore) :=
  mkCore v (quantum_intensity s) (phase_coherence s) (entanglement_measure s)
         (emotional_vector s) (session_id s) (metrics s) (backend_type s)
         (qiskit_available s) (log s).
Definition set_quantum_intensity (x : R) (s : QuantumEmotionalCore) :=
  mkCore (emotion_state s) x (phase_coherence s) (entanglement_measure s)
         (emotional_vector s) (session_id s) (metrics s) (backend_type s)
         (qiskit_available s) (log s).
Definition set_phase_coherence (x : R) (s : QuantumEmotionalCore) :=
  mkCore (emotion_state s) (quantum_intensity s) x (entanglement_measure s)
         (emotional_vector s) (session_id s) (metrics s) (backend_type s)
         (qiskit_available s) (log s).
Definition set_entanglement_measure (x : R) (s : QuantumEmotionalCore) :=
  mkCore (emotion_state s) (quantum_intensity s) (phase_coherence s) x
         (emotional_vector s) (session_id s) (metrics s) (backend_type s)
         (qiskit_available s) (log s).
Definition set_emotional_vector (v : list R) (s : QuantumEmotionalCore) :=
  mkCore (emotion_state s) (quantum_intensity s) (phase_coherence s)
         (entanglement_measure s) v (session_id s) (metrics s) (backend_type s)
         (qiskit_available s) (log s).
Definition set_metrics (m : Metrics) (s : QuantumEmotionalCore) :=
  mkCore (emotion_state s) (quantum_intensity s) (phase_coherence s)
         (entanglement_measure s) (emotional_vector s) (session_id s) m
         (backend_type s) (qiskit_available s) (log s).
Definition set_backend_type (b : string) (s : QuantumEmotionalCore) :=
  mkCore (emotion_state s) (quantum_intensity s) (phase_coherence s)
         (entanglement_measure s) (emotional_vector s) (session_id s) (metrics s)
         b (qiskit_available s) (log s).
Definition set_qiskit_available (b : bool) (s : QuantumEmotionalCore) :=
  mkCore (emotion_state s) (quantum_intensity s) (phase_coherence s)
         (entanglement_measure s) (emotional_vector s) (session_id s) (metrics s)
         (backend_type s) b (log s).
Definition logger (lvl : Level) (msg : string) (s : QuantumEmotionalCore) :=
  mkCore (emotion_state s) (quantum_intensity s) (phase_coherence s)
         (entanglement_measure s) (emotional_vector s) (session_id s) (metrics s)
         (backend_type s) (qiskit_available s) (log s ++ [(lvl, msg)]).

Definition set_executions (n : Z) (m : Metrics) :=
  mkMetrics n (errors m) (avg_intensity m) (last_execution_time m)
            (success_rate m) (start_time m).
Definition set_errors (n : Z) (m : Metrics) :=
  mkMetrics (executions m) n (avg_intensity m) (last_execution_time m)
            (success_rate m) (start_time m).
Definition set_avg_intensity (x : R) (m : Metrics) :=
  mkMetrics (executions m) (errors m) x (last_execution_time m)
            (success_rate m) (start_time m).
Definition set_last_execution_time (x : option R) (m : Metrics) :=
  mkMetrics (executions m) (errors m) (avg_intensity m) x
            (success_rate m) (start_time m).
Definition set_success_rate (x : R) (m : Metrics) :=
  mkMetrics (executions m) (errors m) (avg_intensity m) (last_execution_time m)
            x (start_time m).

(** *** The environment of one simulation call

    [fault = Some e] stands for a library call of the simulation body
    raising [e]; it is modelled at the first call of the body, before any
    attribute of the core is assigned. *)
Record SimEnv : Type := mkSimEnv {
  now : R;                           (* time.time() *)
  fault : option Exn;
  statevector : list Complex;        (* result.get_statevector().data *)
  reduced_eigvals : Exn + list R;    (* eigvalsh(partial_trace(...).data) *)
  noise : list R;                    (* rng.random(8) *)
  dirichlet : list R                 (* rng.dirichlet(np.ones(8)) *)
}.

(** The environment of one call of [execute_quantum_emotion_cycle]. *)
Record CycleEnv : Type := mkCycleEnv {
  clock_start : R;                   (* time.time() on entry *)
  clock_end : R;                     (* time.time() after the simulation *)
  first_sim : SimEnv;                (* for the call inside [try] *)
  handler_sim : SimEnv               (* for the call inside [except] *)
}.

(** The environment of one call of [__init__]. *)
Record InitEnv : Type := mkInitEnv {
  uuid4 : string;                    (* str(uuid.uuid4()) *)
  draw : list R;                     (* rng.random(8) *)
  boot_time : R;                     (* time.time() *)
  env_backend : option string;       (* os.getenv('QUANTUM_BACKEND') *)
  aer_fault : option Exn;            (* importing Aer or get_backend raises *)
  build_fault : option Exn           (* building the circuit raises *)
}.

(** *** Linear algebra of [_process_quantum_results] *)

Definition Csum (l : list Complex) : Complex := fold_right Cadd Czero l.

(** [np.outer(u, v)]. *)
Definition outer (u v : list Complex) : list (list Complex) :=
  map (fun a => map (fun b => Cmul a b) v) u.

Definition column (j : nat) (m : list (list Complex)) : list Complex :=
  map (fun row => nth j row Czero) m.

(** [a @ b]. *)
Definition matmul (a b : list (list Complex)) : list (list Complex) :=
  map (fun row =>
         map (fun j => Csum (zip_with Cmul row (column j b)))
             (seq 0 (List.length (hd [] b))))
      a.

(** [np.trace]. *)
Definition trace (m : list (list Complex)) : Complex :=
  Csum (map (fun i => nth i (nth i m []) Czero) (seq 0 (List.length m))).

(** [np.log2]. *)
Definition log2 (x : R) : R := ln x / ln 2.

(** [-np.sum(eigvals * np.log2(eigvals))] after the mask
    [eigvals[eigvals > 1e-12]]. *)
Definition von_neumann_entropy (eigvals : list R) : R :=
  let kept := filter (fun l => if Rlt_dec (1 / 1000000000000) l then true else false)
                     eigvals in
  - Rsum (map (fun l => l * log2 l) kept).

(** [np.arctan2(y, x)]. *)
Definition arctan2 (y x : R) : R :=
  if Rlt_dec 0 x then atan (y / x)
  else if Rlt_dec x 0 then
         (if Rle_dec 0 y then atan (y / x) + PI else atan (y / x) - PI)
  else if Rlt_dec 0 y then PI / 2
  else if Rlt_dec y 0 then - (PI / 2)
  else 0.

(** [np.angle(z)]. *)
Definition angle (z : Complex) : R := arctan2 (snd z) (fst z).

(** *** Methods of the core *)

Definition update_emotional_state (e : SimEnv) (s : QuantumEmotionalCore)
  : QuantumEmotionalCore :=
  let noise_ := map (fun u => u * (1 / 10)) (noise e) in
  let base_state := zip_with Rplus (emotional_vector s) noise_ in
  if Rlt_dec 0 (Rsum base_state)
  then set_emotion_state (map (fun x => x / Rsum base_state) base_state) s
  else set_emotion_state (dirichlet e) s.

(** The "Update metrics" block shared by both simulations. *)
Definition update_avg_intensity (s : QuantumEmotionalCore) : QuantumEmotionalCore :=
  let m := metrics s in
  if (executions m >? 0)%Z
  then set_metrics
         (set_avg_intensity
            ((avg_intensity m * IZR (executions m - 1) + quantum_intensity s)
             / IZR (executions m)) m) s
  else set_metrics (set_avg_intensity (quantum_intensity s) m) s.

Definition _process_quantum_results (e : SimEnv) (s : QuantumEmotionalCore)
  : QuantumEmotionalCore :=
  let sv := statevector e in
  let probabilities := map Cabs2 sv in
  let s1 := set_quantum_intensity (Rsum (firstn 8 probabilities)) s in
  let rho := outer sv (map Cconj sv) in
  let s2 := set_phase_coherence (fst (trace (matmul rho rho))) s1 in
  let s3 := match reduced_eigvals e with
            | inr eigvals => set_entanglement_measure (von_neumann_entropy eigvals) s2
            | inl _ => set_entanglement_measure 0 s2
            end in
  let s4 := update_emotional_state e s3 in
  update_avg_intensity s4.

(** The whole body sits in [try: ... except Exception], so the method
    always returns. *)
Definition real_quantum_simulation (e : SimEnv) (s : QuantumEmotionalCore)
  : QuantumEmotionalCore * bool :=
  match fault e with
  | None => (_process_quantum_results e s, true)
  | Some err =>
      (logger ERROR ("Error in quantum simulation: " ++ str err)%string s, false)
  end.

(** No handler inside: a fault propagates to the caller. *)
Definition classical_quantum_simulation (e : SimEnv) (s : QuantumEmotionalCore)
  : QuantumEmotionalCore * (Exn + bool) :=
  match fault e with
  | Some err => (s, inl err)
  | None =>
      let t := now e in
      let base_freq := 1 / 10 in
      let qi := (sin (t * base_freq) * cos (t * base_freq * (13 / 10)) + 1) / 2 in
      let qi := qi * (1 + 3 / 10 * sin (t * (5 / 100))) in
      let s1 := set_quantum_intensity qi s in
      let s2 := set_phase_coherence
                  (angle (cos (t * base_freq), sin (t * base_freq))) s1 in
      let s3 := set_entanglement_measure
                  (3 / 10 + 1 / 10 * sin (t * (2 / 100))) s2 in
      let s4 := update_emotional_state e s3 in
      (update_avg_intensity s4, inr true)
  end.

Definition execute_quantum_emotion_cycle (env : CycleEnv) (s : QuantumEmotionalCore)
  : QuantumEmotionalCore * (Exn + bool) :=
  let start_time_ := clock_start env in
  let '(s1, r) :=
    if qiskit_available s
    then let '(s', b) := real_quantum_simulation (first_sim env) s in (s', inr b)
    else classical_quantum_simulation (first_sim env) s in
  match r with
  | inr success =>
      let execution_time := clock_end env - start_time_ in
      let m1 := set_last_execution_time (Some execution_time) (metrics s1) in
      let m2 := set_executions (executions m1 + 1) m1 in
      let m3 := if success
                then set_success_rate
                       (IZR (executions m2 - errors m2) / IZR (executions m2) * 100) m2
                else m2 in
      (set_metrics m3 s1, inr success)
  | inl err =>
      let s2 := logger ERROR ("Error in quantum emotion cycle: " ++ str err)%string s1 in
      let m1 := set_errors (errors (metrics s2) + 1) (metrics s2) in
      let m2 := set_executions (executions m1 + 1) m1 in
      let m3 := set_success_rate
                  (IZR (executions m2 - errors m2)
                   / IZR (Z.max 1 (executions m2)) * 100) m2 in
      classical_quantum_simulation (handler_sim env) (set_metrics m3 s2)
  end.

Definition build_quantum_circuit (e : InitEnv) (s : QuantumEmotionalCore)
  : QuantumEmotionalCore :=
  if negb (qiskit_available s) then s
  else match build_fault e with
       | None => logger INFO "Built quantum circuit" s   (* qubit count omitted *)
       | Some err =>
           set_qiskit_available false
             (logger ERROR ("Error building quantum circuit: " ++ str err)%string s)
       end.

Definition initialize_quantum_backend (e : InitEnv) (s : QuantumEmotionalCore)
  : QuantumEmotionalCore :=
  match aer_fault e with
  | None =>
      let s1 := set_qiskit_available true (set_backend_type "QISKIT_AER_SIMULATOR" s) in
      let s2 := build_quantum_circuit e s1 in
      logger INFO "Successfully initialized Qiskit backend" s2
  | Some (ImportError msg) =>
      let s1 := logger WARNING
                  ("Qiskit not available, falling back to classical simulation: "
                   ++ msg)%string s in
      set_qiskit_available false
        (set_backend_type "CLASSICAL_QUANTUM_SIMULATION" s1)
  | Some err =>
      let s1 := logger ERROR
                  ("Unexpected error initializing quantum backend: " ++ str err)%string
                  s in
      set_qiskit_available false
        (set_backend_type "CLASSICAL_QUANTUM_SIMULATION" s1)
  end.

(** [__init__]; [log0] is what the module-level logger has written so far. *)
Definition __init__ (e : InitEnv) (log0 : list (Level * string))
  : QuantumEmotionalCore :=
  let sid := substring 0 8 (uuid4 e) in
  let s0 :=
    mkCore (repeat 0 8) 0 0 0 (draw e) sid
           (mkMetrics 0 0 0 None 100 (boot_time e))
           (match env_backend e with
            | Some b => b
            | None => "QUANTUM_SIMULATOR"%string
            end)
           false log0 in
  let s1 := initialize_quantum_backend e s0 in
  logger INFO ("Initialized QuantumEmotionalCore with session " ++ sid)%string s1.

Definition reset (e : InitEnv) (s : QuantumEmotionalCore) : QuantumEmotionalCore :=
  logger INFO "QuantumEmotionalCore reset." (__init__ e (log s)).

(** *** API entry points *)

(** The names of the module-level [EMOTIONS] list, in order. *)
Definition EMOTIONS : list string :=
  [ "joy"; "fear"; "anger"; "sadness"; "surprise"; "disgust"; "trust";
    "anticipation" ]%string.

(** [next(i for i, e in enumerate(EMOTIONS) if e['name'] == emotion)]. *)
Fixpoint index_of (name : string) (names : list string) : option nat :=
  match names with
  | [] => None
  | n :: rest =>
      if String.eqb n name then Some O else option_map S (index_of name rest)
  end.

(** [np.zeros(8)] with entry [idx] set to [1.0]. *)
Definition one_hot (idx : nat) : list R :=
  map (fun i => if (i =? idx)%nat then 1 else 0) (seq 0 8).

Inductive Response : Type :=
| Ok200 (success : bool)
| BadRequest400
| Error500 (msg : string).

(** A member value of the parsed request body, as far as [api_feel]
    looks at it: a string, or any other JSON value ([null], a number, a
    boolean, an array, an object). *)
Inductive JsonValue : Type :=
| JString (name : string)
| JNotString.

(** [data.get('emotion', 'joy')]: the default is used for an absent key
    only, a member that is present is returned as it is. *)
Definition requested_emotion (member : option JsonValue) : JsonValue :=
  match member with
  | Some v => v
  | None => JString "joy"
  end.

(** [next(i for i, e in enumerate(EMOTIONS) if e['name'] == emotion)],
    guarded by [any(e['name'] == emotion for e in EMOTIONS)]: a name
    compares equal to the same string only. *)
Definition position_of (emotion : JsonValue) : option nat :=
  match emotion with
  | JString name => index_of name EMOTIONS
  | JNotString => None
  end.

(** [api_feel] on a request body that parses to a JSON object; [member]
    is the object's member [emotion], [None] when the key is absent. *)
Definition api_feel (member : option JsonValue) (env : CycleEnv)
           (s : QuantumEmotionalCore) : QuantumEmotionalCore * Response :=
  match position_of (requested_emotion member) with
  | None => (s, BadRequest400)
  | Some idx =>
      let s1 := set_emotional_vector (one_hot idx) s in
      match execute_quantum_emotion_cycle env s1 with
      | (s2, inr success) => (s2, Ok200 success)
      | (s2, inl err) =>
          (logger ERROR ("Error in api_feel: " ++ str err)%string s2,
           Error500 (str err))
      end
  end.

(** [api_metrics]: one cycle, then the snapshot; an exception reaches the
    application-wide error handler. *)
Definition api_metrics (env : CycleEnv) (s : QuantumEmotionalCore)
  : QuantumEmotionalCore * Response :=
  match execute_quantum_emotion_cycle env s with
  | (s1, inr _) => (s1, Ok200 true)
  | (s1, inl err) =>
      (logger ERROR ("Unhandled error: " ++ str err)%string s1, Error500 (str err))
  end.

(** [api_reset]; the response carries the new session identifier. *)
Definition api_reset (e : InitEnv) (s : QuantumEmotionalCore)
  : QuantumEmotionalCore * string :=
  let s' := reset e s in (s', session_id s').

(** *** Well-formed environments and reachable states *)

(** [rng.random(8)]: eight values in the half-open interval [[0, 1)]. *)
Definition unit_draws (l : list R) : Prop :=
  List.length l = 8%nat /\ Forall (fun x => 0 <= x < 1) l.

(** A probability distribution over the eight emotions. *)
Definition distribution (l : list R) : Prop :=
  List.length l = 8%nat /\ Forall (fun x => 0 <= x) l /\ Rsum l = 1.

Definition wf_sim (e : SimEnv) : Prop :=
  unit_draws (noise e) /\ distribution (dirichlet e)
  /\ Rsum (map Cabs2 (statevector e)) = 1.

Definition wf_cycle (env : CycleEnv) : Prop :=
  wf_sim (first_sim env) /\ wf_sim (handler_sim env).

Definition wf_init (e : InitEnv) : Prop := unit_draws (draw e).

(** The states of the process-wide core: built by [__init__], then driven
    by evaluation cycles (directly or through the API) and resets. *)
Inductive reachable : QuantumEmotionalCore -> Prop :=
| reach_init : forall e log0,
    wf_init e -> reachable (__init__ e log0)
| reach_cycle : forall env s,
    reachable s -> wf_cycle env ->
    reachable (fst (execute_quantum_emotion_cycle env s))
| reach_feel : forall field env s,
    reachable s -> wf_cycle env ->
    reachable (fst (api_feel field env s))
| reach_metrics : forall env s,
    reachable s -> wf_cycle env ->
    reachable (fst (api_metrics env s))
| reach_reset : forall e s,
    reachable s -> wf_init e -> reachable (reset e s).

End AuraLive.

(** ** Invariants and scenarios used by the statements below *)

Module Scenarios.
Import AuraLive.

(** The success rate as the specification words it: 100 before the first
    execution, the percentage of executions without error afterwards. *)
Definition spec_success_rate (n e : Z) : R :=
  if (n =? 0)%Z then 100 else 100 * IZR (n - e) / IZR n.

(** The counters are consistent, errors are only ever counted by a core
    running in fallback mode, and the stored rate is up to date. *)
Definition counters_inv (s : QuantumEmotionalCore) : Prop :=
  (0 <= errors (metrics s) <= executions (metrics s))%Z
  /\ (qiskit_available s = true -> errors (metrics s) = 0%Z)
  /\ success_rate (metrics s)
     = spec_success_rate (executions (metrics s)) (errors (metrics s)).

(** The input vector of the emotional update has eight non-negative
    entries. *)
Definition vector_inv (s : QuantumEmotionalCore) : Prop :=
  List.length (emotional_vector s) = 8%nat
  /\ Forall (fun x => 0 <= x) (emotional_vector s).

(** What a simulation leaves alone. *)
Definition same_frame (s s' : QuantumEmotionalCore) : Prop :=
  executions (metrics s') = executions (metrics s)
  /\ errors (metrics s') = errors (metrics s)
  /\ success_rate (metrics s') = success_rate (metrics s)
  /\ qiskit_available s' = qiskit_available s
  /\ emotional_vector s' = emotional_vector s.

Definition half8 : list R := repeat (1 / 2) 8.
Definition uniform8 : list R := repeat (1 / 8) 8.

(** A process start with Qiskit installed, and one without. *)
Definition boot_qiskit : InitEnv :=
  mkInitEnv "0f8fad5b-d9cb-469f-a165-70867728950e" half8 0 None None None.
Definition boot_classical : InitEnv :=
  mkInitEnv "7c9e6679-7425-40de-944b-e07fc1f90ae7" half8 0 None
            (Some (ImportError "No module named qiskit_aer")) None.

(** A simulation call at wall-clock time [t] that completes, and one in
    which a library call raises. *)
Definition sim_at (t : R) : SimEnv :=
  mkSimEnv t None [(1, 0)] (inr [1]) half8 uniform8.
Definition sim_faulty (t : R) : SimEnv :=
  mkSimEnv t (Some (LibraryError "simulation failed")) [(1, 0)] (inr [1])
           half8 uniform8.

Definition cycle_ok (t : R) : CycleEnv :=
  mkCycleEnv t t (sim_at t) (sim_at t).
Definition cycle_faulty (t : R) : CycleEnv :=
  mkCycleEnv t t (sim_faulty t) (sim_at t).

(** Fresh cores in the two modes. *)
Definition fresh_qiskit : QuantumEmotionalCore := __init__ boot_qiskit [].
Definition fresh_classical : QuantumEmotionalCore := __init__ boot_classical [].

(** Consecutive evaluation cycles, oldest first. *)
Definition run (envs : list CycleEnv) (s : QuantumEmotionalCore)
  : QuantumEmotionalCore :=
  fold_left (fun st env => fst (execute_quantum_emotion_cycle env st)) envs s.

(** The number of cycles of a run whose first simulation call raises. *)
Definition faults (envs : list CycleEnv) : Z :=
  Z.of_nat (List.length
              (filter (fun env => match fault (first_sim env) with
                                  | Some _ => true
                                  | None => false
                                  end) envs)).

(** Ten cycles, one per second, with a fault on the third and the
    seventh. *)
Definition ten_cycles : list CycleEnv :=
  map (fun k => if (k =? 3)%nat || (k =? 7)%nat
                then cycle_faulty (INR k) else cycle_ok (INR k))
      (seq 1 10).

(** The closed forms of the fallback statistics at wall-clock time [t]. *)
Definition fallback_intensity (t : R) : R :=
  (sin (t * (1 / 10)) * cos (t * (1 / 10) * (13 / 10)) + 1) / 2
  * (1 + 3 / 10 * sin (t * (5 / 100))).
Definition fallback_coherence (t : R) : R :=
  angle (cos (t * (1 / 10)), sin (t * (1 / 10))).

(** The range of the coherence statistic, by mode. *)
Definition coherence_inv (s : QuantumEmotionalCore) : Prop :=
  (qiskit_available s = true -> 0 <= phase_coherence s <= 1)
  /\ (qiskit_available s = false -> - PI < phase_coherence s <= PI).

End Scenarios.

(** ** Further definitions: gate structure, argument validation, the
    circuit of the live core *)

Module Aura400Extra.
Import Aura400.

(** The qubits a gate acts on. *)
Definition gate_qubits (g : Gate) : list nat :=
  match g with
  | H q => [q]
  | CRY _ c t => [c; t]
  | CZ c t => [c; t]
  | SWAP a b => [a; b]
  | RY _ q => [q]
  end.

(** The angles of the [ry] gates of a circuit, in circuit order. *)
Definition ry_angles (qc : list Gate) : list Angle :=
  flat_map (fun g => match g with
                     | RY a _ => [a]
                     | _ => []
                     end) qc.

(** The [swap] gates of a circuit, in circuit order. *)
Definition swaps (qc : list Gate) : list (nat * nat) :=
  flat_map (fun g => match g with
                     | SWAP a b => [(a, b)]
                     | _ => []
                     end) qc.

(** The gate sequence that [build_circuit] appends for the cell starts
    [starts]. *)
Definition circuit_gates (c : Aura400Circuit) (starts : list nat) : list Gate :=
  map H (seq 0 (total_qubits c))
  ++ _build_intra_cell_connections c starts
  ++ _build_inter_cell_connections c starts
  ++ _add_emotional_feedback c starts.

(** The attributes of the argparse namespace that [validate_args] reads. *)
Record Args : Type := mkArgs {
  arg_intensity : option R;
  arg_shots : option Z;
  arg_emotion : option string
}.

(** [0 <= x <= 1]. *)
Definition in_unit_interval (x : R) : bool :=
  if Rle_dec 0 x then (if Rle_dec x 1 then true else false) else false.

(** [validate_args]: the verdict and the lines printed with status
    'error'. *)
Definition validate_args (args : Args) : bool * list string :=
  if match arg_intensity args with
     | Some x => negb (in_unit_interval x)
     | None => false
     end
  then (false, ["La intensidad debe estar entre 0 y 1."%string])
  else if match arg_shots args with
          | Some n => (n <? 1)%Z
          | None => false
          end
  then (false, ["El número de shots debe ser positivo."%string])
  else match truthy (arg_emotion args) with
       | Some e =>
           if supported e then (true, [])
           else (false, [("Emoción '" ++ e
                          ++ "' no reconocida. Usa --list para ver opciones.")%string])
       | None => (true, [])
       end.

(** Every qubit of the gate lies in a register of [bound] qubits. *)
Definition within (bound : nat) (g : Gate) : Prop :=
  Forall (fun q => (q < bound)%nat) (gate_qubits g).

(** A library that accepts every circuit and a simulator that returns the
    one-amplitude state; a circuit object of two cells of four qubits. *)
Definition env0 : Env :=
  mkEnv (fun _ => None) (fun _ _ => inr [(1, 0)]) (fun _ => None) (fun _ => 0).
Definition w0 : World := mkWorld (mkAura400Circuit 2 4 "aer_simulator" None) [].

End Aura400Extra.

(** *** The command line of [aura400_prod.py]

    The block under [if __name__ == "__main__"], after [parse_args].
    What is modelled is the control flow, the calls on the circuit object
    and the exit status; the lines printed to the terminal and the
    CRITICAL log record are left out. *)
Module Aura400Cli.
Import Aura400 Aura400Extra.

(** The argparse namespace; [--shots] and [--intensity] have defaults, so
    they are never [None]. *)
Record Namespace : Type := mkNamespace {
  ns_save : option string;
  ns_diagram : option string;
  ns_shots : Z;
  ns_params : option string;
  ns_emotion : option string;
  ns_intensity : R;
  ns_list : bool;
  ns_metrics : option string;
  ns_prometheus : bool;
  ns_info : bool
}.

Definition to_args (ns : Namespace) : Args :=
  mkArgs (Some (ns_intensity ns)) (Some (ns_shots ns)) (ns_emotion ns).

Record CliEnv : Type := mkCliEnv {
  base : Env;
  N_CELLS : nat;
  QUBITS_PER_CELL : nat;
  BACKEND_NAME : string;
  backend_lookup : option Exn;              (* Aer.get_backend raises *)
  draw : list Gate -> string -> option Exn; (* qc.draw(output='mpl', filename=...) *)
  parse_float : string -> option R;         (* float(x); None for a ValueError *)
  uniform : nat -> R;                       (* the draws of rng.random *)
  metrics_write : string -> option Exn      (* open(args.metrics, 'w') and json.dump *)
}.

(** How the process ends. *)
Inductive Exit : Type :=
| ExitCode (code : Z)        (* sys.exit(code) *)
| Uncaught (e : Exn)         (* an exception outside every handler *)
| Finished.                  (* the end of the script *)

(** [text.split(',')]. *)
Fixpoint split_commas (text : string) : list string :=
  match text with
  | EmptyString => [EmptyString]
  | String c rest =>
      if Ascii.eqb c ","%char then EmptyString :: split_commas rest
      else match split_commas rest with
           | [] => [String c EmptyString]
           | field :: fields => String c field :: fields
           end
  end.

(** [[float(x) for x in fields]]; [None] when some [float(x)] raises. *)
Fixpoint parse_all (parse : string -> option R) (fields : list string)
  : option (list R) :=
  match fields with
  | [] => Some []
  | f :: rest =>
      match parse f, parse_all parse rest with
      | Some x, Some xs => Some (x :: xs)
      | _, _ => None
      end
  end.

Definition save_circuit_diagram (cenv : CliEnv) (filename : string) : M unit :=
  qc <- build_circuit (base cenv) ;;
  check (draw cenv qc filename) ;;;
  emit (Log INFO ("Diagrama del circuito guardado en " ++ filename)%string).

(** The [if args.metrics:] block. *)
Definition export_metrics (cenv : CliEnv) (ns : Namespace) : M unit :=
  match truthy (ns_metrics ns) with
  | Some path => check (metrics_write cenv path) ;;; emit (FileWritten path)
  | None => ret tt
  end.

(** The body of [try]; the result is the argument of [sys.exit] when it is
    called, [None] when the body runs to its end. *)
Definition process (cenv : CliEnv) (ns : Namespace) : M (option Z) :=
  if ns_list ns then ret (Some 0%Z)
  else if ns_info ns then ret (Some 0%Z)
  else
    match truthy (ns_diagram ns) with
    | Some filename => save_circuit_diagram cenv filename
    | None => ret tt
    end ;;;
    match truthy (ns_emotion ns) with
    | Some emo =>
        _ <- feel_emotion (base cenv) emo (ns_intensity ns) (ns_shots ns) (ns_save ns) ;;
        export_metrics cenv ns ;;;
        ret None
    | None =>
        match truthy (ns_params ns) with
        | Some text =>
            match parse_all (parse_float cenv) (split_commas text) with
            | None => ret (Some 1%Z)
            | Some param_values =>
                _ <- execute_circuit (base cenv) param_values (ns_shots ns) (ns_save ns) ;;
                export_metrics cenv ns ;;;
                ret None
            end
        | None =>
            c <- get_self ;;
            let param_values := map (uniform cenv) (seq 0 (n_cells c)) in
            _ <- execute_circuit (base cenv) param_values (ns_shots ns) (ns_save ns) ;;
            export_metrics cenv ns ;;;
            ret None
        end
    end.

(** The script: the world it leaves (none when no circuit object was
    constructed) and how it ends. *)
Definition main (cenv : CliEnv) (ns : Namespace) : option World * Exit :=
  if negb (fst (validate_args (to_args ns))) then (None, ExitCode 1)
  else
    match backend_lookup cenv with
    | Some e => (None, Uncaught e)
    | None =>
        let aura := mkAura400Circuit (N_CELLS cenv) (QUBITS_PER_CELL cenv)
                                     (BACKEND_NAME cenv) None in
        let w := mkWorld aura [Log INFO "Aura400Circuit inicializado"] in
        match process cenv ns w with
        | (w', inr (Some code)) => (Some w', ExitCode code)
        | (w', inr None) => (Some w', Finished)
        | (w', inl _) => (Some w', ExitCode 2)
        end
    end.

(** The namespace with another [--params] value. *)
Definition with_params (text : option string) (ns : Namespace) : Namespace :=
  mkNamespace (ns_save ns) (ns_diagram ns) (ns_shots ns) text (ns_emotion ns)
              (ns_intensity ns) (ns_list ns) (ns_metrics ns) (ns_prometheus ns)
              (ns_info ns).

(** The world in which [process] starts. *)
Definition initial_world (cenv : CliEnv) : World :=
  mkWorld (mkAura400Circuit (N_CELLS cenv) (QUBITS_PER_CELL cenv)
                            (BACKEND_NAME cenv) None)
          [Log INFO "Aura400Circuit inicializado"].

(** A backend run is on record. *)
Definition ran_backend (w : World) : Prop :=
  exists gates nshots, In (BackendRun gates nshots) (trace w).

(** An environment in which everything succeeds, and the invocation
    [--diagram circuito.png]. *)
Definition cenv0 : CliEnv :=
  mkCliEnv env0 2 4 "aer_simulator" None (fun _ _ => None) (fun _ => Some (1 / 2))
           (fun _ => 1 / 2) (fun _ => None).
Definition diagram_only : Namespace :=
  mkNamespace None (Some "circuito.png"%string) 1024 None None 1 false None false false.

End Aura400Cli.

Module AuraLiveExtra.
Import AuraLive.

(** The value that [update_emotional_state] assigns to [emotion_state],
    as a function of the current [emotional_vector]. *)
Definition next_emotion_state (e : SimEnv) (v : list R) : list R :=
  let base_state := zip_with Rplus v (map (fun u => u * (1 / 10)) (noise e)) in
  if Rlt_dec 0 (Rsum base_state)
  then map (fun x => x / Rsum base_state) base_state
  else dirichlet e.

(** The intensity that a completed fallback cycle driven by [env] writes. *)
Definition cycle_intensity (env : CycleEnv) : R :=
  Scenarios.fallback_intensity (now (first_sim env)).

(** No simulation call of the run raises. *)
Definition fault_free (envs : list CycleEnv) : Prop :=
  Forall (fun env => fault (first_sim env) = None) envs.

(** *** The gates of [build_quantum_circuit] *)

Inductive LiveGate : Type :=
| LH (q : nat)
| LCX (c t : nat)
| LRY (k : nat) (q : nat)       (* ry(theta_k, q) *)
| LCZ (a b : nat).

Definition live_gate_qubits (g : LiveGate) : list nat :=
  match g with
  | LH q => [q]
  | LCX c t => [c; t]
  | LRY _ q => [q]
  | LCZ a b => [a; b]
  end.

(** [_initialize_quantum_state] on a register of [size] qubits; [None]
    stands for the [ZeroDivisionError] of [i % qreg.size]. *)
Definition _initialize_quantum_state (n_blocks size : nat) : option (list LiveGate) :=
  match size, Nat.min 20 n_blocks with
  | O, S _ => None
  | _, iterations =>
      Some (flat_map
              (fun i =>
                 let base_idx := (i mod size)%nat in
                 LH base_idx
                 :: (if (base_idx + 1 <? size)%nat
                     then [LCX base_idx (base_idx + 1)] else []))
              (seq 0 iterations))
  end.

(** [_add_emotional_parameters]: the gates and [theta_params] (the indices
    of the parameters created). *)
Definition _add_emotional_parameters (size : nat) : list LiveGate * list nat :=
  (map (fun i => LRY i i) (seq 0 (Nat.min 8 size)), seq 0 (Nat.min 8 size)).

(** [_add_entanglement_layer]: [range(0, min(16, size), 2)]. *)
Definition _add_entanglement_layer (size : nat) : list LiveGate :=
  flat_map
    (fun i => if (i + 1 <? size)%nat then [LCZ i (i + 1)] else [])
    (map (fun k => (2 * k)%nat) (seq 0 ((Nat.min 16 size + 1) / 2))).

(** The three layers in the order of [build_quantum_circuit], on the
    register of [min(8, TOTAL_QUBITS)] qubits. *)
Definition live_circuit (n_blocks qubits_per_block : nat) : option (list LiveGate) :=
  let active_qubits := Nat.min 8 (n_blocks * qubits_per_block) in
  match _initialize_quantum_state n_blocks active_qubits with
  | None => None
  | Some init =>
      Some (init ++ fst (_add_emotional_parameters active_qubits)
                 ++ _add_entanglement_layer active_qubits)
  end.

(** [dict(zip(self.theta_params, param_values))] with
    [param_values = self.emotional_vector[:len(self.theta_params)]]. *)
Definition param_dict (theta_params : list nat) (emotional_vector : list R)
  : list (nat * R) :=
  combine theta_params (firstn (List.length theta_params) emotional_vector).

End AuraLiveExtra.

(** * Properties of [Aura400Circuit] *)

Module Aura400Facts.
Import Aura400.

(** ** The encoder *)

Lemma clip_unit_interval (x : R) : 0 <= clip 0 1 x <= 1.
Proof.
  unfold clip, Rmin, Rmax.
  destruct (Rle_dec x 0); destruct (Rle_dec 1 _); lra.
Qed.

Lemma normal_length (g : nat -> R) (loc scale : R) (size : nat) :
  List.length (normal g loc scale size) = size.
Proof. unfold normal. now rewrite length_map, length_seq. Qed.

Lemma emotion_to_params_in_length table g c emo level :
  List.length (emotion_to_params_in table g c emo level) = n_cells c.
Proof. unfold emotion_to_params_in. now rewrite length_map, normal_length. Qed.

Lemma emotion_to_params_in_bounds table g c emo level :
  Forall (fun x => 0 <= x <= 1) (emotion_to_params_in table g c emo level).
Proof.
  unfold emotion_to_params_in.
  apply Forall_forall. intros x Hx.
  apply in_map_iff in Hx. destruct Hx as [y [<- _]].
  apply clip_unit_interval.
Qed.

Example lower_mixed_case : lower "AleGria" = "alegria"%string.
Proof. reflexivity. Qed.

Example alegria_supported : supported "ALEGRIA" = true.
Proof. reflexivity. Qed.

Example joy_not_supported : supported "joy" = false.
Proof. reflexivity. Qed.

(** C6.  For every supported emotion label (in any letter case) and every
    intensity in [0,1], [emotion_to_params] returns a vector whose length
    is the configured cell count and whose entries all lie in [0,1],
    whatever the random generator draws. *)
Theorem emotion_to_params_shape_and_range :
  forall (g : nat -> R) (c : Aura400Circuit) (emo : string) (level : R),
    supported emo = true ->
    0 <= level <= 1 ->
    List.length (emotion_to_params g c emo level) = n_cells c
    /\ Forall (fun x => 0 <= x <= 1) (emotion_to_params g c emo level).
Proof.
  intros g c emo level _ _. split.
  - apply emotion_to_params_in_length.
  - apply emotion_to_params_in_bounds.
Qed.

Lemma emotion_to_params_shape_and_range_witness :
  supported "alegria" = true
  /\ 0 <= 1 <= 1
  /\ List.length
       (emotion_to_params (fun _ => 0) (mkAura400Circuit 4 4 "aer_simulator" None)
                          "alegria" 1) = 4%nat.
Proof.
  split; [reflexivity | split; [lra |]].
  apply (emotion_to_params_shape_and_range
           (fun _ => 0) (mkAura400Circuit 4 4 "aer_simulator" None) "alegria" 1).
  - reflexivity.
  - lra.
Defined.

Lemma unsupported_lookup (emo : string) :
  supported emo = false -> dict_get EMOTIONS (lower emo) = None.
Proof.
  unfold supported. destruct (dict_get EMOTIONS (lower emo)); [discriminate | reflexivity].
Qed.

(** C7.  For an unrecognised label and any intensity the encoder is a
    total function (its result is a plain vector, there is no exception
    case), its output is the clipped normal sample with mean
    0.5 * intensity and standard deviation 0.05, and with the same random
    source it equals the output for any label that a lookup table maps
    to the base value 0.5. *)
Theorem emotion_to_params_unknown_is_neutral :
  forall (g : nat -> R) (c : Aura400Circuit) (emo : string) (level : R),
    supported emo = false ->
    emotion_to_params g c emo level
    = map (clip 0 1) (normal g (5 / 10 * level) (5 / 100) (n_cells c))
    /\ forall (table : list (string * R)) (emo' : string),
         dict_get table (lower emo') = Some (5 / 10) ->
         emotion_to_params_in table g c emo' level
         = emotion_to_params g c emo level.
Proof.
  intros g c emo level Hunk.
  apply unsupported_lookup in Hunk.
  assert (Heq : emotion_to_params g c emo level
                = map (clip 0 1) (normal g (5 / 10 * level) (5 / 100) (n_cells c))).
  { unfold emotion_to_params, emotion_to_params_in, dict_get_or.
    now rewrite Hunk. }
  split; [exact Heq |].
  intros table emo' Hbase. rewrite Heq.
  unfold emotion_to_params_in, dict_get_or. now rewrite Hbase.
Qed.

Lemma emotion_to_params_unknown_is_neutral_witness :
  supported "nostalgia" = false
  /\ emotion_to_params (fun k => INR k) (mkAura400Circuit 3 4 "aer_simulator" None)
                       "nostalgia" 1
     = map (clip 0 1) (normal (fun k => INR k) (5 / 10 * 1) (5 / 100) 3).
Proof.
  split; [reflexivity |].
  destruct (emotion_to_params_unknown_is_neutral
              (fun k => INR k) (mkAura400Circuit 3 4 "aer_simulator" None)
              "nostalgia" 1) as [Hneutral _].
  - reflexivity.
  - exact Hneutral.
Defined.

(** ** The circuit *)

Example range_step_cells : range_step 12 4 = inr [0; 4; 8]%nat.
Proof. reflexivity. Qed.

Example intra_cell_two_cells :
  _build_intra_cell_connections (mkAura400Circuit 2 4 "aer_simulator" None) [0; 4]%nat
  = [ CRY ROTATION_ANGLE 0 1; CRY ROTATION_ANGLE 2 3; CZ 1 2;
      CRY ROTATION_ANGLE 4 5; CRY ROTATION_ANGLE 6 7; CZ 5 6 ].
Proof. reflexivity. Qed.

Example inter_cell_ring :
  _build_inter_cell_connections (mkAura400Circuit 3 4 "aer_simulator" None) [0; 4; 8]%nat
  = [ SWAP 0 4; SWAP 4 8; SWAP 8 0 ].
Proof. reflexivity. Qed.

(** C10.  When the parameter vector's length differs from [n_cells],
    [execute_circuit] raises a [ValueError]; the object, and with it
    [last_result], is unchanged, and the only effect is the error record
    of the handler: no circuit is constructed and no backend run starts. *)
Theorem execute_circuit_length_mismatch :
  forall (env : Env) (parameter_values : list R) (nshots : Z)
         (save_to : option string) (w : World),
    List.length parameter_values <> n_cells (self w) ->
    exists msg : string,
      snd (execute_circuit env parameter_values nshots save_to w)
      = inl (ValueError msg)
      /\ self (fst (execute_circuit env parameter_values nshots save_to w)) = self w
      /\ last_result (self (fst (execute_circuit env parameter_values nshots save_to w)))
         = last_result (self w)
      /\ trace (fst (execute_circuit env parameter_values nshots save_to w))
         = (trace w ++ [Log ERROR ("Error ejecutando el circuito: " ++ msg)%string])%list.
Proof.
  intros env pv nshots save_to w Hlen.
  apply Nat.eqb_neq in Hlen.
  exists ("Se esperaban " ++ fmt_nat (n_cells (self w))
          ++ " parametros, se recibieron " ++ fmt_nat (List.length pv))%string.
  unfold execute_circuit, try_except, bind, get_self.
  rewrite Hlen. simpl. repeat split.
Qed.

Lemma execute_circuit_length_mismatch_witness :
  exists msg : string,
    snd (execute_circuit
           (mkEnv (fun _ => None) (fun _ _ => inr [(1, 0)]) (fun _ => None) (fun _ => 0))
           [5 / 10] 1024 None
           (mkWorld (mkAura400Circuit 2 4 "aer_simulator" None) []))
    = inl (ValueError msg).
Proof.
  destruct (execute_circuit_length_mismatch
              (mkEnv (fun _ => None) (fun _ _ => inr [(1, 0)]) (fun _ => None) (fun _ => 0))
              [5 / 10] 1024 None
              (mkWorld (mkAura400Circuit 2 4 "aer_simulator" None) []))
    as [msg [Hres _]].
  - simpl. lia.
  - exists msg. exact Hres.
Defined.

(** With the right number of parameters the check passes and the circuit
    is built and run. *)
Example execute_circuit_runs :
  exists r,
    snd (execute_circuit
           (mkEnv (fun _ => None) (fun _ _ => inr [(1, 0)]) (fun _ => None) (fun _ => 0))
           [5 / 10] 1024 None
           (mkWorld (mkAura400Circuit 1 4 "aer_simulator" None) []))
    = inr r
    /\ fidelity (metrics r) = 1 * 1 + 0 * 0.
Proof. eexists. split; reflexivity. Qed.

End Aura400Facts.

(** * Properties of [QuantumEmotionalCore] *)

Module AuraLiveFacts.
Import AuraLive Scenarios.

(** ** The definitions on small inputs *)

Example fresh_qiskit_mode :
  qiskit_available fresh_qiskit = true
  /\ backend_type fresh_qiskit = "QISKIT_AER_SIMULATOR"%string
  /\ session_id fresh_qiskit = "0f8fad5b"%string.
Proof. repeat split. Qed.

Example fresh_classical_mode :
  qiskit_available fresh_classical = false
  /\ backend_type fresh_classical = "CLASSICAL_QUANTUM_SIMULATION"%string
  /\ log fresh_classical
     = [ (WARNING,
          "Qiskit not available, falling back to classical simulation: No module named qiskit_aer"%string);
         (INFO, "Initialized QuantumEmotionalCore with session 7c9e6679"%string) ].
Proof. repeat split. Qed.

Example one_hot_anger : one_hot 2 = [0; 0; 1; 0; 0; 0; 0; 0].
Proof. reflexivity. Qed.

Example index_of_trust : index_of "trust" EMOTIONS = Some 6%nat.
Proof. reflexivity. Qed.

Example api_feel_rejects_unknown env s :
  api_feel (Some (JString "alegria")) env s = (s, BadRequest400).
Proof. reflexivity. Qed.

Example arctan2_axes :
  arctan2 1 0 = PI / 2 /\ arctan2 0 1 = 0 /\ arctan2 0 (-1) = PI.
Proof.
  unfold arctan2. repeat split.
  - destruct (Rlt_dec 0 0); [lra |]. destruct (Rlt_dec 0 1); lra.
  - destruct (Rlt_dec 0 1); [| lra].
    unfold Rdiv. rewrite Rmult_0_l. apply atan_0.
  - destruct (Rlt_dec 0 (-1)); [lra |].
    destruct (Rlt_dec (-1) 0); [| lra].
    destruct (Rle_dec 0 0); [| lra].
    unfold Rdiv. rewrite Rmult_0_l, atan_0. lra.
Qed.

(** A maximally mixed qubit pair half has one bit of entropy; eigenvalues
    at or below the mask threshold do not contribute. *)
Example von_neumann_entropy_half :
  von_neumann_entropy [1 / 2; 1 / 2; 0] = 1.
Proof.
  unfold von_neumann_entropy. simpl filter.
  destruct (Rlt_dec (1 / 1000000000000) (1 / 2)); [| lra].
  destruct (Rlt_dec (1 / 1000000000000) 0); [lra |].
  simpl. unfold log2.
  replace (1 / 2) with (/ 2) by lra.
  rewrite ln_Rinv by lra.
  assert (Hln : 0 < ln 2) by (rewrite <- ln_1; apply ln_increasing; lra).
  field. lra.
Qed.

(** ** What each method leaves unchanged *)

Lemma same_frame_refl s : same_frame s s.
Proof. unfold same_frame. tauto. Qed.

Lemma same_frame_trans s1 s2 s3 :
  same_frame s1 s2 -> same_frame s2 s3 -> same_frame s1 s3.
Proof.
  unfold same_frame. intros (A1 & A2 & A3 & A4 & A5) (B1 & B2 & B3 & B4 & B5).
  repeat split; congruence.
Qed.

Lemma update_emotional_state_frame e s :
  same_frame s (update_emotional_state e s).
Proof.
  unfold update_emotional_state.
  destruct (Rlt_dec 0 _); unfold same_frame; simpl; tauto.
Qed.

Lemma update_avg_intensity_frame s : same_frame s (update_avg_intensity s).
Proof.
  unfold update_avg_intensity.
  destruct (executions (metrics s) >? 0)%Z; unfold same_frame; simpl; tauto.
Qed.

Lemma _process_quantum_results_frame e s :
  same_frame s (_process_quantum_results e s).
Proof.
  unfold _process_quantum_results.
  eapply same_frame_trans; [| apply update_avg_intensity_frame].
  eapply same_frame_trans; [| apply update_emotional_state_frame].
  destruct (reduced_eigvals e); unfold same_frame; simpl; tauto.
Qed.

Lemma real_quantum_simulation_frame e s :
  same_frame s (fst (real_quantum_simulation e s)).
Proof.
  unfold real_quantum_simulation.
  destruct (fault e); simpl.
  - unfold same_frame; simpl; tauto.
  - apply _process_quantum_results_frame.
Qed.

Lemma classical_quantum_simulation_frame e s :
  same_frame s (fst (classical_quantum_simulation e s)).
Proof.
  unfold classical_quantum_simulation.
  destruct (fault e); simpl.
  - apply same_frame_refl.
  - eapply same_frame_trans; [| apply update_avg_intensity_frame].
    eapply same_frame_trans; [| apply update_emotional_state_frame].
    unfold same_frame; simpl; tauto.
Qed.

(** The two update steps each write one attribute; the equations are
    collected in a rewrite database. *)
Lemma update_emotional_state_keeps e s :
  quantum_intensity (update_emotional_state e s) = quantum_intensity s
  /\ phase_coherence (update_emotional_state e s) = phase_coherence s
  /\ entanglement_measure (update_emotional_state e s) = entanglement_measure s
  /\ metrics (update_emotional_state e s) = metrics s.
Proof.
  unfold update_emotional_state. destruct (Rlt_dec 0 _); simpl; tauto.
Qed.

Lemma update_avg_intensity_keeps s :
  quantum_intensity (update_avg_intensity s) = quantum_intensity s
  /\ phase_coherence (update_avg_intensity s) = phase_coherence s
  /\ entanglement_measure (update_avg_intensity s) = entanglement_measure s
  /\ emotion_state (update_avg_intensity s) = emotion_state s.
Proof.
  unfold update_avg_intensity.
  destruct (executions (metrics s) >? 0)%Z; simpl; tauto.
Qed.

Lemma update_avg_intensity_value s :
  avg_intensity (metrics (update_avg_intensity s))
  = if (executions (metrics s) >? 0)%Z
    then (avg_intensity (metrics s) * IZR (executions (metrics s) - 1)
          + quantum_intensity s) / IZR (executions (metrics s))
    else quantum_intensity s.
Proof.
  unfold update_avg_intensity.
  destruct (executions (metrics s) >? 0)%Z; reflexivity.
Qed.

Lemma quantum_intensity_update_avg s :
  quantum_intensity (update_avg_intensity s) = quantum_intensity s.
Proof. apply update_avg_intensity_keeps. Qed.

Lemma phase_coherence_update_avg s :
  phase_coherence (update_avg_intensity s) = phase_coherence s.
Proof. apply update_avg_intensity_keeps. Qed.

Lemma emotion_state_update_avg s :
  emotion_state (update_avg_intensity s) = emotion_state s.
Proof. apply update_avg_intensity_keeps. Qed.

Lemma quantum_intensity_update_state e s :
  quantum_intensity (update_emotional_state e s) = quantum_intensity s.
Proof. apply update_emotional_state_keeps. Qed.

Lemma phase_coherence_update_state e s :
  phase_coherence (update_emotional_state e s) = phase_coherence s.
Proof. apply update_emotional_state_keeps. Qed.

Lemma metrics_update_state e s :
  metrics (update_emotional_state e s) = metrics s.
Proof. apply update_emotional_state_keeps. Qed.

Create Rewrite HintDb core_fields.
#[local] Hint Rewrite
  quantum_intensity_update_avg phase_coherence_update_avg emotion_state_update_avg
  update_avg_intensity_value
  quantum_intensity_update_state phase_coherence_update_state metrics_update_state
  : core_fields.

(** The frame of the fallback simulation that occurs in the goal. *)
Ltac handler_frame H :=
  match goal with
  | |- context [classical_quantum_simulation ?e ?x] =>
      pose proof (classical_quantum_simulation_frame e x) as H
  end.

(** The classical simulation returns [True] unless a fault interrupts it;
    the Qiskit one reports a fault as [False]. *)
Lemma classical_quantum_simulation_result e s :
  snd (classical_quantum_simulation e s)
  = match fault e with
    | Some err => inl err
    | None => inr true
    end.
Proof. unfold classical_quantum_simulation. now destruct (fault e). Qed.

Lemma real_quantum_simulation_result e s :
  snd (real_quantum_simulation e s)
  = match fault e with
    | Some _ => false
    | None => true
    end.
Proof. unfold real_quantum_simulation. now destruct (fault e). Qed.

(** ** The three shapes of an evaluation cycle *)

(** The statements of [try] after the simulation call. *)
Lemma cycle_with_qiskit env s :
  qiskit_available s = true ->
  execute_quantum_emotion_cycle env s
  = let s1 := fst (real_quantum_simulation (first_sim env) s) in
    let success := snd (real_quantum_simulation (first_sim env) s) in
    let m1 := set_last_execution_time (Some (clock_end env - clock_start env))
                                      (metrics s1) in
    let m2 := set_executions (executions m1 + 1) m1 in
    let m3 := if success
              then set_success_rate
                     (IZR (executions m2 - errors m2) / IZR (executions m2) * 100) m2
              else m2 in
    (set_metrics m3 s1, inr success).
Proof.
  intros Hq. unfold execute_quantum_emotion_cycle. rewrite Hq.
  now destruct (real_quantum_simulation (first_sim env) s).
Qed.

Lemma cycle_classical_ok env s :
  qiskit_available s = false ->
  fault (first_sim env) = None ->
  execute_quantum_emotion_cycle env s
  = let s1 := fst (classical_quantum_simulation (first_sim env) s) in
    let m1 := set_last_execution_time (Some (clock_end env - clock_start env))
                                      (metrics s1) in
    let m2 := set_executions (executions m1 + 1) m1 in
    (set_metrics
       (set_success_rate
          (IZR (executions m2 - errors m2) / IZR (executions m2) * 100) m2) s1,
     inr true).
Proof.
  intros Hq Hf. unfold execute_quantum_emotion_cycle. rewrite Hq.
  unfold classical_quantum_simulation. now rewrite Hf.
Qed.

Lemma cycle_classical_fault env s err :
  qiskit_available s = false ->
  fault (first_sim env) = Some err ->
  execute_quantum_emotion_cycle env s
  = let s2 := logger ERROR ("Error in quantum emotion cycle: " ++ str err)%string s in
    let m1 := set_errors (errors (metrics s2) + 1) (metrics s2) in
    let m2 := set_executions (executions m1 + 1) m1 in
    let m3 := set_success_rate
                (IZR (executions m2 - errors m2)
                 / IZR (Z.max 1 (executions m2)) * 100) m2 in
    classical_quantum_simulation (handler_sim env) (set_metrics m3 s2).
Proof.
  intros Hq Hf. unfold execute_quantum_emotion_cycle. rewrite Hq.
  unfold classical_quantum_simulation at 1. now rewrite Hf.
Qed.

Lemma cycle_qiskit_fault env s err :
  qiskit_available s = true ->
  fault (first_sim env) = Some err ->
  execute_quantum_emotion_cycle env s
  = (set_metrics
       (set_executions (executions (metrics s) + 1)
          (set_last_execution_time
             (Some (clock_end env - clock_start env)) (metrics s)))
       (logger ERROR ("Error in quantum simulation: " ++ str err)%string s),
     inr false).
Proof.
  intros Hq Hf.
  unfold execute_quantum_emotion_cycle, real_quantum_simulation.
  now rewrite Hq, Hf.
Qed.

(** ** The counters *)

Lemma spec_success_rate_bump (n e : Z) :
  (0 <= n)%Z ->
  IZR (n + 1 - e) / IZR (n + 1) * 100 = spec_success_rate (n + 1) e.
Proof.
  intros Hn. unfold spec_success_rate.
  assert (Hz : (n + 1 =? 0)%Z = false) by (apply Z.eqb_neq; lia).
  rewrite Hz. field. apply not_0_IZR. lia.
Qed.

Lemma spec_success_rate_no_errors (n : Z) :
  (0 <= n)%Z -> spec_success_rate n 0 = 100.
Proof.
  intros Hn. unfold spec_success_rate.
  destruct (n =? 0)%Z eqn:Hz; [reflexivity |].
  apply Z.eqb_neq in Hz. rewrite Z.sub_0_r. field. apply not_0_IZR. lia.
Qed.

Lemma counters_inv_frame s s' :
  same_frame s s' -> counters_inv s -> counters_inv s'.
Proof.
  unfold same_frame, counters_inv.
  intros (E1 & E2 & E3 & E4 & _) (H1 & H2 & H3).
  rewrite E1, E2, E3, E4. tauto.
Qed.

Lemma cycle_counters_inv env s :
  counters_inv s -> counters_inv (fst (execute_quantum_emotion_cycle env s)).
Proof.
  intros Hinv.
  destruct (qiskit_available s) eqn:Hq.
  - (* Qiskit mode: the simulation reports success or failure *)
    rewrite (cycle_with_qiskit env s Hq). cbv zeta.
    pose proof (real_quantum_simulation_frame (first_sim env) s) as Hfr.
    apply (counters_inv_frame _ _ Hfr) in Hinv.
    destruct Hfr as (_ & _ & _ & Hq1 & _). rewrite Hq in Hq1.
    destruct Hinv as (Hle & Hzero & Hrate).
    specialize (Hzero Hq1).
    destruct (snd (real_quantum_simulation (first_sim env) s));
      unfold counters_inv; simpl; repeat split; try lia.
    + rewrite Hzero. apply spec_success_rate_bump. lia.
    + rewrite Hrate, Hzero.
      rewrite !spec_success_rate_no_errors; [reflexivity | lia | lia].
  - destruct (fault (first_sim env)) as [err |] eqn:Hf.
    + (* fallback mode, the simulation raises: the handler runs *)
      rewrite (cycle_classical_fault env s err Hq Hf). cbv zeta.
      eapply counters_inv_frame; [apply classical_quantum_simulation_frame |].
      destruct Hinv as (Hle & _ & _).
      unfold counters_inv; simpl; repeat split; try lia.
      * rewrite Hq. discriminate.
      * rewrite Z.max_r by lia.
        replace (executions (metrics s) + 1 - (errors (metrics s) + 1))%Z
          with (executions (metrics s) + 1 - 1 - errors (metrics s))%Z by lia.
        unfold spec_success_rate.
        assert (Hz : (executions (metrics s) + 1 =? 0)%Z = false)
          by (apply Z.eqb_neq; lia).
        rewrite Hz.
        replace (executions (metrics s) + 1 - 1 - errors (metrics s))%Z
          with (executions (metrics s) + 1 - (errors (metrics s) + 1))%Z by lia.
        field. apply not_0_IZR. lia.
    + (* fallback mode, the simulation completes *)
      rewrite (cycle_classical_ok env s Hq Hf). cbv zeta.
      pose proof (classical_quantum_simulation_frame (first_sim env) s) as Hfr.
      apply (counters_inv_frame _ _ Hfr) in Hinv.
      destruct Hfr as (_ & _ & _ & Hq1 & _). rewrite Hq in Hq1.
      destruct Hinv as (Hle & _ & _).
      unfold counters_inv; simpl; repeat split; try lia.
      * rewrite Hq1. discriminate.
      * apply spec_success_rate_bump. lia.
Qed.

Lemma cycle_keeps_vector env s :
  emotional_vector (fst (execute_quantum_emotion_cycle env s)) = emotional_vector s
  /\ qiskit_available (fst (execute_quantum_emotion_cycle env s)) = qiskit_available s.
Proof.
  destruct (qiskit_available s) eqn:Hq.
  - rewrite (cycle_with_qiskit env s Hq). cbv zeta. simpl.
    destruct (real_quantum_simulation_frame (first_sim env) s)
      as (_ & _ & _ & Hq1 & Hv).
    rewrite Hq1, Hv. auto.
  - destruct (fault (first_sim env)) as [err |] eqn:Hf.
    + rewrite (cycle_classical_fault env s err Hq Hf). cbv zeta.
      handler_frame Hfr. destruct Hfr as (_ & _ & _ & Hq1 & Hv).
      rewrite Hq1, Hv. simpl. auto.
    + rewrite (cycle_classical_ok env s Hq Hf). cbv zeta. simpl.
      destruct (classical_quantum_simulation_frame (first_sim env) s)
        as (_ & _ & _ & Hq1 & Hv).
      rewrite Hq1, Hv. auto.
Qed.

(** ** [__init__] *)

Lemma __init___fields e log0 :
  let s := __init__ e log0 in
  emotion_state s = repeat 0 8
  /\ quantum_intensity s = 0
  /\ phase_coherence s = 0
  /\ entanglement_measure s = 0
  /\ emotional_vector s = draw e
  /\ session_id s = substring 0 8 (uuid4 e)
  /\ metrics s = mkMetrics 0 0 0 None 100 (boot_time e).
Proof.
  unfold __init__, initialize_quantum_backend, build_quantum_circuit.
  destruct (aer_fault e) as [[] |]; simpl; try tauto.
  destruct (build_fault e); simpl; tauto.
Qed.

Lemma __init___counters_inv e log0 : counters_inv (__init__ e log0).
Proof.
  destruct (__init___fields e log0) as (_ & _ & _ & _ & _ & _ & Hm).
  unfold counters_inv. rewrite Hm. simpl.
  repeat split; lia.
Qed.

Lemma one_hot_vector idx :
  List.length (one_hot idx) = 8%nat /\ Forall (fun x => 0 <= x) (one_hot idx).
Proof.
  split; [reflexivity |].
  unfold one_hot. apply Forall_forall. intros x Hx.
  apply in_map_iff in Hx. destruct Hx as [i [<- _]].
  destruct (i =? idx)%nat; lra.
Qed.

Lemma api_feel_inv field env s :
  counters_inv s /\ vector_inv s ->
  counters_inv (fst (api_feel field env s))
  /\ vector_inv (fst (api_feel field env s)).
Proof.
  intros [Hc Hv]. unfold api_feel.
  destruct (position_of _) as [idx |]; [| simpl; auto].
  set (s1 := set_emotional_vector (one_hot idx) s).
  assert (Hc1 : counters_inv s1) by exact Hc.
  assert (Hv1 : vector_inv s1) by (apply one_hot_vector).
  pose proof (cycle_counters_inv env s1 Hc1) as Hc2.
  destruct (cycle_keeps_vector env s1) as [Hvec _].
  destruct (execute_quantum_emotion_cycle env s1) as [s2 [err | ok]];
    simpl in *; split; try exact Hc2;
    unfold vector_inv in *; simpl; rewrite Hvec; exact Hv1.
Qed.

Lemma api_metrics_inv env s :
  counters_inv s /\ vector_inv s ->
  counters_inv (fst (api_metrics env s))
  /\ vector_inv (fst (api_metrics env s)).
Proof.
  intros [Hc Hv]. unfold api_metrics.
  pose proof (cycle_counters_inv env s Hc) as Hc2.
  destruct (cycle_keeps_vector env s) as [Hvec _].
  destruct (execute_quantum_emotion_cycle env s) as [s2 [err | ok]];
    simpl in *; split; try exact Hc2;
    unfold vector_inv in *; simpl; rewrite Hvec; exact Hv.
Qed.

Lemma __init___vector_inv e log0 : wf_init e -> vector_inv (__init__ e log0).
Proof.
  intros [Hlen Hall].
  destruct (__init___fields e log0) as (_ & _ & _ & _ & Hv & _).
  unfold vector_inv. rewrite Hv. split; [exact Hlen |].
  eapply Forall_impl; [| exact Hall]. simpl. intros; lra.
Qed.

(** Every reachable state satisfies both invariants. *)
Lemma reachable_inv s : reachable s -> counters_inv s /\ vector_inv s.
Proof.
  induction 1 as [e log0 Hwf | env s Hs IH Hwf | field env s Hs IH Hwf
                  | env s Hs IH Hwf | e s Hs IH Hwf].
  - split; [apply __init___counters_inv | now apply __init___vector_inv].
  - destruct IH as [Hc Hv]. split; [now apply cycle_counters_inv |].
    destruct (cycle_keeps_vector env s) as [Hvec _].
    unfold vector_inv. rewrite Hvec. exact Hv.
  - now apply api_feel_inv.
  - now apply api_metrics_inv.
  - unfold reset. split.
    + exact (__init___counters_inv e (log s)).
    + exact (__init___vector_inv e (log s) Hwf).
Qed.

(** ** Counting *)

Lemma cycle_executions env s :
  executions (metrics (fst (execute_quantum_emotion_cycle env s)))
  = (executions (metrics s) + 1)%Z.
Proof.
  destruct (qiskit_available s) eqn:Hq.
  - rewrite (cycle_with_qiskit env s Hq). cbv zeta.
    destruct (real_quantum_simulation_frame (first_sim env) s) as (He & _).
    destruct (snd (real_quantum_simulation (first_sim env) s)); simpl; now rewrite He.
  - destruct (fault (first_sim env)) as [err |] eqn:Hf.
    + rewrite (cycle_classical_fault env s err Hq Hf). cbv zeta.
      handler_frame Hfr. destruct Hfr as (He & _).
      now rewrite He.
    + rewrite (cycle_classical_ok env s Hq Hf). cbv zeta. simpl.
      destruct (classical_quantum_simulation_frame (first_sim env) s) as (He & _).
      now rewrite He.
Qed.

Lemma cycle_errors env s :
  errors (metrics (fst (execute_quantum_emotion_cycle env s)))
  = (errors (metrics s)
     + if qiskit_available s then 0
       else match fault (first_sim env) with
            | Some _ => 1
            | None => 0
            end)%Z.
Proof.
  destruct (qiskit_available s) eqn:Hq.
  - rewrite (cycle_with_qiskit env s Hq). cbv zeta.
    destruct (real_quantum_simulation_frame (first_sim env) s) as (_ & He & _).
    destruct (snd (real_quantum_simulation (first_sim env) s)); simpl;
      rewrite He; lia.
  - destruct (fault (first_sim env)) as [err |] eqn:Hf.
    + rewrite (cycle_classical_fault env s err Hq Hf). cbv zeta.
      handler_frame Hfr. destruct Hfr as (_ & He & _).
      now rewrite He.
    + rewrite (cycle_classical_ok env s Hq Hf). cbv zeta. simpl.
      destruct (classical_quantum_simulation_frame (first_sim env) s)
        as (_ & He & _).
      rewrite He. lia.
Qed.

Lemma run_fallback_counters envs : forall s,
  qiskit_available s = false ->
  qiskit_available (run envs s) = false
  /\ executions (metrics (run envs s))
     = (executions (metrics s) + Z.of_nat (List.length envs))%Z
  /\ errors (metrics (run envs s)) = (errors (metrics s) + faults envs)%Z.
Proof.
  induction envs as [| env envs IH]; intros s Hq.
  - unfold faults. simpl. repeat split; [exact Hq | lia | lia].
  - change (run (env :: envs) s)
      with (run envs (fst (execute_quantum_emotion_cycle env s))).
    destruct (cycle_keeps_vector env s) as [_ Hq'].
    rewrite Hq in Hq'.
    destruct (IH _ Hq') as (Hq2 & He & Hr).
    rewrite He, Hr, cycle_executions, cycle_errors, Hq.
    split; [exact Hq2 |].
    unfold faults. simpl List.length. simpl filter.
    destruct (fault (first_sim env)); simpl List.length; lia.
Qed.

(** ** Well-formedness of the scenarios *)

Lemma half8_unit_draws : unit_draws half8.
Proof. split; [reflexivity | repeat constructor; lra]. Qed.

Lemma uniform8_distribution : distribution uniform8.
Proof.
  split; [reflexivity | split; [repeat constructor; lra | simpl; lra]].
Qed.

Lemma wf_sim_at t : wf_sim (sim_at t).
Proof.
  split; [apply half8_unit_draws | split; [apply uniform8_distribution |]].
  unfold Cabs2. simpl. lra.
Qed.

Lemma wf_sim_faulty t : wf_sim (sim_faulty t).
Proof.
  split; [apply half8_unit_draws | split; [apply uniform8_distribution |]].
  unfold Cabs2. simpl. lra.
Qed.

Lemma wf_cycle_ok t : wf_cycle (cycle_ok t).
Proof. split; apply wf_sim_at. Qed.

Lemma wf_cycle_faulty t : wf_cycle (cycle_faulty t).
Proof. split; [apply wf_sim_faulty | apply wf_sim_at]. Qed.

Lemma reachable_fresh_qiskit : reachable fresh_qiskit.
Proof. apply reach_init. exact half8_unit_draws. Qed.

Lemma reachable_fresh_classical : reachable fresh_classical.
Proof. apply reach_init. exact half8_unit_draws. Qed.

Lemma reachable_run envs : forall s,
  reachable s -> Forall wf_cycle envs -> reachable (run envs s).
Proof.
  induction envs as [| env envs IH]; intros s Hs Hwf.
  - exact Hs.
  - inversion Hwf; subst.
    apply IH; [now apply reach_cycle | assumption].
Qed.

Lemma ten_cycles_wf : Forall wf_cycle ten_cycles.
Proof.
  unfold ten_cycles. apply Forall_forall. intros env Henv.
  apply in_map_iff in Henv. destruct Henv as [k [<- _]].
  destruct ((k =? 3)%nat || (k =? 7)%nat);
    [apply wf_cycle_faulty | apply wf_cycle_ok].
Qed.

(** C1.  In every reachable state of the core, that is after any sequence
    of evaluation cycles (completed, failed in the simulation, or
    interrupted by an exception) and resets, [errors <= executions]. *)
Theorem errors_le_executions :
  forall s : QuantumEmotionalCore,
    reachable s -> (errors (metrics s) <= executions (metrics s))%Z.
Proof.
  intros s Hs.
  destruct (reachable_inv s Hs) as [[Hle _] _]. lia.
Qed.

Lemma errors_le_executions_witness :
  reachable (run ten_cycles fresh_classical)
  /\ (errors (metrics (run ten_cycles fresh_classical))
      <= executions (metrics (run ten_cycles fresh_classical)))%Z.
Proof.
  assert (Hr : reachable (run ten_cycles fresh_classical)).
  { apply reachable_run; [exact reachable_fresh_classical | exact ten_cycles_wf]. }
  split; [exact Hr |].
  exact (errors_le_executions (run ten_cycles fresh_classical) Hr).
Defined.

(** C2.  In every reachable state the stored [success_rate] is 100 when
    [executions] is 0 and 100 * (executions - errors) / executions when
    [executions] is positive. *)
Theorem success_rate_tracks_counters :
  forall s : QuantumEmotionalCore,
    reachable s ->
    ((executions (metrics s) = 0)%Z -> success_rate (metrics s) = 100)
    /\ ((executions (metrics s) > 0)%Z ->
        success_rate (metrics s)
        = 100 * IZR (executions (metrics s) - errors (metrics s))
          / IZR (executions (metrics s))).
Proof.
  intros s Hs.
  destruct (reachable_inv s Hs) as [(_ & _ & Hrate) _].
  rewrite Hrate. unfold spec_success_rate. split; intros Hn.
  - rewrite Hn. reflexivity.
  - assert (Hz : (executions (metrics s) =? 0)%Z = false)
      by (apply Z.eqb_neq; lia).
    now rewrite Hz.
Qed.

(** The scenario of ten fallback cycles with faults on the third and the
    seventh: 10 executions, 2 errors. *)
Lemma ten_cycles_counters :
  executions (metrics (run ten_cycles fresh_classical)) = 10%Z
  /\ errors (metrics (run ten_cycles fresh_classical)) = 2%Z.
Proof.
  destruct (run_fallback_counters ten_cycles fresh_classical eq_refl)
    as (_ & He & Hr).
  rewrite He, Hr. split; reflexivity.
Qed.

Lemma success_rate_tracks_counters_witness :
  reachable (run ten_cycles fresh_classical)
  /\ success_rate (metrics (run ten_cycles fresh_classical)) = 80.
Proof.
  assert (Hr : reachable (run ten_cycles fresh_classical)).
  { apply reachable_run; [exact reachable_fresh_classical | exact ten_cycles_wf]. }
  split; [exact Hr |].
  destruct (success_rate_tracks_counters (run ten_cycles fresh_classical) Hr)
    as [_ Hpos].
  destruct ten_cycles_counters as [He Herr].
  rewrite Hpos by (rewrite He; lia).
  rewrite He, Herr. simpl. lra.
Defined.

Lemma fallback_intensity_0 : fallback_intensity 0 = 1 / 2.
Proof.
  unfold fallback_intensity.
  rewrite !Rmult_0_l, sin_0. lra.
Qed.

(** What the exception handler of the cycle does, for comparison: in
    fallback mode a fault of the first simulation call is logged, counted
    in [errors] before the second simulation call, and not propagated when
    that second call completes. *)
Lemma handler_counts_and_falls_back env s err :
  qiskit_available s = false ->
  fault (first_sim env) = Some err ->
  fault (handler_sim env) = None ->
  snd (execute_quantum_emotion_cycle env s) = inr true
  /\ errors (metrics (fst (execute_quantum_emotion_cycle env s)))
     = (errors (metrics s) + 1)%Z
  /\ quantum_intensity (fst (execute_quantum_emotion_cycle env s))
     = fallback_intensity (now (handler_sim env)).
Proof.
  intros Hq Hf Hf2.
  split.
  - rewrite (cycle_classical_fault env s err Hq Hf). cbv zeta.
    now rewrite classical_quantum_simulation_result, Hf2.
  - split.
    + now rewrite cycle_errors, Hq, Hf.
    + rewrite (cycle_classical_fault env s err Hq Hf). cbv zeta.
      unfold classical_quantum_simulation. rewrite Hf2. cbv zeta. simpl fst.
      autorewrite with core_fields. reflexivity.
Qed.

(** C3, as stated, fails: on a fresh core in simulation mode, a cycle
    whose Qiskit run raises returns [False] and leaves [errors] at 0
    instead of 1 and the intensity at its initial 0, not at the value 1/2
    that the fallback simulation computes at that time. *)
Lemma simulation_failure_has_no_fallback :
  qiskit_available fresh_qiskit = true
  /\ fault (first_sim (cycle_faulty 0)) = Some (LibraryError "simulation failed")
  /\ snd (execute_quantum_emotion_cycle (cycle_faulty 0) fresh_qiskit) = inr false
  /\ errors (metrics (fst (execute_quantum_emotion_cycle (cycle_faulty 0) fresh_qiskit)))
     = 0%Z
  /\ errors (metrics (fst (execute_quantum_emotion_cycle (cycle_faulty 0) fresh_qiskit)))
     <> (errors (metrics fresh_qiskit) + 1)%Z
  /\ quantum_intensity (fst (execute_quantum_emotion_cycle (cycle_faulty 0) fresh_qiskit))
     = 0
  /\ quantum_intensity (fst (execute_quantum_emotion_cycle (cycle_faulty 0) fresh_qiskit))
     <> fallback_intensity 0.
Proof.
  rewrite (cycle_qiskit_fault (cycle_faulty 0) fresh_qiskit
             (LibraryError "simulation failed") eq_refl eq_refl).
  rewrite fallback_intensity_0.
  change (errors (metrics fresh_qiskit)) with 0%Z.
  simpl. repeat split; try reflexivity; try discriminate; lra.
Qed.

(** C3, amended.  In every evaluation cycle in which the Qiskit
    simulation raises an error, the evaluator logs the error and does not
    propagate it: the cycle returns [False], is counted in [executions],
    and leaves the intensity, the coherence, the entanglement measure, the
    emotion state and the average intensity at their previous values; no
    fallback statistics are computed for that cycle. *)
Theorem simulation_failure_returns_false :
  forall (env : CycleEnv) (s : QuantumEmotionalCore) (err : Exn),
    qiskit_available s = true ->
    fault (first_sim env) = Some err ->
    let s' := fst (execute_quantum_emotion_cycle env s) in
    snd (execute_quantum_emotion_cycle env s) = inr false
    /\ log s' = (log s ++ [(ERROR, ("Error in quantum simulation: " ++ str err)%string)])%list
    /\ executions (metrics s') = (executions (metrics s) + 1)%Z
    /\ quantum_intensity s' = quantum_intensity s
    /\ phase_coherence s' = phase_coherence s
    /\ entanglement_measure s' = entanglement_measure s
    /\ emotion_state s' = emotion_state s
    /\ avg_intensity (metrics s') = avg_intensity (metrics s).
Proof.
  intros env s err Hq Hf. cbv zeta.
  rewrite (cycle_qiskit_fault env s err Hq Hf). simpl. repeat split.
Qed.

Lemma simulation_failure_returns_false_witness :
  qiskit_available fresh_qiskit = true
  /\ fault (first_sim (cycle_faulty 0)) = Some (LibraryError "simulation failed")
  /\ snd (execute_quantum_emotion_cycle (cycle_faulty 0) fresh_qiskit) = inr false.
Proof.
  split; [reflexivity | split; [reflexivity |]].
  destruct (simulation_failure_returns_false
              (cycle_faulty 0) fresh_qiskit (LibraryError "simulation failed")
              eq_refl eq_refl) as [Hres _].
  exact Hres.
Defined.

(** ** The running average *)

(** The statistics written by a fallback simulation that completes. *)
Lemma classical_quantum_simulation_values e s :
  fault e = None ->
  let s' := fst (classical_quantum_simulation e s) in
  quantum_intensity s' = fallback_intensity (now e)
  /\ phase_coherence s' = fallback_coherence (now e)
  /\ avg_intensity (metrics s')
     = (if (executions (metrics s) >? 0)%Z
        then (avg_intensity (metrics s) * IZR (executions (metrics s) - 1)
              + fallback_intensity (now e)) / IZR (executions (metrics s))
        else fallback_intensity (now e)).
Proof.
  intros Hf. unfold classical_quantum_simulation. rewrite Hf. cbv zeta.
  simpl fst.
  autorewrite with core_fields. simpl. unfold fallback_intensity, fallback_coherence. tauto.
Qed.

(** A fallback cycle that completes recomputes the average from the
    counter value it finds on entry, before the increment. *)
Lemma cycle_classical_avg env s :
  qiskit_available s = false ->
  fault (first_sim env) = None ->
  let s' := fst (execute_quantum_emotion_cycle env s) in
  executions (metrics s') = (executions (metrics s) + 1)%Z
  /\ quantum_intensity s' = fallback_intensity (now (first_sim env))
  /\ avg_intensity (metrics s')
     = (if (executions (metrics s) >? 0)%Z
        then (avg_intensity (metrics s) * IZR (executions (metrics s) - 1)
              + fallback_intensity (now (first_sim env)))
             / IZR (executions (metrics s))
        else fallback_intensity (now (first_sim env))).
Proof.
  intros Hq Hf. cbv zeta.
  split; [apply cycle_executions |].
  rewrite (cycle_classical_ok env s Hq Hf). cbv zeta. simpl.
  destruct (classical_quantum_simulation_values (first_sim env) s Hf)
    as (Hi & _ & Ha).
  split; assumption.
Qed.

(** The formula of the code (count before the increment) and the running
    mean over the count after the increment agree only when the new
    sample equals the stored average. *)
Lemma running_mean_formulas_agree_iff (n : Z) (avg x : R) :
  (0 < n)%Z ->
  (avg * IZR (n - 1) + x) / IZR n = (avg * IZR (n + 1 - 1) + x) / IZR (n + 1)
  <-> x = avg.
Proof.
  intros Hn.
  assert (H1 : 0 < IZR n) by (apply IZR_lt; lia).
  replace (n + 1 - 1)%Z with n by lia.
  rewrite minus_IZR, plus_IZR.
  split; intros H.
  - apply (f_equal (fun v => v * IZR n * (IZR n + 1))) in H.
    field_simplify in H; lra.
  - subst x. field. lra.
Qed.

Lemma fallback_intensity_period_start (m : nat) :
  fallback_intensity (40 * INR m * PI) = 1 / 2.
Proof.
  unfold fallback_intensity.
  replace (40 * INR m * PI * (1 / 10)) with (0 + 2 * INR (2 * m) * PI)
    by (rewrite mult_INR; simpl; lra).
  replace (40 * INR m * PI * (5 / 100)) with (0 + 2 * INR m * PI) by lra.
  rewrite !sin_period, sin_0. lra.
Qed.

Lemma fallback_intensity_quarter_period (m : nat) :
  fallback_intensity (40 * INR m * PI + 10 * PI) = 13 / 20.
Proof.
  unfold fallback_intensity.
  replace ((40 * INR m * PI + 10 * PI) * (1 / 10)) with (PI + 2 * INR (2 * m) * PI)
    by (rewrite mult_INR; simpl; lra).
  replace ((40 * INR m * PI + 10 * PI) * (5 / 100)) with (PI / 2 + 2 * INR m * PI)
    by lra.
  rewrite !sin_period, sin_PI, sin_PI2. lra.
Qed.

(** Two completed fallback cycles on a fresh core: the second average is
    the second sample. *)
Lemma second_cycle_average (t1 t2 : R) :
  let s1 := fst (execute_quantum_emotion_cycle (cycle_ok t1) fresh_classical) in
  let s2 := fst (execute_quantum_emotion_cycle (cycle_ok t2) s1) in
  executions (metrics s1) = 1%Z
  /\ executions (metrics s2) = 2%Z
  /\ avg_intensity (metrics s1) = fallback_intensity t1
  /\ quantum_intensity s2 = fallback_intensity t2
  /\ avg_intensity (metrics s2) = fallback_intensity t2.
Proof.
  cbv zeta.
  destruct (cycle_classical_avg (cycle_ok t1) fresh_classical eq_refl eq_refl)
    as (He1 & _ & Ha1).
  destruct (cycle_keeps_vector (cycle_ok t1) fresh_classical) as [_ Hq1].
  remember (fst (execute_quantum_emotion_cycle (cycle_ok t1) fresh_classical))
    as s1 eqn:Es1.
  change (executions (metrics fresh_classical)) with 0%Z in He1, Ha1.
  change (now (first_sim (cycle_ok t1))) with t1 in Ha1.
  change (qiskit_available fresh_classical) with false in Hq1.
  simpl in He1, Ha1.
  destruct (cycle_classical_avg (cycle_ok t2) s1 Hq1 eq_refl)
    as (He2 & Hi2 & Ha2).
  remember (fst (execute_quantum_emotion_cycle (cycle_ok t2) s1)) as s2 eqn:Es2.
  change (now (first_sim (cycle_ok t2))) with t2 in Hi2, Ha2.
  rewrite He1 in He2, Ha2. simpl in He2, Ha2.
  repeat split; try assumption.
  rewrite Ha2. lra.
Qed.

(** C5, as the code has it.  Two fallback cycles on a fresh core, the
    first at a wall-clock time 40 * m * PI and the second 10 * PI seconds
    later, have intensities 1/2 and 13/20.  [executions] goes from 0 to 1
    to 2, one per cycle, but the second cycle recomputes [avg_intensity]
    with the counter value 1 it finds before the increment: the stored
    average is 13/20, the new sample alone, and not the running mean 23/40
    that the formula gives with the counter value 2 after the increment. *)
Theorem avg_intensity_second_cycle :
  forall m : nat,
    let t1 := 40 * INR m * PI in
    let t2 := t1 + 10 * PI in
    let s1 := fst (execute_quantum_emotion_cycle (cycle_ok t1) fresh_classical) in
    let s2 := fst (execute_quantum_emotion_cycle (cycle_ok t2) s1) in
    executions (metrics s1) = 1%Z
    /\ executions (metrics s2) = 2%Z
    /\ avg_intensity (metrics s1) = 1 / 2
    /\ quantum_intensity s2 = 13 / 20
    /\ avg_intensity (metrics s2) = 13 / 20
    /\ (avg_intensity (metrics s1) * IZR (executions (metrics s2) - 1)
        + quantum_intensity s2) / IZR (executions (metrics s2)) = 23 / 40
    /\ avg_intensity (metrics s2)
       <> (avg_intensity (metrics s1) * IZR (executions (metrics s2) - 1)
           + quantum_intensity s2) / IZR (executions (metrics s2)).
Proof.
  intros m. cbv zeta.
  destruct (second_cycle_average (40 * INR m * PI) (40 * INR m * PI + 10 * PI))
    as (He1 & He2 & Ha1 & Hi2 & Ha2).
  rewrite fallback_intensity_period_start in Ha1.
  rewrite fallback_intensity_quarter_period in Hi2, Ha2.
  repeat split; try assumption.
  - rewrite Ha1, Hi2, He2. simpl. lra.
  - rewrite Ha2, Ha1, Hi2, He2. simpl. lra.
Qed.

(** ** The emotion state *)

Lemma zip_with_length {A B C : Type} (f : A -> B -> C) xs : forall ys,
  List.length (zip_with f xs ys) = Nat.min (List.length xs) (List.length ys).
Proof.
  induction xs as [| x xs IH]; intros [| y ys]; simpl; auto.
Qed.

Lemma zip_with_Forall {A B C : Type} (f : A -> B -> C)
      (P : A -> Prop) (Q : B -> Prop) (T : C -> Prop) :
  (forall x y, P x -> Q y -> T (f x y)) ->
  forall xs ys, Forall P xs -> Forall Q ys -> Forall T (zip_with f xs ys).
Proof.
  intros Hf xs. induction xs as [| x xs IH]; intros [| y ys] Hx Hy; simpl;
    try constructor.
  - inversion Hx; inversion Hy; subst. now apply Hf.
  - inversion Hx; inversion Hy; subst. now apply IH.
Qed.

Lemma Rsum_map_div (d : R) (l : list R) :
  Rsum (map (fun x => x / d) l) = Rsum l / d.
Proof.
  induction l as [| x l IH]; simpl.
  - unfold Rdiv. now rewrite Rmult_0_l.
  - rewrite IH. unfold Rdiv. ring.
Qed.

(** The update yields a probability distribution, in the normalising
    branch and in the degenerate branch alike. *)
Lemma update_emotional_state_distribution e s :
  vector_inv s ->
  unit_draws (noise e) ->
  distribution (dirichlet e) ->
  distribution (emotion_state (update_emotional_state e s)).
Proof.
  intros [Hlen Hpos] [Hnlen Hn] Hdir.
  unfold update_emotional_state.
  set (base_state := zip_with Rplus (emotional_vector s)
                              (map (fun u => u * (1 / 10)) (noise e))).
  assert (Hbase : Forall (fun x => 0 <= x) base_state).
  { unfold base_state.
    apply (zip_with_Forall Rplus (fun x => 0 <= x) (fun y => 0 <= y)).
    - intros; lra.
    - exact Hpos.
    - apply Forall_forall. intros y Hy.
      apply in_map_iff in Hy. destruct Hy as [u [<- Hu]].
      rewrite Forall_forall in Hn. specialize (Hn u Hu). lra. }
  destruct (Rlt_dec 0 (Rsum base_state)) as [Hsum | Hsum]; simpl.
  - repeat split.
    + unfold base_state.
      rewrite length_map, zip_with_length, length_map, Hlen, Hnlen. reflexivity.
    + apply Forall_forall. intros y Hy.
      apply in_map_iff in Hy. destruct Hy as [x [<- Hx]].
      rewrite Forall_forall in Hbase. specialize (Hbase x Hx).
      apply Rmult_le_pos; [exact Hbase |].
      left. now apply Rinv_0_lt_compat.
    + rewrite Rsum_map_div. field. lra.
  - exact Hdir.
Qed.

(** The degenerate branch: a sum that is not positive selects the
    Dirichlet draw. *)
Lemma update_emotional_state_degenerate e s :
  Rsum (zip_with Rplus (emotional_vector s)
                 (map (fun u => u * (1 / 10)) (noise e))) <= 0 ->
  emotion_state (update_emotional_state e s) = dirichlet e.
Proof.
  intros Hsum. unfold update_emotional_state.
  destruct (Rlt_dec 0 _); [lra | reflexivity].
Qed.

Lemma _process_quantum_results_distribution e s :
  vector_inv s -> wf_sim e ->
  distribution (emotion_state (_process_quantum_results e s)).
Proof.
  intros Hv (Hn & Hd & _). unfold _process_quantum_results. cbv zeta.
  rewrite emotion_state_update_avg.
  apply update_emotional_state_distribution; try assumption.
  destruct (reduced_eigvals e); exact Hv.
Qed.

Lemma classical_quantum_simulation_distribution e s :
  vector_inv s -> wf_sim e -> fault e = None ->
  distribution (emotion_state (fst (classical_quantum_simulation e s))).
Proof.
  intros Hv (Hn & Hd & _) Hf. unfold classical_quantum_simulation.
  rewrite Hf. cbv zeta. simpl fst.
  rewrite emotion_state_update_avg.
  apply update_emotional_state_distribution; try assumption.
Qed.

Lemma cycle_distribution env s :
  vector_inv s -> wf_cycle env ->
  snd (execute_quantum_emotion_cycle env s) = inr true ->
  distribution (emotion_state (fst (execute_quantum_emotion_cycle env s))).
Proof.
  intros Hv [Hw1 Hw2].
  destruct (qiskit_available s) eqn:Hq.
  - destruct (fault (first_sim env)) as [err |] eqn:Hf.
    + rewrite (cycle_qiskit_fault env s err Hq Hf). simpl. discriminate.
    + intros _. rewrite (cycle_with_qiskit env s Hq). cbv zeta.
      unfold real_quantum_simulation. rewrite Hf. simpl.
      now apply _process_quantum_results_distribution.
  - destruct (fault (first_sim env)) as [err |] eqn:Hf.
    + rewrite (cycle_classical_fault env s err Hq Hf). cbv zeta.
      rewrite classical_quantum_simulation_result.
      destruct (fault (handler_sim env)) eqn:Hf2; [discriminate |].
      intros _.
      apply classical_quantum_simulation_distribution; assumption.
    + intros _. rewrite (cycle_classical_ok env s Hq Hf). cbv zeta. simpl.
      now apply classical_quantum_simulation_distribution.
Qed.

(** C4, as stated, fails: a fresh core in simulation mode whose first
    cycle meets a fault of the Qiskit run still holds the all-zero
    [emotion_state] of [__init__] after that cycle, so its entries sum to
    0 and not to 1. *)
Lemma emotion_state_after_failed_simulation :
  reachable fresh_qiskit
  /\ wf_cycle (cycle_faulty 0)
  /\ Rsum (emotion_state
             (fst (execute_quantum_emotion_cycle (cycle_faulty 0) fresh_qiskit))) = 0
  /\ ~ distribution
        (emotion_state
           (fst (execute_quantum_emotion_cycle (cycle_faulty 0) fresh_qiskit))).
Proof.
  split; [exact reachable_fresh_qiskit |].
  split; [apply wf_cycle_faulty |].
  rewrite (cycle_qiskit_fault (cycle_faulty 0) fresh_qiskit
             (LibraryError "simulation failed") eq_refl eq_refl).
  assert (Hsum : Rsum (repeat 0 8) = 0) by (simpl; lra).
  split; [exact Hsum |].
  intros (_ & _ & Hone).
  change (Rsum (repeat 0 8) = 1) in Hone. lra.
Qed.

(** C4, amended.  After every evaluation cycle that returns [True], that
    is every cycle in which the Qiskit simulation or the fallback
    simulation (run directly or from the exception handler) completes,
    [emotion_state] has eight non-negative entries that sum to 1; this
    covers the degenerate case of a non-positive sum, where the state is
    the Dirichlet draw. *)
Theorem emotion_state_is_distribution :
  forall (env : CycleEnv) (s : QuantumEmotionalCore),
    reachable s ->
    wf_cycle env ->
    snd (execute_quantum_emotion_cycle env s) = inr true ->
    distribution (emotion_state (fst (execute_quantum_emotion_cycle env s))).
Proof.
  intros env s Hs Hwf Hok.
  destruct (reachable_inv s Hs) as [_ Hv].
  now apply cycle_distribution.
Qed.

Lemma emotion_state_is_distribution_witness :
  reachable fresh_classical
  /\ wf_cycle (cycle_ok 0)
  /\ snd (execute_quantum_emotion_cycle (cycle_ok 0) fresh_classical) = inr true
  /\ distribution
       (emotion_state
          (fst (execute_quantum_emotion_cycle (cycle_ok 0) fresh_classical))).
Proof.
  assert (Hok : snd (execute_quantum_emotion_cycle (cycle_ok 0) fresh_classical)
                = inr true).
  { now rewrite (cycle_classical_ok (cycle_ok 0) fresh_classical eq_refl eq_refl). }
  split; [exact reachable_fresh_classical |].
  split; [apply wf_cycle_ok |].
  split; [exact Hok |].
  exact (emotion_state_is_distribution (cycle_ok 0) fresh_classical
           reachable_fresh_classical (wf_cycle_ok 0) Hok).
Defined.

(** ** Reset *)

Lemma reset_fields e s :
  emotion_state (reset e s) = repeat 0 8
  /\ quantum_intensity (reset e s) = 0
  /\ phase_coherence (reset e s) = 0
  /\ entanglement_measure (reset e s) = 0
  /\ emotional_vector (reset e s) = draw e
  /\ session_id (reset e s) = substring 0 8 (uuid4 e)
  /\ metrics (reset e s) = mkMetrics 0 0 0 None 100 (boot_time e).
Proof. unfold reset. simpl. apply __init___fields. Qed.

(** C8, as stated, fails in its last part: after a reset the exposed
    [emotion_state] is the all-zero vector, which sums to 0, and the
    fresh uniform draw is stored in [emotional_vector] as drawn, without
    renormalisation (here eight times 1/2, which sums to 4). *)
Lemma reset_state_not_normalised :
  wf_init boot_qiskit
  /\ Rsum (emotion_state (reset boot_qiskit fresh_classical)) = 0
  /\ ~ distribution (emotion_state (reset boot_qiskit fresh_classical))
  /\ Rsum (emotional_vector (reset boot_qiskit fresh_classical)) = 4
  /\ ~ distribution (emotional_vector (reset boot_qiskit fresh_classical)).
Proof.
  destruct (reset_fields boot_qiskit fresh_classical)
    as (Hst & _ & _ & _ & Hvec & _).
  rewrite Hst, Hvec.
  assert (H0 : Rsum (repeat 0 8) = 0) by (simpl; lra).
  assert (H4 : Rsum (draw boot_qiskit) = 4) by (simpl; lra).
  split; [exact half8_unit_draws |].
  split; [exact H0 |].
  split; [intros (_ & _ & Hone); lra |].
  split; [exact H4 |].
  intros (_ & _ & Hone); lra.
Qed.

(** C8, amended.  After a reset, whatever the previous state,
    [executions] and [errors] are 0, [avg_intensity] is 0, [success_rate]
    is 100, [last_execution_time] is unset, the session identifier is the
    first eight characters of a newly generated UUID, [emotion_state] is
    the all-zero vector and [emotional_vector] is a fresh uniform draw,
    stored as drawn. *)
Theorem reset_restores_initial_state :
  forall (e : InitEnv) (s : QuantumEmotionalCore),
    executions (metrics (reset e s)) = 0%Z
    /\ errors (metrics (reset e s)) = 0%Z
    /\ avg_intensity (metrics (reset e s)) = 0
    /\ success_rate (metrics (reset e s)) = 100
    /\ last_execution_time (metrics (reset e s)) = None
    /\ session_id (reset e s) = substring 0 8 (uuid4 e)
    /\ emotion_state (reset e s) = repeat 0 8
    /\ emotional_vector (reset e s) = draw e.
Proof.
  intros e s.
  destruct (reset_fields e s) as (Hst & _ & _ & _ & Hvec & Hsid & Hm).
  rewrite Hm, Hst, Hvec, Hsid. simpl. repeat split.
Qed.

Example reset_session_id :
  session_id (reset boot_qiskit fresh_classical) = "0f8fad5b"%string
  /\ session_id fresh_classical = "7c9e6679"%string.
Proof. split; reflexivity. Qed.

(** ** The phase angle of the fallback mode *)

Lemma PI_gt_3 : 3 < PI.
Proof. pose proof PI2_3_2. lra. Qed.

Lemma arctan2_bounds (y x : R) : - PI < arctan2 y x <= PI.
Proof.
  pose proof PI_gt_3 as Hpi.
  pose proof (atan_bound (y / x)) as Hb.
  unfold arctan2.
  destruct (Rlt_dec 0 x) as [Hx | Hx]; [lra |].
  destruct (Rlt_dec x 0) as [Hx' | Hx'].
  - destruct (Rle_dec 0 y) as [Hy | Hy].
    + assert (Hq : y / x <= 0).
      { pose proof (Rinv_lt_0_compat x Hx') as Hi. unfold Rdiv. nra. }
      assert (atan (y / x) <= 0).
      { destruct Hq as [Hq | Hq].
        - left. rewrite <- atan_0. now apply atan_increasing.
        - rewrite Hq, atan_0. lra. }
      lra.
    + assert (Hq : 0 < y / x).
      { pose proof (Rinv_lt_0_compat x Hx') as Hi. unfold Rdiv. nra. }
      assert (0 < atan (y / x)).
      { rewrite <- atan_0. now apply atan_increasing. }
      lra.
  - destruct (Rlt_dec 0 y); [lra |].
    destruct (Rlt_dec y 0); lra.
Qed.

Lemma angle_of_unit (theta : R) :
  - PI < theta <= PI -> angle (cos theta, sin theta) = theta.
Proof.
  intros [Hlo Hhi].
  pose proof PI_gt_3 as Hpi.
  unfold angle, arctan2. simpl fst. simpl snd.
  destruct (Rtotal_order theta (- (PI / 2))) as [H1 | [H1 | H1]].
  - (* third quadrant *)
    assert (Hc : 0 < cos (theta + PI)) by (apply cos_gt_0; lra).
    assert (Hs : 0 < sin (theta + PI)) by (apply sin_gt_0; lra).
    rewrite neg_cos in Hc. rewrite neg_sin in Hs.
    destruct (Rlt_dec 0 (cos theta)); [lra |].
    destruct (Rlt_dec (cos theta) 0); [| lra].
    destruct (Rle_dec 0 (sin theta)); [lra |].
    replace (sin theta / cos theta) with (tan (theta + PI)).
    + rewrite atan_tan by lra. lra.
    + unfold tan. rewrite neg_sin, neg_cos. field. lra.
  - subst theta. rewrite cos_neg, sin_neg, cos_PI2, sin_PI2.
    repeat match goal with
           | |- context [Rlt_dec ?a ?b] => destruct (Rlt_dec a b); try lra
           end.
  - destruct (Rtotal_order theta (PI / 2)) as [H2 | [H2 | H2]].
    + assert (Hc : 0 < cos theta) by (apply cos_gt_0; lra).
      destruct (Rlt_dec 0 (cos theta)); [| lra].
      change (sin theta / cos theta) with (tan theta).
      apply atan_tan. lra.
    + subst theta. rewrite cos_PI2, sin_PI2.
      repeat match goal with
             | |- context [Rlt_dec ?a ?b] => destruct (Rlt_dec a b); try lra
             end.
    + assert (Hc : cos theta < 0) by (apply cos_lt_0; lra).
      assert (Hs : 0 <= sin theta) by (apply sin_ge_0; lra).
      destruct (Rlt_dec 0 (cos theta)); [lra |].
      destruct (Rlt_dec (cos theta) 0); [| lra].
      destruct (Rle_dec 0 (sin theta)); [| lra].
      replace (sin theta / cos theta) with (tan (theta + - PI)).
      * rewrite atan_tan by lra. lra.
      * unfold tan.
        replace (sin theta) with (- sin (theta + - PI)).
        2:{ rewrite <- neg_sin. f_equal. lra. }
        replace (cos theta) with (- cos (theta + - PI)).
        2:{ rewrite <- neg_cos. f_equal. lra. }
        field.
        assert (cos (theta + - PI + PI) < 0).
        { replace (theta + - PI + PI) with theta by lra. exact Hc. }
        rewrite neg_cos in H. lra.
Qed.

(** ** The purity of a pure state *)
Lemma nth_map_in {A B : Type} (f : A -> B) (l : list A) (i : nat) (d : B) (d' : A) :
  (i < List.length l)%nat -> nth i (map f l) d = f (nth i l d').
Proof.
  intros Hi. rewrite (nth_indep (map f l) d (f d')).
  - apply map_nth.
  - now rewrite length_map.
Qed.

Lemma map_nth_seq {A : Type} (d : A) (l : list A) :
  map (fun i => nth i l d) (seq 0 (List.length l)) = l.
Proof.
  induction l as [| x l IH]; [reflexivity |].
  simpl. f_equal. rewrite <- seq_shift, map_map. exact IH.
Qed.

Lemma zip_with_map_map {A B C D : Type} (f : B -> C -> D) (g : A -> B) (h : A -> C)
      (l : list A) :
  zip_with f (map g l) (map h l) = map (fun x => f (g x) (h x)) l.
Proof. induction l as [| x l IH]; simpl; [reflexivity | now rewrite IH]. Qed.

Lemma Cmul_conj_pair (a b : Complex) :
  Cmul (Cmul a (Cconj b)) (Cmul b (Cconj a)) = (Cabs2 a * Cabs2 b, 0).
Proof.
  destruct a as [ar ai], b as [br bi]. unfold Cmul, Cconj, Cabs2. simpl.
  f_equal; ring.
Qed.

Lemma Csum_real {A : Type} (f : A -> R) (l : list A) :
  Csum (map (fun x => (f x, 0)) l) = (Rsum (map f l), 0).
Proof.
  induction l as [| x l IH]; [reflexivity |].
  unfold Csum in *. simpl. rewrite IH. unfold Cadd. simpl. f_equal; ring.
Qed.

Lemma Rsum_map_scale {A : Type} (f : A -> R) (c : R) (l : list A) :
  Rsum (map (fun x => f x * c) l) = Rsum (map f l) * c.
Proof.
  induction l as [| x l IH]; simpl; [ring | rewrite IH; ring].
Qed.

Lemma Rsum_map_scale_l {A : Type} (f : A -> R) (c : R) (l : list A) :
  Rsum (map (fun x => c * f x) l) = c * Rsum (map f l).
Proof.
  induction l as [| x l IH]; simpl; [ring | rewrite IH; ring].
Qed.

Section Purity.

Variable sv : list Complex.

Local Abbreviation rho := (outer sv (map Cconj sv)).
Local Abbreviation norm2 := (Rsum (map Cabs2 sv)).

Lemma rho_rows : List.length rho = List.length sv.
Proof. unfold outer. now rewrite length_map. Qed.

Lemma rho_columns (i : nat) :
  (i < List.length sv)%nat -> List.length (hd [] rho) = List.length sv.
Proof.
  intros Hi. unfold outer. destruct sv as [| a sv']; [simpl in Hi; lia |].
  simpl. now rewrite !length_map.
Qed.

(** Row [i] of the density matrix. *)
Lemma rho_row (i : nat) :
  (i < List.length sv)%nat ->
  nth i rho [] = map (fun b => Cmul (nth i sv Czero) (Cconj b)) sv.
Proof.
  intros Hi. unfold outer.
  rewrite (nth_map_in _ sv i [] Czero Hi). now rewrite map_map.
Qed.

(** Column [i] of the density matrix. *)
Lemma rho_column (i : nat) :
  (i < List.length sv)%nat ->
  column i rho = map (fun a => Cmul a (Cconj (nth i sv Czero))) sv.
Proof.
  intros Hi. unfold column, outer. rewrite map_map.
  apply map_ext. intros a.
  rewrite (nth_map_in _ (map Cconj sv) i Czero Czero)
    by (now rewrite length_map).
  now rewrite (nth_map_in _ sv i Czero Czero Hi).
Qed.

(** The diagonal of [rho @ rho]. *)
Lemma rho_squared_diagonal (i : nat) :
  (i < List.length sv)%nat ->
  nth i (nth i (matmul rho rho) []) Czero
  = (Cabs2 (nth i sv Czero) * norm2, 0).
Proof.
  intros Hi. unfold matmul.
  rewrite (nth_map_in _ rho i [] []) by (rewrite rho_rows; exact Hi).
  rewrite (rho_columns i Hi).
  rewrite (nth_map_in _ (seq 0 (List.length sv)) i Czero O)
    by (now rewrite length_seq).
  rewrite seq_nth by exact Hi. simpl Nat.add.
  rewrite (rho_row i Hi), (rho_column i Hi), zip_with_map_map.
  rewrite (map_ext _ (fun b => (Cabs2 (nth i sv Czero) * Cabs2 b, 0)))
    by (intros b; apply Cmul_conj_pair).
  rewrite (Csum_real (fun b => Cabs2 (nth i sv Czero) * Cabs2 b)).
  now rewrite Rsum_map_scale_l.
Qed.

(** [np.trace(rho @ rho)] is the squared norm of the state vector,
    squared. *)
Lemma purity_of_pure_state :
  trace (matmul rho rho) = (norm2 * norm2, 0).
Proof.
  unfold trace.
  assert (Hlen : List.length (matmul rho rho) = List.length sv)
    by (unfold matmul; now rewrite length_map, rho_rows).
  rewrite Hlen.
  rewrite (map_ext_in _ (fun i => (Cabs2 (nth i sv Czero) * norm2, 0))).
  - rewrite (Csum_real (fun i => Cabs2 (nth i sv Czero) * norm2)).
    rewrite Rsum_map_scale.
    rewrite <- (map_map (fun i => nth i sv Czero) Cabs2), map_nth_seq.
    reflexivity.
  - intros i Hin. apply in_seq in Hin.
    apply rho_squared_diagonal. lia.
Qed.

End Purity.

(** ** The coherence statistic *)

Lemma _process_quantum_results_coherence e s :
  phase_coherence (_process_quantum_results e s)
  = Rsum (map Cabs2 (statevector e)) * Rsum (map Cabs2 (statevector e)).
Proof.
  unfold _process_quantum_results. cbv zeta.
  autorewrite with core_fields.
  destruct (reduced_eigvals e); simpl; now rewrite purity_of_pure_state.
Qed.

Lemma cycle_classical_coherence env s :
  qiskit_available s = false ->
  phase_coherence (fst (execute_quantum_emotion_cycle env s))
  = match fault (first_sim env), fault (handler_sim env) with
    | None, _ => fallback_coherence (now (first_sim env))
    | Some _, None => fallback_coherence (now (handler_sim env))
    | Some _, Some _ => phase_coherence s
    end.
Proof.
  intros Hq.
  destruct (fault (first_sim env)) as [err |] eqn:Hf.
  - rewrite (cycle_classical_fault env s err Hq Hf). cbv zeta.
    destruct (fault (handler_sim env)) as [err2 |] eqn:Hf2.
    + unfold classical_quantum_simulation. now rewrite Hf2.
    + match goal with
      | |- context [classical_quantum_simulation ?e0 ?x] =>
          destruct (classical_quantum_simulation_values e0 x Hf2) as (_ & Hp & _)
      end.
      exact Hp.
  - rewrite (cycle_classical_ok env s Hq Hf). cbv zeta. simpl.
    destruct (classical_quantum_simulation_values (first_sim env) s Hf)
      as (_ & Hp & _).
    exact Hp.
Qed.

Lemma fallback_coherence_bounds t : - PI < fallback_coherence t <= PI.
Proof. unfold fallback_coherence, angle. apply arctan2_bounds. Qed.

(** The fallback coherence is the angle [t / 10] itself while that lies
    in (-PI, PI], and it repeats every [20 * PI] seconds. *)
Lemma fallback_coherence_principal t :
  - PI < t / 10 <= PI -> fallback_coherence t = t / 10.
Proof.
  intros Ht. unfold fallback_coherence.
  replace (t * (1 / 10)) with (t / 10) by lra.
  now apply angle_of_unit.
Qed.

Lemma fallback_coherence_period t (k : nat) :
  fallback_coherence (t + 20 * INR k * PI) = fallback_coherence t.
Proof.
  unfold fallback_coherence.
  replace ((t + 20 * INR k * PI) * (1 / 10))
    with (t * (1 / 10) + 2 * INR k * PI) by lra.
  now rewrite cos_period, sin_period.
Qed.

Lemma fallback_coherence_period_Z t (k : Z) :
  (0 <= k)%Z -> fallback_coherence (t + 20 * IZR k * PI) = fallback_coherence t.
Proof.
  intros Hk. rewrite <- (Z2Nat.id k Hk), <- INR_IZR_INZ.
  apply fallback_coherence_period.
Qed.

Lemma fallback_coherence_25 : fallback_coherence 25 = 5 / 2.
Proof.
  pose proof PI_gt_3.
  rewrite fallback_coherence_principal; lra.
Qed.

Lemma fallback_coherence_50 : fallback_coherence 50 = 5 - 2 * PI.
Proof.
  pose proof PI_gt_3. pose proof PI_4.
  replace 50 with (10 * (5 - 2 * PI) + 20 * INR 1 * PI) by (simpl; lra).
  rewrite fallback_coherence_period, fallback_coherence_principal; lra.
Qed.

(** C9, as stated, fails in fallback mode: on a fresh core without
    Qiskit, the cycle at wall-clock time 25 leaves a coherence of 5/2,
    above 1, and so does the cycle at time 25 + 560000000 * PI (a
    timestamp of the year 2025); the cycle at time 50 leaves
    5 - 2 * PI, below 0. *)
Lemma coherence_outside_unit_interval :
  reachable fresh_classical
  /\ wf_cycle (cycle_ok 25)
  /\ snd (execute_quantum_emotion_cycle (cycle_ok 25) fresh_classical) = inr true
  /\ phase_coherence (fst (execute_quantum_emotion_cycle (cycle_ok 25) fresh_classical))
     = 5 / 2
  /\ ~ (0 <= phase_coherence
               (fst (execute_quantum_emotion_cycle (cycle_ok 25) fresh_classical))
         <= 1)
  /\ phase_coherence
       (fst (execute_quantum_emotion_cycle (cycle_ok (25 + 560000000 * PI))
                                           fresh_classical))
     = 5 / 2
  /\ phase_coherence (fst (execute_quantum_emotion_cycle (cycle_ok 50) fresh_classical))
     < 0.
Proof.
  pose proof PI_gt_3 as Hpi.
  rewrite !(cycle_classical_coherence _ fresh_classical eq_refl).
  change (fault (first_sim (cycle_ok 25))) with (@None Exn).
  change (fault (first_sim (cycle_ok 50))) with (@None Exn).
  change (fault (first_sim (cycle_ok (25 + 560000000 * PI)))) with (@None Exn).
  change (now (first_sim (cycle_ok 25))) with 25.
  change (now (first_sim (cycle_ok 50))) with 50.
  change (now (first_sim (cycle_ok (25 + 560000000 * PI))))
    with (25 + 560000000 * PI).
  replace (25 + 560000000 * PI) with (25 + 20 * IZR 28000000 * PI) by lra.
  rewrite fallback_coherence_period_Z by lia.
  rewrite fallback_coherence_25, fallback_coherence_50.
  split; [exact reachable_fresh_classical |].
  split; [apply wf_cycle_ok |].
  split; [now rewrite (cycle_classical_ok (cycle_ok 25) fresh_classical eq_refl eq_refl) |].
  repeat split; lra.
Qed.

(** The value and the range of the coherence over all states of the
    core. *)

Lemma cycle_qiskit_coherence env s :
  qiskit_available s = true ->
  phase_coherence (fst (execute_quantum_emotion_cycle env s))
  = match fault (first_sim env) with
    | None => Rsum (map Cabs2 (statevector (first_sim env)))
              * Rsum (map Cabs2 (statevector (first_sim env)))
    | Some _ => phase_coherence s
    end.
Proof.
  intros Hq.
  destruct (fault (first_sim env)) as [err |] eqn:Hf.
  - now rewrite (cycle_qiskit_fault env s err Hq Hf).
  - rewrite (cycle_with_qiskit env s Hq). cbv zeta.
    unfold real_quantum_simulation. rewrite Hf. simpl.
    apply _process_quantum_results_coherence.
Qed.

Lemma cycle_coherence_inv env s :
  wf_cycle env -> coherence_inv s ->
  coherence_inv (fst (execute_quantum_emotion_cycle env s)).
Proof.
  intros [(_ & _ & Hnorm) _] [Hsim Hfb].
  destruct (cycle_keeps_vector env s) as [_ Hmode].
  unfold coherence_inv. rewrite Hmode. split; intros Hq.
  - rewrite (cycle_qiskit_coherence env s Hq).
    destruct (fault (first_sim env)); [now apply Hsim |].
    rewrite Hnorm. lra.
  - rewrite (cycle_classical_coherence env s Hq).
    destruct (fault (first_sim env)); [| apply fallback_coherence_bounds].
    destruct (fault (handler_sim env)); [now apply Hfb |].
    apply fallback_coherence_bounds.
Qed.

Lemma coherence_inv_initial e log0 : coherence_inv (__init__ e log0).
Proof.
  destruct (__init___fields e log0) as (_ & _ & Hp & _).
  pose proof PI_gt_3.
  unfold coherence_inv. rewrite Hp. split; intros _; lra.
Qed.

Lemma api_feel_coherence_inv member env s :
  wf_cycle env -> coherence_inv s -> coherence_inv (fst (api_feel member env s)).
Proof.
  intros Hwf Hinv. unfold api_feel.
  destruct (position_of _) as [idx |]; [| exact Hinv].
  pose proof (cycle_coherence_inv env (set_emotional_vector (one_hot idx) s) Hwf Hinv)
    as Hc.
  destruct (execute_quantum_emotion_cycle env _) as [s2 [err | ok]]; exact Hc.
Qed.

Lemma api_metrics_coherence_inv env s :
  wf_cycle env -> coherence_inv s -> coherence_inv (fst (api_metrics env s)).
Proof.
  intros Hwf Hinv. unfold api_metrics.
  pose proof (cycle_coherence_inv env s Hwf Hinv) as Hc.
  destruct (execute_quantum_emotion_cycle env s) as [s2 [err | ok]]; exact Hc.
Qed.

Lemma reachable_coherence_inv s : reachable s -> coherence_inv s.
Proof.
  induction 1 as [e log0 Hwf | env s Hs IH Hwf | member env s Hs IH Hwf
                  | env s Hs IH Hwf | e s Hs IH Hwf].
  - apply coherence_inv_initial.
  - now apply cycle_coherence_inv.
  - now apply api_feel_coherence_inv.
  - now apply api_metrics_coherence_inv.
  - unfold reset. apply coherence_inv_initial.
Qed.

(** The fallback coherence is the representative in (-PI, PI] of the
    angle [t / 10]. *)
Lemma fallback_coherence_phase t :
  cos (fallback_coherence t) = cos (t / 10)
  /\ sin (fallback_coherence t) = sin (t / 10).
Proof.
  pose proof PI_gt_3 as Hpi.
  destruct (euclidian_division (PI - t / 10) (2 * PI) ltac:(lra))
    as (k & r & Heq & Hr).
  rewrite Rabs_right in Hr by lra.
  set (theta := PI - r).
  assert (Hth : - PI < theta <= PI) by (unfold theta; lra).
  assert (Hfc : fallback_coherence (10 * theta) = theta).
  { rewrite fallback_coherence_principal; lra. }
  destruct (Z_le_gt_dec 0 k) as [Hk | Hk].
  - (* theta = t / 10 + 2 k PI *)
    assert (Ht : 10 * theta = t + 20 * IZR k * PI) by (unfold theta; lra).
    rewrite Ht, fallback_coherence_period_Z in Hfc by exact Hk.
    rewrite Hfc.
    replace theta with (t / 10 + 2 * INR (Z.to_nat k) * PI).
    + now rewrite cos_period, sin_period.
    + rewrite INR_IZR_INZ, Z2Nat.id by exact Hk. unfold theta. lra.
  - (* t / 10 = theta + 2 (-k) PI *)
    assert (Hk' : (0 <= - k)%Z) by lia.
    assert (Ht : t = 10 * theta + 20 * IZR (- k) * PI).
    { rewrite opp_IZR. unfold theta. lra. }
    assert (Hfct : fallback_coherence t = theta).
    { rewrite Ht. now rewrite fallback_coherence_period_Z by exact Hk'. }
    rewrite Hfct.
    replace (t / 10) with (theta + 2 * INR (Z.to_nat (- k)) * PI).
    + now rewrite cos_period, sin_period.
    + rewrite INR_IZR_INZ, Z2Nat.id by exact Hk'. rewrite opp_IZR. unfold theta. lra.
Qed.

(** C9, amended.  In every reachable state, and so after every
    evaluation cycle whatever its outcome, the coherence lies in [0,1]
    while the core is in simulation mode, for normalised state vectors,
    and in (-PI, PI] while it is in fallback mode.  A completed
    simulation stores the purity of the state vector, which is the
    square of its squared norm; a completed fallback simulation at time
    [t] stores the phase angle of the unit complex number at angle
    [t / 10], the representative of that angle in (-PI, PI]; a cycle
    whose simulation fails keeps the previous value. *)
Theorem coherence_after_cycle :
  forall s : QuantumEmotionalCore,
    reachable s ->
    (qiskit_available s = true -> 0 <= phase_coherence s <= 1)
    /\ (qiskit_available s = false -> - PI < phase_coherence s <= PI)
    /\ (forall env : CycleEnv,
          wf_cycle env ->
          let s' := fst (execute_quantum_emotion_cycle env s) in
          (qiskit_available s = true ->
           0 <= phase_coherence s' <= 1
           /\ phase_coherence s'
              = match fault (first_sim env) with
                | None => Rsum (map Cabs2 (statevector (first_sim env)))
                          * Rsum (map Cabs2 (statevector (first_sim env)))
                | Some _ => phase_coherence s
                end)
          /\ (qiskit_available s = false ->
              - PI < phase_coherence s' <= PI
              /\ phase_coherence s'
                 = match fault (first_sim env), fault (handler_sim env) with
                   | None, _ => fallback_coherence (now (first_sim env))
                   | Some _, None => fallback_coherence (now (handler_sim env))
                   | Some _, Some _ => phase_coherence s
                   end))
    /\ (forall t : R,
          - PI < fallback_coherence t <= PI
          /\ cos (fallback_coherence t) = cos (t / 10)
          /\ sin (fallback_coherence t) = sin (t / 10)).
Proof.
  intros s Hs.
  destruct (reachable_coherence_inv s Hs) as [Hsim Hfb].
  split; [exact Hsim |]. split; [exact Hfb |]. split.
  - intros env Hwf. cbv zeta.
    destruct (cycle_coherence_inv env s Hwf (conj Hsim Hfb)) as [Hsim' Hfb'].
    destruct (cycle_keeps_vector env s) as [_ Hmode]. rewrite Hmode in Hsim', Hfb'.
    split; intros Hq.
    + split; [now apply Hsim' | now apply cycle_qiskit_coherence].
    + split; [now apply Hfb' | now apply cycle_classical_coherence].
  - intros t. split; [apply fallback_coherence_bounds | apply fallback_coherence_phase].
Qed.

Lemma coherence_after_cycle_witness :
  reachable fresh_qiskit
  /\ wf_cycle (cycle_ok 0)
  /\ 0 <= phase_coherence (fst (execute_quantum_emotion_cycle (cycle_ok 0) fresh_qiskit))
     <= 1.
Proof.
  split; [exact reachable_fresh_qiskit | split; [apply wf_cycle_ok |]].
  destruct (coherence_after_cycle fresh_qiskit reachable_fresh_qiskit)
    as (_ & _ & Hcycle & _).
  destruct (Hcycle (cycle_ok 0) (wf_cycle_ok 0)) as [Hsim _].
  destruct (Hsim eq_refl) as [Hrange _]. exact Hrange.
Defined.

End AuraLiveFacts.

(** * Further properties of [Aura400Circuit] *)

Module Aura400ExtraFacts.
Import Aura400 Aura400Extra.


Lemma range_step_cells_exact (n q : nat) :
  (0 < q)%nat ->
  range_step (n * q) q = inr (map (fun k => (k * q)%nat) (seq 0 n)).
Proof.
  intros Hq. unfold range_step. destruct q as [| q']; [lia |].
  do 3 f_equal.
  replace (n * S q' + S q' - 1)%nat with (n * S q' + q')%nat by lia.
  rewrite Nat.div_add_l by lia. rewrite Nat.div_small by lia. lia.
Qed.

Lemma build_circuit_inversion env w w' qc :
  build_circuit env w = (w', inr qc) ->
  (0 < qubits_per_cell (self w))%nat
  /\ qc = circuit_gates (self w)
            (map (fun k => (k * qubits_per_cell (self w))%nat)
                 (seq 0 (n_cells (self w))))
  /\ qiskit_rejects env qc = None
  /\ self w' = self w
  /\ trace w' = (trace w ++ [CircuitConstructed qc;
                             Log INFO "Circuito construido correctamente"])%list.
Proof.
  unfold build_circuit, try_except, bind, get_self, lift, check, emit, ret, raise.
  destruct (qubits_per_cell (self w)) as [| q'] eqn:Hq.
  - simpl. discriminate.
  - unfold total_qubits at 1. rewrite Hq.
    rewrite (range_step_cells_exact (n_cells (self w)) (S q')) by lia.
    fold (circuit_gates (self w)
            (map (fun k => (k * S q')%nat) (seq 0 (n_cells (self w))))).
    destruct (qiskit_rejects env _) eqn:Hrej; simpl.
    + discriminate.
    + intros Heq. inversion Heq; subst. simpl.
      rewrite <- app_assoc. simpl. repeat split; try lia; assumption.
Qed.

Lemma circuit_gates_within (c : Aura400Circuit) (starts : list nat) :
  Forall (fun i => (i < total_qubits c)%nat) starts ->
  Forall (within (total_qubits c)) (circuit_gates c starts).
Proof.
  intros Hst. unfold circuit_gates, within. rewrite Forall_forall in Hst.
  set (total := total_qubits c) in *.
  repeat rewrite Forall_app. repeat split.
  - apply Forall_forall. intros g Hg.
    apply in_map_iff in Hg. destruct Hg as [q [<- Hq]].
    apply in_seq in Hq. repeat constructor. cbv beta. lia.
  - unfold _build_intra_cell_connections. fold total.
    apply Forall_forall. intros g Hg.
    apply in_flat_map in Hg. destruct Hg as [i [Hi Hg]].
    specialize (Hst i Hi).
    apply in_app_or in Hg. destruct Hg as [Hg | Hg].
    + destruct (i + 1 <? total)%nat eqn:H1; [| contradiction].
      apply Nat.ltb_lt in H1.
      destruct Hg as [<- | []]. repeat constructor; cbv beta; lia.
    + destruct ((i + 2 <? total)%nat && (i + 3 <? total)%nat)
        eqn:H2; [| contradiction].
      apply andb_true_iff in H2. destruct H2 as [H2 H3].
      apply Nat.ltb_lt in H2. apply Nat.ltb_lt in H3.
      destruct Hg as [<- | [<- | []]]; repeat constructor; cbv beta; lia.
  - unfold _build_inter_cell_connections. fold total.
    apply Forall_forall. intros g Hg.
    apply in_map_iff in Hg. destruct Hg as [i [<- Hi]].
    specialize (Hst i Hi).
    repeat constructor; cbv beta; [lia |].
    apply Nat.mod_upper_bound. lia.
  - unfold _add_emotional_feedback.
    apply Forall_forall. intros g Hg.
    apply in_map_iff in Hg. destruct Hg as [i [<- Hi]].
    specialize (Hst i Hi). repeat constructor. cbv beta. lia.
Qed.

Lemma cell_starts_within (n q : nat) :
  (0 < q)%nat ->
  Forall (fun i => (i < n * q)%nat) (map (fun k => (k * q)%nat) (seq 0 n)).
Proof.
  intros Hq. apply Forall_forall. intros i Hi.
  apply in_map_iff in Hi. destruct Hi as [k [<- Hk]].
  apply in_seq in Hk. nia.
Qed.

(** X1.  Every gate of a circuit that [build_circuit] returns acts on
    qubits inside the register of [total_qubits] qubits, for any cell
    count and any positive cell size. *)
Theorem built_gates_within_register :
  forall env w w' qc,
    build_circuit env w = (w', inr qc) ->
    Forall (fun g => Forall (fun q => (q < total_qubits (self w))%nat) (gate_qubits g)) qc.
Proof.
  intros env w w' qc Hb.
  destruct (build_circuit_inversion env w w' qc Hb) as (Hq & -> & _).
  apply circuit_gates_within. now apply cell_starts_within.
Qed.

(** ** Gate structure *)
Lemma swaps_app a b : swaps (a ++ b) = (swaps a ++ swaps b)%list.
Proof. unfold swaps. apply flat_map_app. Qed.

Lemma ry_angles_app a b : ry_angles (a ++ b) = (ry_angles a ++ ry_angles b)%list.
Proof. unfold ry_angles. apply flat_map_app. Qed.

Lemma bind_parameters_app v a b :
  bind_parameters v (a ++ b) = (bind_parameters v a ++ bind_parameters v b)%list.
Proof. unfold bind_parameters. apply map_app. Qed.

Lemma no_swaps_no_ry_in_hadamards l :
  swaps (map H l) = [] /\ forall v, ry_angles (bind_parameters v (map H l)) = [].
Proof.
  induction l as [| q l [IH1 IH2]]; simpl; split; auto.
Qed.

Lemma no_swaps_no_ry_in_intra c starts :
  swaps (_build_intra_cell_connections c starts) = []
  /\ forall v, ry_angles (bind_parameters v (_build_intra_cell_connections c starts)) = [].
Proof.
  unfold _build_intra_cell_connections.
  induction starts as [| i starts [IH1 IH2]]; [split; reflexivity |].
  simpl flat_map. split.
  - rewrite !swaps_app, IH1.
    destruct (i + 1 <? _)%nat; destruct (_ && _); reflexivity.
  - intros v. rewrite !bind_parameters_app, !ry_angles_app, IH2.
    destruct (i + 1 <? _)%nat; destruct (_ && _); reflexivity.
Qed.

Lemma swaps_inter c starts :
  swaps (_build_inter_cell_connections c starts)
  = map (fun i => (i, (i + qubits_per_cell c) mod total_qubits c)%nat) starts.
Proof.
  unfold _build_inter_cell_connections.
  induction starts as [| i starts IH]; [reflexivity |].
  simpl. f_equal. exact IH.
Qed.

Lemma no_ry_in_inter c starts v :
  ry_angles (bind_parameters v (_build_inter_cell_connections c starts)) = [].
Proof.
  unfold _build_inter_cell_connections.
  induction starts as [| i starts IH]; [reflexivity | exact IH].
Qed.

Lemma swaps_feedback c starts : swaps (_add_emotional_feedback c starts) = [].
Proof.
  unfold _add_emotional_feedback.
  induction starts as [| i starts IH]; [reflexivity | exact IH].
Qed.

Lemma ry_feedback c starts v :
  ry_angles (bind_parameters v (_add_emotional_feedback c starts))
  = map (fun i => Fixed (nth (i / qubits_per_cell c) v 0)) starts.
Proof.
  unfold _add_emotional_feedback.
  induction starts as [| i starts IH]; [reflexivity |].
  simpl. f_equal. exact IH.
Qed.

(** X2.  The swaps of a built circuit close a ring over the cells: cell
    [k] is swapped with cell [(k + 1) mod n_cells] at their first qubits,
    so the last cell wraps around to qubit 0 and a single cell is swapped
    with itself. *)
Theorem inter_cell_swaps_form_ring :
  forall env w w' qc,
    build_circuit env w = (w', inr qc) ->
    swaps qc
    = map (fun k => (k * qubits_per_cell (self w),
                     ((k + 1) mod n_cells (self w)) * qubits_per_cell (self w))%nat)
          (seq 0 (n_cells (self w))).
Proof.
  intros env w w' qc Hb.
  destruct (build_circuit_inversion env w w' qc Hb) as (Hq & -> & _).
  unfold circuit_gates. rewrite !swaps_app.
  destruct (no_swaps_no_ry_in_hadamards (seq 0 (total_qubits (self w)))) as [-> _].
  destruct (no_swaps_no_ry_in_intra (self w)
              (map (fun k => (k * qubits_per_cell (self w))%nat)
                   (seq 0 (n_cells (self w))))) as [-> _].
  rewrite swaps_feedback, swaps_inter, app_nil_r. simpl.
  rewrite map_map. apply map_ext_in. intros k Hk. apply in_seq in Hk.
  f_equal. unfold total_qubits.
  replace (k * qubits_per_cell (self w) + qubits_per_cell (self w))%nat
    with ((k + 1) * qubits_per_cell (self w))%nat by lia.
  apply Nat.Div0.mul_mod_distr_r.
Qed.

(** X3.  Binding a parameter vector of [n_cells] values to a built
    circuit turns its [ry] gates, in order, into rotations by exactly
    those values: every parameter is used once and none is left
    unbound. *)
Theorem bound_rotations_are_the_parameters :
  forall env w w' qc (values : list R),
    build_circuit env w = (w', inr qc) ->
    List.length values = n_cells (self w) ->
    ry_angles (bind_parameters values qc) = map Fixed values.
Proof.
  intros env w w' qc values Hb Hlen.
  destruct (build_circuit_inversion env w w' qc Hb) as (Hq & -> & _).
  unfold circuit_gates. rewrite !bind_parameters_app, !ry_angles_app.
  destruct (no_swaps_no_ry_in_hadamards (seq 0 (total_qubits (self w)))) as [_ ->].
  destruct (no_swaps_no_ry_in_intra (self w)
              (map (fun k => (k * qubits_per_cell (self w))%nat)
                   (seq 0 (n_cells (self w))))) as [_ ->].
  rewrite no_ry_in_inter, ry_feedback. simpl.
  rewrite map_map.
  rewrite (map_ext _ (fun k => Fixed (nth k values 0))).
  - rewrite <- Hlen, <- (map_map (fun k => nth k values 0) Fixed).
    now rewrite AuraLiveFacts.map_nth_seq.
  - intros k. now rewrite Nat.div_mul by lia.
Qed.

Lemma Cabs2_nonneg (z : Complex) : 0 <= Cabs2 z.
Proof. unfold Cabs2. nra. Qed.

Lemma Rsum_Cabs2_nonneg (l : list Complex) : 0 <= Rsum (map Cabs2 l).
Proof.
  induction l as [| z l IH]; simpl; [lra |].
  pose proof (Cabs2_nonneg z). lra.
Qed.

Ltac step_monad :=
  unfold execute_circuit, try_except, bind, get_self, lift, check, emit, ret,
    raise, set_last_result.

(** X4.  When [execute_circuit] returns, the dictionary it returns is
    the one stored in [last_result]; it echoes the shot count and the
    configuration, the parameter vector had [n_cells] entries, and the
    fidelity is the squared magnitude of the first amplitude, which lies
    in [0,1] for a normalised state vector. *)
Theorem execute_circuit_success :
  forall env pv nshots save_to w r,
    snd (execute_circuit env pv nshots save_to w) = inr r ->
    let w' := fst (execute_circuit env pv nshots save_to w) in
    last_result (self w') = Some r
    /\ n_cells (self w') = n_cells (self w)
    /\ qubits_per_cell (self w') = qubits_per_cell (self w)
    /\ List.length pv = n_cells (self w)
    /\ shots (metrics r) = nshots
    /\ m_n_cells (metrics r) = n_cells (self w)
    /\ m_total_qubits (metrics r) = total_qubits (self w)
    /\ (exists z rest, state_vector r = z :: rest /\ fidelity (metrics r) = Cabs2 z)
    /\ (Rsum (map Cabs2 (state_vector r)) = 1 -> 0 <= fidelity (metrics r) <= 1).
Proof.
  intros env pv nshots save_to w r. cbv zeta. step_monad.
  destruct (List.length pv =? n_cells (self w))%nat eqn:Hlen; simpl;
    [| discriminate].
  apply Nat.eqb_eq in Hlen.
  destruct (build_circuit env w) as [w1 [e | qc]] eqn:Hb; simpl; [discriminate |].
  destruct (build_circuit_inversion env w w1 qc Hb) as (_ & _ & _ & Hself & _).
  destruct (backend_run env (bind_parameters pv qc) nshots) as [e | [| z rest]];
    simpl; try discriminate.
  destruct (truthy save_to) as [path |]; simpl.
  - destruct (file_write env path) as [e |]; simpl; [discriminate |].
    intros Hr. inversion Hr; subst r. simpl. rewrite Hself.
    repeat split; try assumption; try (now exists z, rest);
      pose proof (Cabs2_nonneg z); pose proof (Rsum_Cabs2_nonneg rest); lra.
  - intros Hr. inversion Hr; subst r. simpl. rewrite Hself.
    repeat split; try assumption; try (now exists z, rest);
      pose proof (Cabs2_nonneg z); pose proof (Rsum_Cabs2_nonneg rest); lra.
Qed.

(** X5.  When [execute_circuit] raises, the exception is the one that
    occurred, the last record written is the handler's error record for
    it, the configuration is unchanged, and the object as a whole
    (with [last_result]) is unchanged unless the failure is that of
    writing the result file. *)
Theorem execute_circuit_failure :
  forall env pv nshots save_to w e,
    snd (execute_circuit env pv nshots save_to w) = inl e ->
    let w' := fst (execute_circuit env pv nshots save_to w) in
    last (trace w') (Log INFO "")
      = Log ERROR ("Error ejecutando el circuito: " ++ str e)%string
    /\ n_cells (self w') = n_cells (self w)
    /\ qubits_per_cell (self w') = qubits_per_cell (self w)
    /\ ((forall path, truthy save_to = Some path -> file_write env path = None) ->
        self w' = self w).
Proof.
  intros env pv nshots save_to w e. cbv zeta. step_monad.
  destruct (List.length pv =? n_cells (self w))%nat eqn:Hlen; simpl.
  2:{ intros He. inversion He; subst e. rewrite last_last. repeat split. }
  destruct (build_circuit env w) as [w1 [e1 | qc]] eqn:Hb; simpl.
  - intros He. inversion He; subst e1. rewrite last_last.
    assert (Hself : self w1 = self w).
    { revert Hb. unfold build_circuit, try_except, bind, get_self, lift, check,
        emit, ret, raise.
      destruct (range_step _ _); simpl.
      - intros Hb; inversion Hb; reflexivity.
      - destruct (qiskit_rejects env _); simpl; intros Hb; inversion Hb; reflexivity. }
    rewrite Hself. repeat split.
  - destruct (build_circuit_inversion env w w1 qc Hb) as (_ & _ & _ & Hself & _).
    destruct (backend_run env (bind_parameters pv qc) nshots) as [e1 | [| z rest]];
      simpl.
    + intros He. inversion He; subst e1. rewrite last_last, Hself. repeat split.
    + intros He. inversion He; subst e. rewrite last_last, Hself. repeat split.
    + destruct (truthy save_to) as [path |]; simpl.
      * destruct (file_write env path) as [e1 |] eqn:Hw; simpl.
        -- intros He. inversion He; subst e1. rewrite last_last, Hself.
           repeat split. intros Hok. specialize (Hok path eq_refl). congruence.
        -- discriminate.
      * discriminate.
Qed.

Lemma build_circuit_succeeds env w :
  (0 < qubits_per_cell (self w))%nat ->
  (forall qc, qiskit_rejects env qc = None) ->
  exists w' qc, build_circuit env w = (w', inr qc) /\ self w' = self w.
Proof.
  intros Hq Hacc.
  unfold build_circuit, try_except, bind, get_self, lift, check, emit, ret, raise.
  unfold total_qubits at 1.
  rewrite (range_step_cells_exact (n_cells (self w)) (qubits_per_cell (self w)) Hq).
  rewrite Hacc. simpl. eauto.
Qed.


Lemma in_unit_interval_spec x : in_unit_interval x = true <-> 0 <= x <= 1.
Proof.
  unfold in_unit_interval.
  destruct (Rle_dec 0 x); [destruct (Rle_dec x 1) |]; split; intros; try lra;
    try discriminate; reflexivity.
Qed.

(** X7.  Arguments accepted by [validate_args] print nothing, have an
    intensity in [0,1] and a shot count of at least 1 when given, and a
    non-empty emotion that is a key of [EMOTIONS] up to letter case: the
    encoder then uses that key's base value, never the neutral
    default. *)
Theorem validate_args_accepts :
  forall args msgs,
    validate_args args = (true, msgs) ->
    msgs = []
    /\ (forall x, arg_intensity args = Some x -> 0 <= x <= 1)
    /\ (forall n, arg_shots args = Some n -> (1 <= n)%Z)
    /\ (forall e, arg_emotion args = Some e -> e <> EmptyString ->
        exists base,
          dict_get EMOTIONS (lower e) = Some base
          /\ forall g c level,
               emotion_to_params g c e level
               = map (clip 0 1) (normal g (base * level) (5 / 100) (n_cells c))).
Proof.
  intros args msgs Hv. unfold validate_args in Hv.
  destruct (match arg_intensity args with
            | Some x => negb (in_unit_interval x)
            | None => false
            end) eqn:H1; [discriminate |].
  destruct (match arg_shots args with
            | Some n => (n <? 1)%Z
            | None => false
            end) eqn:H2; [discriminate |].
  assert (Hmsgs : msgs = []
                  /\ forall e, truthy (arg_emotion args) = Some e -> supported e = true).
  { destruct (truthy (arg_emotion args)) as [e |].
    - destruct (supported e) eqn:Hsup; [| discriminate].
      inversion Hv. split; [reflexivity |]. intros e0 He0. injection He0 as <-. exact Hsup.
    - inversion Hv. split; [reflexivity | discriminate]. }
  destruct Hmsgs as [Hnil Hsup].
  split; [exact Hnil |]. split; [| split].
  - intros x Hx. rewrite Hx in H1. apply negb_false_iff in H1.
    now apply in_unit_interval_spec.
  - intros n Hn. rewrite Hn in H2. apply Z.ltb_ge in H2. lia.
  - intros e He Hne.
    assert (Hs : supported e = true).
    { apply Hsup. rewrite He. destruct e; [congruence | reflexivity]. }
    unfold supported in Hs.
    destruct (dict_get EMOTIONS (lower e)) as [base |] eqn:Hd; [| discriminate].
    exists base. split; [reflexivity |].
    intros g c level.
    unfold emotion_to_params, emotion_to_params_in, dict_get_or. now rewrite Hd.
Qed.

(** ** Instances *)
Lemma built_gates_within_register_witness :
  exists w' qc,
    build_circuit env0 w0 = (w', inr qc)
    /\ Forall (fun g => Forall (fun q => (q < 8)%nat) (gate_qubits g)) qc.
Proof.
  destruct (build_circuit_succeeds env0 w0 ltac:(simpl; lia) (fun _ => eq_refl))
    as (w' & qc & Hb & _).
  exists w', qc. split; [exact Hb |].
  exact (built_gates_within_register env0 w0 w' qc Hb).
Defined.

Lemma inter_cell_swaps_form_ring_witness :
  exists w' qc,
    build_circuit env0 w0 = (w', inr qc)
    /\ swaps qc = [(0, 4); (4, 0)]%nat.
Proof.
  destruct (build_circuit_succeeds env0 w0 ltac:(simpl; lia) (fun _ => eq_refl))
    as (w' & qc & Hb & _).
  exists w', qc. split; [exact Hb |].
  exact (inter_cell_swaps_form_ring env0 w0 w' qc Hb).
Defined.

Lemma bound_rotations_are_the_parameters_witness :
  exists w' qc,
    build_circuit env0 w0 = (w', inr qc)
    /\ ry_angles (bind_parameters [1 / 4; 3 / 4] qc) = [Fixed (1 / 4); Fixed (3 / 4)].
Proof.
  destruct (build_circuit_succeeds env0 w0 ltac:(simpl; lia) (fun _ => eq_refl))
    as (w' & qc & Hb & _).
  exists w', qc. split; [exact Hb |].
  exact (bound_rotations_are_the_parameters env0 w0 w' qc [1 / 4; 3 / 4] Hb eq_refl).
Defined.

Lemma execute_circuit_success_witness :
  exists r,
    snd (execute_circuit env0 [1 / 4; 3 / 4] 1024 None w0) = inr r
    /\ last_result (self (fst (execute_circuit env0 [1 / 4; 3 / 4] 1024 None w0)))
       = Some r.
Proof.
  assert (Hok : exists r, snd (execute_circuit env0 [1 / 4; 3 / 4] 1024 None w0) = inr r)
    by (eexists; reflexivity).
  destruct Hok as [r Hr]. exists r. split; [exact Hr |].
  destruct (execute_circuit_success env0 [1 / 4; 3 / 4] 1024 None w0 r Hr) as [Hlast _].
  exact Hlast.
Defined.

Lemma execute_circuit_failure_witness :
  snd (execute_circuit
         (mkEnv (fun _ => None) (fun _ _ => inl (LibraryError "out of memory"))
                (fun _ => None) (fun _ => 0))
         [1 / 4; 3 / 4] 1024 None w0)
  = inl (LibraryError "out of memory")
  /\ self (fst (execute_circuit
                  (mkEnv (fun _ => None) (fun _ _ => inl (LibraryError "out of memory"))
                         (fun _ => None) (fun _ => 0))
                  [1 / 4; 3 / 4] 1024 None w0))
     = self w0.
Proof.
  assert (Hf : snd (execute_circuit
                      (mkEnv (fun _ => None)
                             (fun _ _ => inl (LibraryError "out of memory"))
                             (fun _ => None) (fun _ => 0))
                      [1 / 4; 3 / 4] 1024 None w0)
               = inl (LibraryError "out of memory")) by reflexivity.
  split; [exact Hf |].
  destruct (execute_circuit_failure _ _ _ _ _ _ Hf) as (_ & _ & _ & Hself).
  apply Hself. discriminate.
Defined.


Lemma validate_args_example :
  validate_args (mkArgs (Some (8 / 10)) (Some 2048%Z) (Some "Alegria"%string))
  = (true, []).
Proof.
  unfold validate_args, in_unit_interval. simpl.
  destruct (Rle_dec 0 (8 / 10)); [| lra].
  destruct (Rle_dec (8 / 10) 1); [| lra].
  reflexivity.
Qed.

Lemma validate_args_accepts_witness :
  validate_args (mkArgs (Some (8 / 10)) (Some 2048%Z) (Some "Alegria"%string))
  = (true, [])
  /\ exists base, dict_get EMOTIONS (lower "Alegria") = Some base.
Proof.
  split; [exact validate_args_example |].
  destruct (validate_args_accepts _ _ validate_args_example) as (_ & _ & _ & Hemo).
  destruct (Hemo "Alegria"%string eq_refl ltac:(discriminate)) as (base & Hb & _).
  now exists base.
Defined.

End Aura400ExtraFacts.

(** * Further properties of [QuantumEmotionalCore] *)

Module AuraLiveExtraFacts.
Import AuraLive Scenarios AuraLiveExtra AuraLiveFacts.


(** X8.  A core in simulation mode never counts an error: in every
    reachable state with [qiskit_available], [errors] is 0 and
    [success_rate] is 100, however many simulations have failed. *)
Theorem simulation_mode_reports_no_errors :
  forall s,
    reachable s -> qiskit_available s = true ->
    errors (metrics s) = 0%Z /\ success_rate (metrics s) = 100.
Proof.
  intros s Hs Hq.
  destruct (reachable_inv s Hs) as [(Hle & Hzero & Hrate) _].
  specialize (Hzero Hq). split; [exact Hzero |].
  rewrite Hrate, Hzero. apply spec_success_rate_no_errors. lia.
Qed.

(** X9.  Every call of [execute_quantum_emotion_cycle] adds exactly one
    to [executions], whatever path it takes; it adds one to [errors]
    exactly when the core is in fallback mode and the simulation call
    raises, and leaves [errors] unchanged otherwise. *)
Theorem cycle_counts_once :
  forall env s,
    let s' := fst (execute_quantum_emotion_cycle env s) in
    executions (metrics s') = (executions (metrics s) + 1)%Z
    /\ (errors (metrics s') = (errors (metrics s) + 1)%Z
        <-> qiskit_available s = false /\ fault (first_sim env) <> None)
    /\ (errors (metrics s') = errors (metrics s)
        <-> qiskit_available s = true \/ fault (first_sim env) = None).
Proof.
  intros env s. cbv zeta.
  rewrite cycle_executions, cycle_errors.
  split; [reflexivity |].
  destruct (qiskit_available s); destruct (fault (first_sim env)); split; split;
    intros; try lia; try tauto; try (split; congruence);
    try (destruct H as [? ?]; congruence); try (destruct H; congruence).
Qed.

(** X10.  In fallback mode a run of cycles adds the number of cycles to
    [executions] and the number of cycles whose simulation raised to
    [errors]. *)
Theorem fallback_run_counts_faults :
  forall envs s,
    qiskit_available s = false ->
    executions (metrics (run envs s))
    = (executions (metrics s) + Z.of_nat (List.length envs))%Z
    /\ errors (metrics (run envs s)) = (errors (metrics s) + faults envs)%Z.
Proof.
  intros envs s Hq.
  destruct (run_fallback_counters envs s Hq) as (_ & He & Hr). now split.
Qed.

Lemma run_cons env envs s :
  run (env :: envs) s = run envs (fst (execute_quantum_emotion_cycle env s)).
Proof. reflexivity. Qed.

Lemma fallback_average_invariant envs : forall s,
  qiskit_available s = false ->
  (0 < executions (metrics s))%Z ->
  fault_free envs ->
  avg_intensity (metrics (run envs s))
  * IZR (executions (metrics s) + Z.of_nat (List.length envs) - 1)
  = avg_intensity (metrics s) * IZR (executions (metrics s) - 1)
    + Rsum (map cycle_intensity envs).
Proof.
  induction envs as [| env envs IH]; intros s Hq Hn Hff.
  - simpl. rewrite Z.add_0_r. lra.
  - inversion Hff as [| ? ? Hf Hff']; subst.
    rewrite run_cons.
    destruct (cycle_classical_avg env s Hq Hf) as (He & _ & Ha).
    destruct (cycle_keeps_vector env s) as [_ Hq'].
    rewrite Hq in Hq'.
    assert (Hpos : (executions (metrics s) >? 0)%Z = true) by (apply Z.gtb_lt; lia).
    rewrite Hpos in Ha.
    pose proof (IH _ Hq' ltac:(rewrite He; lia) Hff') as Hih.
    rewrite He, Ha in Hih.
    replace (executions (metrics s) + 1
             + Z.of_nat (List.length envs) - 1)%Z
      with (executions (metrics s) + Z.of_nat (List.length (env :: envs)) - 1)%Z
      in Hih by (simpl List.length; lia).
    replace (executions (metrics s) + 1 - 1)%Z with (executions (metrics s))
      in Hih by lia.
    rewrite Hih. simpl map. simpl Rsum. unfold cycle_intensity at 2.
    assert (Hnz : IZR (executions (metrics s)) <> 0) by (apply not_0_IZR; lia).
    field. exact Hnz.
Qed.

(** X11.  On a core in fallback mode with no execution yet, after a run
    of cycles without faults [avg_intensity] is the first intensity if
    the run has one cycle, and otherwise the plain mean of the
    intensities of all cycles but the first. *)
Theorem fallback_average_skips_first_sample :
  forall env0 envs s,
    qiskit_available s = false ->
    executions (metrics s) = 0%Z ->
    fault_free (env0 :: envs) ->
    (envs = [] ->
     avg_intensity (metrics (run (env0 :: envs) s)) = cycle_intensity env0)
    /\ (envs <> [] ->
        avg_intensity (metrics (run (env0 :: envs) s))
        = Rsum (map cycle_intensity envs) / INR (List.length envs)).
Proof.
  intros env0 envs s Hq Hzero Hff.
  inversion Hff as [| ? ? Hf Hff']; subst.
  rewrite run_cons.
  destruct (cycle_classical_avg env0 s Hq Hf) as (He & _ & Ha).
  destruct (cycle_keeps_vector env0 s) as [_ Hq'].
  rewrite Hq in Hq'. rewrite Hzero in He, Ha. simpl in He, Ha.
  split.
  - intros ->. exact Ha.
  - intros Hne.
    pose proof (fallback_average_invariant envs _ Hq'
                  ltac:(rewrite He; lia) Hff') as Hinv.
    rewrite He in Hinv.
    replace (1 + Z.of_nat (List.length envs) - 1)%Z
      with (Z.of_nat (List.length envs)) in Hinv by lia.
    replace (1 - 1)%Z with 0%Z in Hinv by lia.
    rewrite <- INR_IZR_INZ in Hinv.
    assert (Hlen : 0 < INR (List.length envs)).
    { apply lt_0_INR. destruct envs; [congruence | simpl; lia]. }
    apply (Rmult_eq_reg_r (INR (List.length envs))); [| lra].
    rewrite Hinv. field. lra.
Qed.

(** ** What a cycle never changes *)
Lemma update_steps_identity e s :
  session_id (update_avg_intensity (update_emotional_state e s)) = session_id s
  /\ backend_type (update_avg_intensity (update_emotional_state e s)) = backend_type s.
Proof.
  unfold update_avg_intensity, update_emotional_state.
  destruct (Rlt_dec 0 _); simpl; destruct (_ >? 0)%Z; simpl; tauto.
Qed.

Lemma classical_quantum_simulation_identity e s :
  session_id (fst (classical_quantum_simulation e s)) = session_id s
  /\ backend_type (fst (classical_quantum_simulation e s)) = backend_type s.
Proof.
  unfold classical_quantum_simulation. destruct (fault e); simpl; [tauto |].
  match goal with
  | |- context [update_emotional_state ?e0 ?x] =>
      destruct (update_steps_identity e0 x) as [H1 H2]; rewrite H1, H2
  end.
  simpl. tauto.
Qed.

Lemma real_quantum_simulation_identity e s :
  session_id (fst (real_quantum_simulation e s)) = session_id s
  /\ backend_type (fst (real_quantum_simulation e s)) = backend_type s.
Proof.
  unfold real_quantum_simulation, _process_quantum_results.
  destruct (fault e); simpl; [tauto |].
  destruct (reduced_eigvals e);
    match goal with
    | |- context [update_emotional_state ?e0 ?x] =>
        destruct (update_steps_identity e0 x) as [H1 H2]; rewrite H1, H2
    end; simpl; tauto.
Qed.

Lemma cycle_identity env s :
  session_id (fst (execute_quantum_emotion_cycle env s)) = session_id s
  /\ backend_type (fst (execute_quantum_emotion_cycle env s)) = backend_type s.
Proof.
  destruct (qiskit_available s) eqn:Hq.
  - rewrite (cycle_with_qiskit env s Hq). cbv zeta. simpl.
    apply real_quantum_simulation_identity.
  - destruct (fault (first_sim env)) as [err |] eqn:Hf.
    + rewrite (cycle_classical_fault env s err Hq Hf). cbv zeta.
      match goal with
      | |- context [classical_quantum_simulation ?e ?x] =>
          destruct (classical_quantum_simulation_identity e x) as [H1 H2]
      end.
      rewrite H1, H2. simpl. tauto.
    + rewrite (cycle_classical_ok env s Hq Hf). cbv zeta. simpl.
      apply classical_quantum_simulation_identity.
Qed.

(** X12.  Evaluation cycles never change the mode, the session
    identifier, the backend label or the emotional vector: these are set
    by [__init__] (and the vector by [api_feel]) only. *)
Theorem run_keeps_mode_and_session :
  forall envs s,
    qiskit_available (run envs s) = qiskit_available s
    /\ session_id (run envs s) = session_id s
    /\ backend_type (run envs s) = backend_type s
    /\ emotional_vector (run envs s) = emotional_vector s.
Proof.
  induction envs as [| env envs IH]; intros s; [repeat split |].
  rewrite run_cons.
  destruct (IH (fst (execute_quantum_emotion_cycle env s))) as (H1 & H2 & H3 & H4).
  destruct (cycle_keeps_vector env s) as [Hv Hq].
  destruct (cycle_identity env s) as [Hs Hb].
  rewrite H1, H2, H3, H4, Hv, Hq, Hs, Hb. repeat split.
Qed.

(** X13.  [__init__] selects simulation mode exactly when both the Aer
    import and the circuit construction succeed.  The backend label is
    the Qiskit one as soon as the import succeeds, even if the
    construction then fails and the core runs in fallback mode; the
    configured [QUANTUM_BACKEND] value never survives. *)
Theorem __init___selects_mode :
  forall e log0,
    (qiskit_available (__init__ e log0) = true
     <-> aer_fault e = None /\ build_fault e = None)
    /\ (backend_type (__init__ e log0) = "QISKIT_AER_SIMULATOR"%string
        <-> aer_fault e = None)
    /\ (backend_type (__init__ e log0) = "CLASSICAL_QUANTUM_SIMULATION"%string
        <-> aer_fault e <> None).
Proof.
  intros e log0.
  unfold __init__, initialize_quantum_backend, build_quantum_circuit.
  destruct (aer_fault e) as [[] |]; [| | | | |destruct (build_fault e)]; simpl;
    (split; [| split]); split; intros Hyp;
    try reflexivity; try discriminate;
    try (destruct Hyp; discriminate);
    try (exfalso; apply Hyp; reflexivity);
    try (split; reflexivity).
Qed.

(** ** Bounds of the statistics *)
Lemma fallback_intensity_bounds t : 0 <= fallback_intensity t <= 13 / 10.
Proof.
  unfold fallback_intensity.
  pose proof (SIN_bound (t * (1 / 10))) as [Ha1 Ha2].
  pose proof (COS_bound (t * (1 / 10) * (13 / 10))) as [Hb1 Hb2].
  pose proof (SIN_bound (t * (5 / 100))) as [Hc1 Hc2].
  set (a := sin (t * (1 / 10))) in *.
  set (b := cos (t * (1 / 10) * (13 / 10))) in *.
  set (c := sin (t * (5 / 100))) in *.
  assert (Hab : -1 <= a * b <= 1) by nra.
  split; nra.
Qed.

(** the statistics a completed fallback simulation writes *)
Lemma classical_quantum_simulation_stats e s :
  fault e = None ->
  quantum_intensity (fst (classical_quantum_simulation e s)) = fallback_intensity (now e)
  /\ entanglement_measure (fst (classical_quantum_simulation e s))
     = 3 / 10 + 1 / 10 * sin (now e * (2 / 100))
  /\ emotion_state (fst (classical_quantum_simulation e s))
     = next_emotion_state e (emotional_vector s).
Proof.
  intros Hf. unfold classical_quantum_simulation. rewrite Hf. cbv zeta. simpl fst.
  match goal with
  | |- context [update_avg_intensity ?x] =>
      destruct (update_avg_intensity_keeps x) as (Hq & _ & He & Hs);
      rewrite Hq, He, Hs
  end.
  match goal with
  | |- context [update_emotional_state ?e0 ?x] =>
      destruct (update_emotional_state_keeps e0 x) as (Hq' & _ & He' & _);
      rewrite Hq', He'
  end.
  simpl. repeat split.
  unfold update_emotional_state, next_emotion_state. simpl.
  destruct (Rlt_dec 0 _); reflexivity.
Qed.

Lemma _process_quantum_results_stats e s :
  quantum_intensity (_process_quantum_results e s)
  = Rsum (firstn 8 (map Cabs2 (statevector e)))
  /\ entanglement_measure (_process_quantum_results e s)
     = match reduced_eigvals e with
       | inr eigvals => von_neumann_entropy eigvals
       | inl _ => 0
       end
  /\ emotion_state (_process_quantum_results e s)
     = next_emotion_state e (emotional_vector s).
Proof.
  unfold _process_quantum_results. cbv zeta.
  match goal with
  | |- context [update_avg_intensity ?x] =>
      destruct (update_avg_intensity_keeps x) as (Hq & _ & He & Hs);
      rewrite Hq, He, Hs
  end.
  match goal with
  | |- context [update_emotional_state ?e0 ?x] =>
      destruct (update_emotional_state_keeps e0 x) as (Hq' & _ & He' & _);
      rewrite Hq', He'
  end.
  destruct (reduced_eigvals e); simpl; repeat split;
    unfold update_emotional_state, next_emotion_state; simpl;
    destruct (Rlt_dec 0 _); reflexivity.
Qed.

(** Which simulation environment a cycle that returns True has used. *)
Lemma cycle_true_cases env s :
  snd (execute_quantum_emotion_cycle env s) = inr true ->
  (qiskit_available s = true /\ fault (first_sim env) = None
   /\ quantum_intensity (fst (execute_quantum_emotion_cycle env s))
      = Rsum (firstn 8 (map Cabs2 (statevector (first_sim env))))
   /\ entanglement_measure (fst (execute_quantum_emotion_cycle env s))
      = match reduced_eigvals (first_sim env) with
        | inr eigvals => von_neumann_entropy eigvals
        | inl _ => 0
        end
   /\ emotion_state (fst (execute_quantum_emotion_cycle env s))
      = next_emotion_state (first_sim env) (emotional_vector s))
  \/ (qiskit_available s = false
      /\ exists e, (e = first_sim env \/ e = handler_sim env)
         /\ quantum_intensity (fst (execute_quantum_emotion_cycle env s))
            = fallback_intensity (now e)
         /\ entanglement_measure (fst (execute_quantum_emotion_cycle env s))
            = 3 / 10 + 1 / 10 * sin (now e * (2 / 100))
         /\ emotion_state (fst (execute_quantum_emotion_cycle env s))
            = next_emotion_state e (emotional_vector s)).
Proof.
  destruct (qiskit_available s) eqn:Hq.
  - destruct (fault (first_sim env)) as [err |] eqn:Hf.
    + rewrite (cycle_qiskit_fault env s err Hq Hf). simpl. discriminate.
    + intros _. left. rewrite (cycle_with_qiskit env s Hq). cbv zeta.
      unfold real_quantum_simulation. rewrite Hf. simpl.
      destruct (_process_quantum_results_stats (first_sim env) s) as (H1 & H2 & H3).
      repeat split; assumption.
  - intros Hok. right. split; [reflexivity |].
    destruct (fault (first_sim env)) as [err |] eqn:Hf.
    + rewrite (cycle_classical_fault env s err Hq Hf) in *. cbv zeta in *.
      rewrite classical_quantum_simulation_result in Hok.
      destruct (fault (handler_sim env)) eqn:Hf2; [discriminate |].
      exists (handler_sim env). split; [now right |].
      match goal with
      | |- context [classical_quantum_simulation ?e0 ?x] =>
          destruct (classical_quantum_simulation_stats e0 x Hf2) as (H1 & H2 & H3)
      end.
      repeat split; assumption.
    + exists (first_sim env). split; [now left |].
      rewrite (cycle_classical_ok env s Hq Hf). cbv zeta. simpl.
      destruct (classical_quantum_simulation_stats (first_sim env) s Hf)
        as (H1 & H2 & H3).
      repeat split; assumption.
Qed.

Lemma Rsum_firstn_bounds (k : nat) (l : list R) :
  Forall (fun x => 0 <= x) l -> 0 <= Rsum (firstn k l) <= Rsum l.
Proof.
  revert k. induction l as [| x l IH]; intros k Hl.
  - rewrite firstn_nil. simpl. lra.
  - inversion Hl; subst. destruct k as [| k]; simpl.
    + assert (0 <= Rsum l) by (destruct (IH O H2); simpl in *; lra). lra.
    + destruct (IH k H2). lra.
Qed.

Lemma Cabs2_all_nonneg (l : list Complex) : Forall (fun x => 0 <= x) (map Cabs2 l).
Proof.
  apply Forall_forall. intros x Hx.
  apply in_map_iff in Hx. destruct Hx as [z [<- _]]. unfold Cabs2. nra.
Qed.

Lemma von_neumann_entropy_nonneg (eigvals : list R) :
  Forall (fun l => l <= 1) eigvals -> 0 <= von_neumann_entropy eigvals.
Proof.
  intros Hle. unfold von_neumann_entropy. cbv zeta.
  assert (Hln2 : 0 < ln 2) by (rewrite <- ln_1; apply ln_increasing; lra).
  assert (Hsum : Rsum (map (fun l => l * log2 l)
                         (filter (fun l => if Rlt_dec (1 / 1000000000000) l
                                           then true else false) eigvals)) <= 0).
  { induction eigvals as [| l ls IH]; simpl; [lra |].
    inversion Hle; subst.
    destruct (Rlt_dec (1 / 1000000000000) l) as [Hgt | Hngt]; simpl.
    - specialize (IH H2).
      assert (Hl : ln l <= 0).
      { destruct H1 as [Hlt | ->]; [| rewrite ln_1; lra].
        left. rewrite <- ln_1. apply ln_increasing; lra. }
      assert (l * log2 l <= 0).
      { unfold log2, Rdiv.
        assert (0 < / ln 2) by (now apply Rinv_0_lt_compat).
        assert (ln l * / ln 2 <= 0) by nra.
        nra. }
      lra.
    - now apply IH. }
  lra.
Qed.

(** X14.  After a cycle that returns [True]: in simulation mode the
    intensity lies in [0,1] and the entanglement measure is non-negative
    when the reduced eigenvalues are at most 1 (it is 0 when their
    computation raises); in fallback mode the intensity lies in
    [0, 1.3] and the entanglement measure in [0.2, 0.4]. *)
Theorem cycle_statistics_bounds :
  forall env s,
    wf_cycle env ->
    snd (execute_quantum_emotion_cycle env s) = inr true ->
    let s' := fst (execute_quantum_emotion_cycle env s) in
    (qiskit_available s = true ->
     0 <= quantum_intensity s' <= 1
     /\ ((forall eigvals, reduced_eigvals (first_sim env) = inr eigvals ->
                          Forall (fun l => l <= 1) eigvals) ->
         0 <= entanglement_measure s'))
    /\ (qiskit_available s = false ->
        0 <= quantum_intensity s' <= 13 / 10
        /\ 2 / 10 <= entanglement_measure s' <= 4 / 10).
Proof.
  intros env s [(_ & _ & Hnorm) _] Hok. cbv zeta.
  destruct (cycle_true_cases env s Hok)
    as [(Hq & _ & Hi & He & _) | (Hq & e & _ & Hi & He & _)];
    split; intros Hq'; try congruence.
  - rewrite Hi, He. split.
    + pose proof (Rsum_firstn_bounds 8 _ (Cabs2_all_nonneg (statevector (first_sim env)))).
      lra.
    + intros Hev. destruct (reduced_eigvals (first_sim env)) as [ex | eigvals];
        [lra |].
      apply von_neumann_entropy_nonneg. now apply Hev.
  - rewrite Hi, He. split; [apply fallback_intensity_bounds |].
    pose proof (SIN_bound (now e * (2 / 100))). lra.
Qed.

(** ** [api_feel] *)
Lemma index_of_none name names : index_of name names = None <-> ~ In name names.
Proof.
  induction names as [| n rest IH]; simpl; [tauto |].
  destruct (String.eqb n name) eqn:Heq.
  - apply String.eqb_eq in Heq. split; [discriminate | intros H; exfalso; apply H; now left].
  - apply String.eqb_neq in Heq.
    destruct (index_of name rest); simpl.
    + split; [discriminate |]. intros H. exfalso.
      assert (~ In name rest) by tauto. apply IH in H0. discriminate.
    + split; [| reflexivity]. intros _ [H | H]; [congruence |].
      now apply IH in H.
Qed.

Lemma index_of_bound name names idx :
  index_of name names = Some idx ->
  (idx < List.length names)%nat /\ nth idx names EmptyString = name.
Proof.
  revert idx. induction names as [| n rest IH]; simpl; intros idx; [discriminate |].
  destruct (String.eqb n name) eqn:Heq.
  - intros H; inversion H; subst. apply String.eqb_eq in Heq. split; [lia | exact Heq].
  - destruct (index_of name rest) as [k |]; simpl; [| discriminate].
    intros H; inversion H; subst. destruct (IH k eq_refl). split; [lia | assumption].
Qed.

Lemma position_of_none v :
  position_of v = None <-> ~ exists name, v = JString name /\ In name EMOTIONS.
Proof.
  destruct v as [name |]; cbn [position_of].
  - rewrite index_of_none. split.
    + intros Hn (name' & Heq & Hin). inversion Heq; subst. now apply Hn.
    + intros Hn Hin. apply Hn. now exists name.
  - split; [| reflexivity]. intros _ (name & Heq & _). discriminate.
Qed.

Lemma api_feel_400 member env s :
  snd (api_feel member env s) = BadRequest400
  <-> position_of (requested_emotion member) = None.
Proof.
  unfold api_feel.
  destruct (position_of (requested_emotion member)) as [idx |].
  - destruct (execute_quantum_emotion_cycle env _) as [s2 [err | ok]]; simpl;
      split; discriminate.
  - simpl. tauto.
Qed.

(** X15.  On a body that parses to a JSON object, [api_feel] answers 400
    exactly when the requested emotion (the member [emotion] as it is
    given, ["joy"] when the key is absent) is not a string equal to one
    of the eight listed names; so a member that is present but [null]
    or not a string is rejected, and an absent key never is.  A request
    answered with 400 leaves the core untouched: no cycle runs. *)
Theorem api_feel_rejects_unlisted :
  forall member env s,
    (snd (api_feel member env s) = BadRequest400
     <-> ~ exists name, requested_emotion member = JString name /\ In name EMOTIONS)
    /\ (snd (api_feel member env s) = BadRequest400 -> fst (api_feel member env s) = s)
    /\ (forall name, snd (api_feel (Some (JString name)) env s) = BadRequest400
                     <-> ~ In name EMOTIONS)
    /\ snd (api_feel (Some JNotString) env s) = BadRequest400
    /\ snd (api_feel None env s) <> BadRequest400.
Proof.
  intros member env s.
  split; [| split; [| split; [| split]]].
  - rewrite api_feel_400. apply position_of_none.
  - intros H. apply api_feel_400 in H. unfold api_feel. now rewrite H.
  - intros name. rewrite api_feel_400. apply index_of_none.
  - now apply api_feel_400.
  - intros H. apply api_feel_400 in H. discriminate.
Qed.

Lemma Rsum_zip_plus (a b : list R) :
  List.length a = List.length b ->
  Rsum (zip_with Rplus a b) = Rsum a + Rsum b.
Proof.
  revert b. induction a as [| x a IH]; intros [| y b] Hlen; simpl in *;
    try discriminate; [lra |].
  rewrite IH by lia. lra.
Qed.

Lemma nth_zip_plus (a b : list R) (j : nat) :
  List.length a = List.length b ->
  nth j (zip_with Rplus a b) 0 = nth j a 0 + nth j b 0.
Proof.
  revert b j. induction a as [| x a IH]; intros [| y b] j Hlen; simpl in *;
    try discriminate.
  - destruct j; lra.
  - destruct j; [reflexivity |]. apply IH. lia.
Qed.

Lemma Rsum_unit_draws (l : list R) :
  Forall (fun x => 0 <= x < 1) l -> 0 <= Rsum l <= INR (List.length l).
Proof.
  induction 1 as [| x l Hx Hl IH].
  - simpl. lra.
  - change (List.length (x :: l)) with (S (List.length l)). rewrite S_INR.
    simpl Rsum. lra.
Qed.

Lemma Rsum_one_hot idx : (idx < 8)%nat -> Rsum (one_hot idx) = 1.
Proof.
  intros Hidx. unfold one_hot.
  do 8 (destruct idx as [| idx]; [simpl; lra |]). lia.
Qed.

Lemma nth_one_hot idx j :
  (j < 8)%nat -> nth j (one_hot idx) 0 = if (j =? idx)%nat then 1 else 0.
Proof.
  intros Hj. unfold one_hot.
  rewrite (nth_map_in (fun i => if (i =? idx)%nat then 1 else 0) (seq 0 8) j 0 O)
    by (rewrite length_seq; exact Hj).
  now rewrite seq_nth.
Qed.

Lemma nth_unit_draws (l : list R) (j : nat) :
  Forall (fun x => 0 <= x < 1) l -> 0 <= nth j l 0 < 1.
Proof.
  intros Hl. revert j. induction Hl as [| x l Hx Hl IH]; intros [| j]; simpl;
    try lra; auto.
Qed.

Lemma Rsum_map_scale_r (c : R) (l : list R) :
  Rsum (map (fun u => u * c) l) = Rsum l * c.
Proof. induction l as [| x l IH]; simpl; [lra | rewrite IH; lra]. Qed.

(** The state computed from a one-hot vector: the chosen entry holds more
    than half of the mass and every other entry less than a tenth. *)
Lemma next_emotion_state_one_hot e idx :
  unit_draws (noise e) -> (idx < 8)%nat ->
  1 / 2 < nth idx (next_emotion_state e (one_hot idx)) 0
  /\ forall j, (j < 8)%nat -> j <> idx ->
               0 <= nth j (next_emotion_state e (one_hot idx)) 0 < 1 / 10.
Proof.
  intros [Hlen Hdraws] Hidx. unfold next_emotion_state. cbv zeta.
  set (scaled := map (fun u => u * (1 / 10)) (noise e)).
  assert (Hslen : List.length (one_hot idx) = List.length scaled)
    by (unfold scaled; now rewrite length_map, Hlen).
  assert (Hsum : Rsum (zip_with Rplus (one_hot idx) scaled)
                 = 1 + Rsum (noise e) * (1 / 10)).
  { rewrite Rsum_zip_plus by exact Hslen.
    rewrite Rsum_one_hot by exact Hidx. unfold scaled.
    now rewrite Rsum_map_scale_r. }
  pose proof (Rsum_unit_draws _ Hdraws) as Hn. rewrite Hlen in Hn. simpl in Hn.
  set (total := Rsum (zip_with Rplus (one_hot idx) scaled)) in *.
  assert (Htot : 1 <= total <= 18 / 10) by lra.
  destruct (Rlt_dec 0 total) as [Hpos | Hneg]; [| lra].
  assert (Hlen8 : List.length (zip_with Rplus (one_hot idx) scaled) = 8%nat).
  { rewrite zip_with_length. unfold scaled. rewrite length_map, Hlen. reflexivity. }
  assert (Hentry : forall j, (j < 8)%nat ->
            nth j (map (fun x => x / total) (zip_with Rplus (one_hot idx) scaled)) 0
            = ((if (j =? idx)%nat then 1 else 0) + nth j (noise e) 0 * (1 / 10)) / total).
  { intros j Hj.
    rewrite (nth_map_in (fun x => x / total) _ j 0 0) by (rewrite Hlen8; exact Hj).
    rewrite nth_zip_plus by exact Hslen.
    rewrite nth_one_hot by exact Hj. unfold scaled.
    rewrite (nth_map_in (fun u => u * (1 / 10)) (noise e) j 0 0)
      by (rewrite Hlen; exact Hj).
    reflexivity. }
  assert (Hinv : 0 < / total) by (now apply Rinv_0_lt_compat).
  assert (Hinv1 : / total <= 1).
  { rewrite <- Rinv_1. apply Rinv_le_contravar; lra. }
  assert (Hinv2 : 10 / 18 <= / total).
  { replace (10 / 18) with (/ (18 / 10)) by field.
    apply Rinv_le_contravar; lra. }
  split.
  - rewrite (Hentry idx Hidx), Nat.eqb_refl.
    pose proof (nth_unit_draws (noise e) idx Hdraws). unfold Rdiv at 1. nra.
  - intros j Hj Hne. rewrite (Hentry j Hj).
    assert (Hneq : (j =? idx)%nat = false) by (now apply Nat.eqb_neq).
    rewrite Hneq.
    pose proof (nth_unit_draws (noise e) j Hdraws). unfold Rdiv at 1 2. nra.
Qed.

(** X16.  After [api_feel] succeeds for a listed emotion, the emotional
    vector is that emotion's one-hot vector, the emotion's share of
    [emotion_state] exceeds 1/2 and every other share is below 1/10. *)
Theorem api_feel_makes_emotion_dominant :
  forall name env s idx,
    wf_cycle env ->
    index_of name EMOTIONS = Some idx ->
    snd (api_feel (Some (JString name)) env s) = Ok200 true ->
    let s' := fst (api_feel (Some (JString name)) env s) in
    emotional_vector s' = one_hot idx
    /\ 1 / 2 < nth idx (emotion_state s') 0
    /\ forall j, (j < 8)%nat -> j <> idx -> 0 <= nth j (emotion_state s') 0 < 1 / 10.
Proof.
  intros name env s idx [Hw1 Hw2] Hidx. cbv zeta. unfold api_feel.
  cbn [requested_emotion position_of]. rewrite Hidx.
  set (s1 := set_emotional_vector (one_hot idx) s).
  pose proof (cycle_true_cases env s1) as Hcases.
  destruct (cycle_keeps_vector env s1) as [Hvec _].
  destruct (execute_quantum_emotion_cycle env s1) as [s2 [err | ok]];
    cbn [fst snd] in *; [discriminate |].
  intros Hok. inversion Hok; subst ok.
  assert (Hidx8 : (idx < 8)%nat).
  { destruct (index_of_bound _ _ _ Hidx) as [Hlt _]. exact Hlt. }
  split; [exact Hvec |].
  destruct (Hcases eq_refl) as [(_ & _ & _ & _ & Hst) | (_ & e & He & _ & _ & Hst)];
    rewrite Hst.
  - apply next_emotion_state_one_hot; [apply Hw1 | exact Hidx8].
  - apply next_emotion_state_one_hot; [| exact Hidx8].
    destruct He as [-> | ->]; [apply Hw1 | apply Hw2].
Qed.

(** ** The circuit of the live core *)
(** X17.  Every gate that the three layers of [build_quantum_circuit]
    append acts on qubits inside the register of
    [min(8, TOTAL_QUBITS)] qubits. *)
Theorem live_circuit_within_register :
  forall n_blocks qubits_per_block gates,
    live_circuit n_blocks qubits_per_block = Some gates ->
    Forall (fun g => Forall (fun q => (q < Nat.min 8 (n_blocks * qubits_per_block))%nat)
                            (live_gate_qubits g)) gates.
Proof.
  intros n_blocks qpb gates. unfold live_circuit. cbv zeta.
  set (size := Nat.min 8 (n_blocks * qpb)). clearbody size.
  destruct (_initialize_quantum_state n_blocks size) as [init |] eqn:Hinit;
    [| discriminate].
  intros Heq.
  assert (Hg : gates = (init ++ fst (_add_emotional_parameters size)
                             ++ _add_entanglement_layer size)%list) by congruence.
  subst gates. clear Heq.
  repeat rewrite Forall_app. split; [| split].
  - unfold _initialize_quantum_state in Hinit.
    assert (Hgen : init = flat_map
              (fun i => LH (i mod size)
                        :: (if (i mod size + 1 <? size)%nat
                            then [LCX (i mod size) (i mod size + 1)] else []))
              (seq 0 (Nat.min 20 n_blocks))
            /\ (size = O -> Nat.min 20 n_blocks = O)).
    { destruct size as [| sz]; destruct (Nat.min 20 n_blocks) as [| it];
        try discriminate; inversion Hinit; split; try reflexivity; try discriminate;
        intros; lia. }
    destruct Hgen as [-> Hzero].
    apply Forall_forall. intros g Hg.
    apply in_flat_map in Hg. destruct Hg as [i [Hi Hg]].
    assert (Hsz : (0 < size)%nat).
    { destruct size; [| lia]. rewrite (Hzero eq_refl) in Hi. destruct Hi. }
    assert (Hmod : (i mod size < size)%nat) by (apply Nat.mod_upper_bound; lia).
    destruct Hg as [<- | Hg]; [repeat constructor; exact Hmod |].
    destruct (i mod size + 1 <? size)%nat eqn:Hlt; [| destruct Hg].
    apply Nat.ltb_lt in Hlt.
    destruct Hg as [<- | []]. repeat constructor; cbv beta; assumption.
  - change (fst (_add_emotional_parameters size))
      with (map (fun i => LRY i i) (seq 0 (Nat.min 8 size))).
    pose proof (Nat.le_min_r 8 size) as Hk.
    set (k := Nat.min 8 size) in *. clearbody k.
    apply Forall_forall. intros g Hg.
    apply in_map_iff in Hg. destruct Hg as [i [<- Hi]].
    apply in_seq in Hi. repeat constructor. cbv beta. lia.
  - unfold _add_entanglement_layer.
    apply Forall_forall. intros g Hg.
    apply in_flat_map in Hg. destruct Hg as [i [_ Hg]].
    destruct (i + 1 <? size)%nat eqn:Hlt; [| destruct Hg].
    apply Nat.ltb_lt in Hlt.
    destruct Hg as [<- | []]. repeat constructor; cbv beta; lia.
Qed.

Lemma map_fst_combine {A B : Type} (a : list A) : forall b : list B,
  List.length a = List.length b -> map fst (combine a b) = a.
Proof.
  induction a as [| x a IH]; intros [| y b] Hlen; simpl in *; try discriminate;
    [reflexivity |].
  f_equal. apply IH. lia.
Qed.

Lemma map_snd_combine {A B : Type} (a : list A) : forall b : list B,
  List.length a = List.length b -> map snd (combine a b) = b.
Proof.
  induction a as [| x a IH]; intros [| y b] Hlen; simpl in *; try discriminate;
    [reflexivity |].
  f_equal. apply IH. lia.
Qed.

(** X18.  In every reachable state the dictionary that
    [real_quantum_simulation] builds binds each rotation parameter of the
    circuit, in order, to the leading entries of the emotional vector:
    no parameter is left unbound and no value is dropped. *)
Theorem every_rotation_parameter_is_bound :
  forall s size,
    reachable s ->
    let theta_params := snd (_add_emotional_parameters size) in
    map fst (param_dict theta_params (emotional_vector s)) = theta_params
    /\ map snd (param_dict theta_params (emotional_vector s))
       = firstn (Nat.min 8 size) (emotional_vector s)
    /\ List.length (param_dict theta_params (emotional_vector s)) = Nat.min 8 size.
Proof.
  intros s size Hs. cbv zeta.
  destruct (reachable_inv s Hs) as [_ [Hlen _]].
  change (snd (_add_emotional_parameters size)) with (seq 0 (Nat.min 8 size)).
  unfold param_dict. rewrite length_seq.
  assert (Hl : List.length (seq 0 (Nat.min 8 size))
               = List.length (firstn (Nat.min 8 size) (emotional_vector s))).
  { rewrite length_seq, length_firstn, Hlen. lia. }
  split; [now apply map_fst_combine |].
  split; [now apply map_snd_combine |].
  rewrite length_combine, <- Hl, length_seq. lia.
Qed.

(** ** Bounds of the aggregated metrics *)
(** X19.  In every reachable state [success_rate] lies in [0, 100]. *)
Theorem success_rate_is_percentage :
  forall s, reachable s -> 0 <= success_rate (metrics s) <= 100.
Proof.
  intros s Hs.
  destruct (reachable_inv s Hs) as [(Hle & _ & Hrate) _].
  rewrite Hrate. unfold spec_success_rate.
  destruct (executions (metrics s) =? 0)%Z eqn:Hz; [lra |].
  apply Z.eqb_neq in Hz.
  assert (Hn : 0 < IZR (executions (metrics s))) by (apply IZR_lt; lia).
  assert (He : 0 <= IZR (executions (metrics s) - errors (metrics s))
               <= IZR (executions (metrics s))).
  { split; apply IZR_le; lia. }
  assert (Hinv : 0 < / IZR (executions (metrics s))) by (now apply Rinv_0_lt_compat).
  unfold Rdiv. split.
  - apply Rmult_le_pos; [nra | lra].
  - apply (Rmult_le_reg_r (IZR (executions (metrics s)))); [exact Hn |].
    rewrite Rmult_assoc, Rinv_l by lra. nra.
Qed.

Lemma running_average_step (n : Z) (avg x b : R) :
  (0 <= n)%Z -> 0 <= avg <= b -> 0 <= x <= b ->
  0 <= (if (n >? 0)%Z then (avg * IZR (n - 1) + x) / IZR n else x) <= b.
Proof.
  intros Hn Ha Hx.
  destruct (n >? 0)%Z eqn:Hpos; [| exact Hx].
  apply Z.gtb_lt in Hpos.
  assert (H1 : 0 < IZR n) by (apply IZR_lt; lia).
  assert (H2 : 0 <= IZR (n - 1)) by (apply IZR_le; lia).
  assert (H3 : IZR (n - 1) = IZR n - 1) by (rewrite minus_IZR; reflexivity).
  assert (Hinv : 0 < / IZR n) by (now apply Rinv_0_lt_compat).
  unfold Rdiv. split.
  - apply Rmult_le_pos; [nra | lra].
  - apply (Rmult_le_reg_r (IZR n)); [exact H1 |].
    rewrite Rmult_assoc, Rinv_l by lra. nra.
Qed.

Lemma _process_quantum_results_avg e s :
  avg_intensity (metrics (_process_quantum_results e s))
  = (if (executions (metrics s) >? 0)%Z
     then (avg_intensity (metrics s) * IZR (executions (metrics s) - 1)
           + Rsum (firstn 8 (map Cabs2 (statevector e))))
          / IZR (executions (metrics s))
     else Rsum (firstn 8 (map Cabs2 (statevector e)))).
Proof.
  unfold _process_quantum_results. cbv zeta.
  rewrite update_avg_intensity_value.
  match goal with
  | |- context [update_emotional_state ?e0 ?x] =>
      destruct (update_emotional_state_keeps e0 x) as (Hq' & _ & _ & Hm');
      rewrite Hq', Hm'
  end.
  destruct (reduced_eigvals e); reflexivity.
Qed.

Lemma cycle_avg_bounded env s :
  wf_cycle env ->
  (0 <= executions (metrics s))%Z ->
  0 <= avg_intensity (metrics s) <= 13 / 10 ->
  0 <= avg_intensity (metrics (fst (execute_quantum_emotion_cycle env s))) <= 13 / 10.
Proof.
  intros [(_ & _ & Hnorm) _] Hn Ha.
  destruct (qiskit_available s) eqn:Hq.
  - destruct (fault (first_sim env)) as [err |] eqn:Hf.
    + rewrite (cycle_qiskit_fault env s err Hq Hf). simpl. exact Ha.
    + rewrite (cycle_with_qiskit env s Hq). cbv zeta.
      unfold real_quantum_simulation. rewrite Hf. simpl.
      rewrite _process_quantum_results_avg.
      apply running_average_step; [exact Hn | exact Ha |].
      pose proof (Rsum_firstn_bounds 8 _ (Cabs2_all_nonneg (statevector (first_sim env)))).
      lra.
  - destruct (fault (first_sim env)) as [err |] eqn:Hf.
    + rewrite (cycle_classical_fault env s err Hq Hf). cbv zeta.
      destruct (fault (handler_sim env)) as [err2 |] eqn:Hf2.
      * unfold classical_quantum_simulation. rewrite Hf2. simpl. exact Ha.
      * match goal with
        | |- context [classical_quantum_simulation ?e0 ?x] =>
            destruct (classical_quantum_simulation_values e0 x Hf2) as (_ & _ & Hv)
        end.
        rewrite Hv. simpl.
        apply running_average_step;
          [lia | exact Ha | apply fallback_intensity_bounds].
    + rewrite (cycle_classical_ok env s Hq Hf). cbv zeta. simpl.
      destruct (classical_quantum_simulation_values (first_sim env) s Hf)
        as (_ & _ & Hv).
      rewrite Hv.
      apply running_average_step;
        [exact Hn | exact Ha | apply fallback_intensity_bounds].
Qed.

(** X20.  In every reachable state [avg_intensity] lies in [0, 1.3]:
    each update is a convex combination of the stored average and a new
    intensity in that range. *)
Theorem avg_intensity_bounded :
  forall s, reachable s -> 0 <= avg_intensity (metrics s) <= 13 / 10.
Proof.
  intros s Hs.
  induction Hs as [e log0 Hwf | env s Hs IH Hwf | field env s Hs IH Hwf
                   | env s Hs IH Hwf | e s Hs IH Hwf].
  - destruct (__init___fields e log0) as (_ & _ & _ & _ & _ & _ & Hm).
    rewrite Hm. simpl. lra.
  - destruct (reachable_inv s Hs) as [(Hle & _) _].
    apply cycle_avg_bounded; [exact Hwf | lia | exact IH].
  - destruct (reachable_inv s Hs) as [(Hle & _) _].
    unfold api_feel. destruct (position_of _) as [idx |]; [| exact IH].
    pose proof (cycle_avg_bounded env (set_emotional_vector (one_hot idx) s) Hwf
                  ltac:(simpl; lia) IH) as Hb.
    destruct (execute_quantum_emotion_cycle env _) as [s2 [err | ok]]; exact Hb.
  - destruct (reachable_inv s Hs) as [(Hle & _) _].
    unfold api_metrics.
    pose proof (cycle_avg_bounded env s Hwf ltac:(lia) IH) as Hb.
    destruct (execute_quantum_emotion_cycle env s) as [s2 [err | ok]]; exact Hb.
  - destruct (reset_fields e s) as (_ & _ & _ & _ & _ & _ & Hm).
    rewrite Hm. simpl. lra.
Qed.

(** ** Instances *)
Lemma simulation_mode_reports_no_errors_witness :
  reachable (fst (execute_quantum_emotion_cycle (cycle_faulty 0) fresh_qiskit))
  /\ qiskit_available (fst (execute_quantum_emotion_cycle (cycle_faulty 0) fresh_qiskit))
     = true
  /\ success_rate (metrics (fst (execute_quantum_emotion_cycle (cycle_faulty 0)
                                                                fresh_qiskit))) = 100.
Proof.
  assert (Hr : reachable (fst (execute_quantum_emotion_cycle (cycle_faulty 0)
                                                               fresh_qiskit))).
  { apply reach_cycle; [exact reachable_fresh_qiskit | apply wf_cycle_faulty]. }
  assert (Hq : qiskit_available
                 (fst (execute_quantum_emotion_cycle (cycle_faulty 0) fresh_qiskit))
               = true).
  { destruct (cycle_keeps_vector (cycle_faulty 0) fresh_qiskit) as [_ ->]. reflexivity. }
  split; [exact Hr | split; [exact Hq |]].
  destruct (simulation_mode_reports_no_errors _ Hr Hq) as [_ Hrate]. exact Hrate.
Defined.

Lemma fallback_run_counts_faults_witness :
  qiskit_available fresh_classical = false
  /\ executions (metrics (run ten_cycles fresh_classical)) = 10%Z
  /\ errors (metrics (run ten_cycles fresh_classical)) = 2%Z.
Proof.
  split; [reflexivity |].
  exact (fallback_run_counts_faults ten_cycles fresh_classical eq_refl).
Defined.

Lemma fallback_average_skips_first_sample_witness :
  fault_free [cycle_ok 0; cycle_ok 1; cycle_ok 2]
  /\ avg_intensity (metrics (run [cycle_ok 0; cycle_ok 1; cycle_ok 2] fresh_classical))
     = Rsum (map cycle_intensity [cycle_ok 1; cycle_ok 2]) / INR 2.
Proof.
  assert (Hff : fault_free [cycle_ok 0; cycle_ok 1; cycle_ok 2])
    by (repeat constructor).
  split; [exact Hff |].
  destruct (fallback_average_skips_first_sample
              (cycle_ok 0) [cycle_ok 1; cycle_ok 2] fresh_classical
              eq_refl eq_refl Hff) as [_ Hmean].
  apply Hmean. discriminate.
Defined.

Lemma cycle_statistics_bounds_witness :
  wf_cycle (cycle_ok 0)
  /\ snd (execute_quantum_emotion_cycle (cycle_ok 0) fresh_classical) = inr true
  /\ 0 <= quantum_intensity
            (fst (execute_quantum_emotion_cycle (cycle_ok 0) fresh_classical))
     <= 13 / 10.
Proof.
  assert (Hok : snd (execute_quantum_emotion_cycle (cycle_ok 0) fresh_classical)
                = inr true).
  { now rewrite (cycle_classical_ok (cycle_ok 0) fresh_classical eq_refl eq_refl). }
  split; [apply wf_cycle_ok | split; [exact Hok |]].
  destruct (cycle_statistics_bounds (cycle_ok 0) fresh_classical (wf_cycle_ok 0) Hok)
    as [_ Hfb].
  destruct (Hfb eq_refl) as [Hi _]. exact Hi.
Defined.

Lemma api_feel_joy_succeeds :
  snd (api_feel (Some (JString "joy")) (cycle_ok 0) fresh_classical) = Ok200 true.
Proof.
  unfold api_feel.
  change (position_of (requested_emotion (Some (JString "joy")))) with (Some 0%nat).
  cbv beta iota.
  rewrite (cycle_classical_ok (cycle_ok 0)
             (set_emotional_vector (one_hot 0) fresh_classical) eq_refl eq_refl).
  reflexivity.
Qed.

Lemma api_feel_makes_emotion_dominant_witness :
  wf_cycle (cycle_ok 0)
  /\ index_of "joy" EMOTIONS = Some 0%nat
  /\ snd (api_feel (Some (JString "joy")) (cycle_ok 0) fresh_classical) = Ok200 true
  /\ 1 / 2 < nth 0 (emotion_state
                      (fst (api_feel (Some (JString "joy")) (cycle_ok 0) fresh_classical)))
                   0.
Proof.
  split; [apply wf_cycle_ok | split; [reflexivity | split; [exact api_feel_joy_succeeds |]]].
  destruct (api_feel_makes_emotion_dominant "joy" (cycle_ok 0) fresh_classical 0%nat
              (wf_cycle_ok 0) eq_refl api_feel_joy_succeeds) as (_ & Hdom & _).
  exact Hdom.
Defined.

Lemma live_circuit_within_register_witness :
  exists gates,
    live_circuit 100 4 = Some gates
    /\ Forall (fun g => Forall (fun q => (q < 8)%nat) (live_gate_qubits g)) gates.
Proof.
  assert (Hsome : exists gates, live_circuit 100 4 = Some gates)
    by (eexists; reflexivity).
  destruct Hsome as [gates Hg]. exists gates. split; [exact Hg |].
  exact (live_circuit_within_register 100 4 gates Hg).
Defined.

Lemma every_rotation_parameter_is_bound_witness :
  reachable fresh_qiskit
  /\ List.length (param_dict (snd (_add_emotional_parameters 8))
                             (emotional_vector fresh_qiskit)) = 8%nat.
Proof.
  split; [exact reachable_fresh_qiskit |].
  destruct (every_rotation_parameter_is_bound fresh_qiskit 8 reachable_fresh_qiskit)
    as (_ & _ & Hlen).
  exact Hlen.
Defined.

Lemma success_rate_is_percentage_witness :
  reachable (run ten_cycles fresh_classical)
  /\ 0 <= success_rate (metrics (run ten_cycles fresh_classical)) <= 100.
Proof.
  assert (Hr : reachable (run ten_cycles fresh_classical)).
  { apply reachable_run; [exact reachable_fresh_classical | exact ten_cycles_wf]. }
  split; [exact Hr |]. exact (success_rate_is_percentage _ Hr).
Defined.

Lemma avg_intensity_bounded_witness :
  reachable (run ten_cycles fresh_classical)
  /\ 0 <= avg_intensity (metrics (run ten_cycles fresh_classical)) <= 13 / 10.
Proof.
  assert (Hr : reachable (run ten_cycles fresh_classical)).
  { apply reachable_run; [exact reachable_fresh_classical | exact ten_cycles_wf]. }
  split; [exact Hr |]. exact (avg_intensity_bounded _ Hr).
Defined.

(** ** How a cycle ends *)


Lemma cycle_result env s :
  snd (execute_quantum_emotion_cycle env s)
  = if qiskit_available s
    then match fault (first_sim env) with
         | None => inr true
         | Some _ => inr false
         end
    else match fault (first_sim env), fault (handler_sim env) with
         | None, _ => inr true
         | Some _, None => inr true
         | Some _, Some e => inl e
         end.
Proof.
  destruct (qiskit_available s) eqn:Hq.
  - rewrite (cycle_with_qiskit env s Hq). cbv zeta. simpl.
    rewrite real_quantum_simulation_result. now destruct (fault (first_sim env)).
  - destruct (fault (first_sim env)) as [err |] eqn:Hf.
    + rewrite (cycle_classical_fault env s err Hq Hf). cbv zeta.
      rewrite classical_quantum_simulation_result.
      now destruct (fault (handler_sim env)).
    + now rewrite (cycle_classical_ok env s Hq Hf).
Qed.

(** X24.  How a cycle ends: it returns [False] exactly when the core is
    in simulation mode and the simulation raises; it raises exactly when
    the core is in fallback mode and both the simulation and the fallback
    call of the handler raise, and then with the second exception; in
    every other case it returns [True]. *)
Theorem cycle_outcome :
  forall env s,
    (snd (execute_quantum_emotion_cycle env s) = inr false
     <-> qiskit_available s = true /\ fault (first_sim env) <> None)
    /\ (forall e, snd (execute_quantum_emotion_cycle env s) = inl e
                  <-> qiskit_available s = false
                      /\ fault (first_sim env) <> None
                      /\ fault (handler_sim env) = Some e)
    /\ (snd (execute_quantum_emotion_cycle env s) = inr true
        <-> (qiskit_available s = true /\ fault (first_sim env) = None)
            \/ (qiskit_available s = false
                /\ (fault (first_sim env) = None \/ fault (handler_sim env) = None))).
Proof.
  intros env s. rewrite cycle_result.
  destruct (qiskit_available s); destruct (fault (first_sim env)) as [e1 |];
    destruct (fault (handler_sim env)) as [e2 |];
    (split; [| split]); try (intros e); intuition congruence.
Qed.

(** X25.  [api_metrics] and, for a listed emotion, [api_feel] answer 500
    exactly when the cycle raises, with that exception's text; [api_feel]
    otherwise reports the cycle's return value, and in both cases the
    cycle has been counted in [executions]. *)
Theorem api_error_responses :
  forall env s,
    (forall msg, snd (api_metrics env s) = Error500 msg
                 <-> exists e, snd (execute_quantum_emotion_cycle env s) = inl e
                               /\ msg = str e)
    /\ (forall name idx,
          index_of name EMOTIONS = Some idx ->
          let s1 := set_emotional_vector (one_hot idx) s in
          (forall msg, snd (api_feel (Some (JString name)) env s) = Error500 msg
                       <-> exists e, snd (execute_quantum_emotion_cycle env s1) = inl e
                                     /\ msg = str e)
          /\ (forall ok, snd (api_feel (Some (JString name)) env s) = Ok200 ok
                         <-> snd (execute_quantum_emotion_cycle env s1) = inr ok)
          /\ executions (metrics (fst (api_feel (Some (JString name)) env s)))
             = (executions (metrics s) + 1)%Z).
Proof.
  intros env s. split.
  - intros msg. unfold api_metrics.
    destruct (execute_quantum_emotion_cycle env s) as [s1 [e | ok]]; simpl; split.
    + intros H; inversion H. now exists e.
    + intros (e' & He & ->). now inversion He.
    + discriminate.
    + intros (e' & He & _). discriminate.
  - intros name idx Hidx. cbv zeta. unfold api_feel.
    cbn [requested_emotion position_of]. rewrite Hidx.
    pose proof (cycle_executions env (set_emotional_vector (one_hot idx) s)) as Hex.
    destruct (execute_quantum_emotion_cycle env _) as [s2 [e | ok]]; simpl in *;
      (split; [| split]); try exact Hex.
    + intros msg; split; [intros H; inversion H; now exists e
                         | intros (e' & He & ->); now inversion He].
    + intros ok; split; discriminate.
    + intros msg; split; [discriminate | intros (e' & He & _); discriminate].
    + intros ok'; split; intros H; inversion H; reflexivity.
Qed.

End AuraLiveExtraFacts.

(** * Properties of the command line *)

Module Aura400CliFacts.
Import Aura400 Aura400Extra Aura400Cli Aura400ExtraFacts.


Example split_commas_fields :
  split_commas "0.1,0.25,,1" = ["0.1"; "0.25"; ""; "1"]%string.
Proof. reflexivity. Qed.

Lemma main_initial_world cenv ns :
  fst (validate_args (to_args ns)) = true ->
  backend_lookup cenv = None ->
  main cenv ns
  = match process cenv ns (initial_world cenv) with
    | (w', inr (Some code)) => (Some w', ExitCode code)
    | (w', inr None) => (Some w', Finished)
    | (w', inl _) => (Some w', ExitCode 2)
    end.
Proof. intros Hv Hb. unfold main. now rewrite Hv, Hb. Qed.

Lemma export_metrics_frame cenv ns w :
  self (fst (export_metrics cenv ns w)) = self w
  /\ exists more, trace (fst (export_metrics cenv ns w)) = (trace w ++ more)%list.
Proof.
  unfold export_metrics, check, bind, emit, raise, ret.
  destruct (truthy (ns_metrics ns)) as [path |]; simpl.
  - destruct (metrics_write cenv path); simpl; split; try reflexivity.
    + exists []. now rewrite app_nil_r.
    + now exists [FileWritten path].
  - split; [reflexivity |]. exists []. now rewrite app_nil_r.
Qed.

Lemma ran_backend_extend w w' more :
  trace w' = (trace w ++ more)%list -> ran_backend w -> ran_backend w'.
Proof.
  intros Ht (g & n & Hin). exists g, n. rewrite Ht. apply in_or_app. now left.
Qed.

Lemma execute_circuit_ran env pv nshots save_to w r :
  snd (execute_circuit env pv nshots save_to w) = inr r ->
  ran_backend (fst (execute_circuit env pv nshots save_to w))
  /\ last_result (self (fst (execute_circuit env pv nshots save_to w))) = Some r.
Proof.
  step_monad.
  destruct (List.length pv =? n_cells (self w))%nat; simpl; [| discriminate].
  destruct (build_circuit env w) as [w1 [e | qc]]; simpl; [discriminate |].
  destruct (backend_run env (bind_parameters pv qc) nshots) as [e | [| z rest]];
    simpl; try discriminate.
  destruct (truthy save_to) as [path |]; simpl.
  - destruct (file_write env path); simpl; [discriminate |].
    intros Hr. inversion Hr. split; [| reflexivity].
    exists (bind_parameters pv qc), nshots.
    simpl. repeat rewrite in_app_iff. simpl. auto 10.
  - intros Hr. inversion Hr. split; [| reflexivity].
    exists (bind_parameters pv qc), nshots.
    simpl. repeat rewrite in_app_iff. simpl. auto 10.
Qed.

Lemma feel_emotion_ran env emo level nshots save_to w r :
  snd (feel_emotion env emo level nshots save_to w) = inr r ->
  ran_backend (fst (feel_emotion env emo level nshots save_to w))
  /\ last_result (self (fst (feel_emotion env emo level nshots save_to w))) = Some r.
Proof.
  unfold feel_emotion, bind, get_self.
  pose proof (execute_circuit_ran env (emotion_to_params (gauss env) (self w) emo level)
                nshots save_to w) as Hran.
  destruct (execute_circuit env _ nshots save_to w) as [w1 [e | r1]]; simpl in *;
    [discriminate |].
  intros Hr. inversion Hr; subst r. split; [| reflexivity].
  destruct (Hran r1 eq_refl) as ((g & n & Hin) & _).
  exists g, n. apply in_or_app. now left.
Qed.

(** What the end of the [try] body implies. *)
Lemma process_finished cenv ns w w' :
  process cenv ns w = (w', inr None) ->
  ran_backend w' /\ last_result (self w') <> None.
Proof.
  unfold process.
  destruct (ns_list ns); [discriminate |].
  destruct (ns_info ns); [discriminate |].
  unfold bind at 1.
  destruct (match truthy (ns_diagram ns) with
            | Some filename => save_circuit_diagram cenv filename
            | None => ret tt
            end w) as [w1 [e | []]]; [discriminate |].
  assert (Hafter : forall (m : M ResultDict),
            (forall r, snd (m w1) = inr r ->
                       ran_backend (fst (m w1))
                       /\ last_result (self (fst (m w1))) = Some r) ->
            (_ <- m ;; export_metrics cenv ns ;;; ret (@None Z)) w1 = (w', inr None) ->
            ran_backend w' /\ last_result (self w') <> None).
  { intros m Hm. unfold bind.
    destruct (m w1) as [w2 [e | r]] eqn:Hmw; [discriminate |].
    specialize (Hm r eq_refl). simpl in Hm. destruct Hm as [Hran Hlast].
    destruct (export_metrics_frame cenv ns w2) as [Hself [more Htr]].
    destruct (export_metrics cenv ns w2) as [w3 [e | []]]; [discriminate |].
    unfold ret. intros Heq. inversion Heq; subst w'. simpl in *.
    split; [now apply (ran_backend_extend w2 w3 more) |].
    rewrite Hself, Hlast. discriminate. }
  destruct (truthy (ns_emotion ns)) as [emo |].
  - apply Hafter. intros r. apply feel_emotion_ran.
  - destruct (truthy (ns_params ns)) as [text |].
    + destruct (parse_all (parse_float cenv) (split_commas text)) as [values |];
        [| discriminate].
      apply Hafter. intros r. apply execute_circuit_ran.
    + unfold bind at 1, get_self.
      apply Hafter. intros r. apply execute_circuit_ran.
Qed.

(** X21.  Whenever the script runs to its end, a simulation has been
    started and [last_result] is set; this includes an invocation that
    only asks for a diagram, which goes on to execute the circuit with
    random parameters. *)
Theorem finished_run_has_simulated :
  forall cenv ns,
    snd (main cenv ns) = Finished ->
    exists w',
      fst (main cenv ns) = Some w'
      /\ ran_backend w'
      /\ last_result (self w') <> None.
Proof.
  intros cenv ns. unfold main.
  destruct (fst (validate_args (to_args ns))); simpl; [| discriminate].
  destruct (backend_lookup cenv); [discriminate |].
  cbv zeta.
  destruct (process cenv ns _) as [w' [e | [code |]]] eqn:Hp; try discriminate.
  intros _. exists w'. split; [reflexivity |].
  exact (process_finished cenv ns _ w' Hp).
Qed.

(** X22.  Arguments that [validate_args] rejects end the script with
    status 1 before any circuit object exists; the only exception that
    escapes the script is a failing backend lookup in the constructor
    (every exception of the processing is turned into an exit status);
    and [--list] or [--info] end it with status 0 without building or
    running a circuit. *)
Theorem main_exit_status :
  forall cenv ns,
    (fst (validate_args (to_args ns)) = false -> main cenv ns = (None, ExitCode 1))
    /\ (forall e, snd (main cenv ns) = Uncaught e
                  <-> fst (validate_args (to_args ns)) = true
                      /\ backend_lookup cenv = Some e)
    /\ (fst (validate_args (to_args ns)) = true ->
        backend_lookup cenv = None ->
        ns_list ns || ns_info ns = true ->
        main cenv ns = (Some (initial_world cenv), ExitCode 0)).
Proof.
  intros cenv ns. split; [| split].
  - intros Hv. unfold main. now rewrite Hv.
  - intros e. unfold main.
    destruct (fst (validate_args (to_args ns))); simpl.
    + destruct (backend_lookup cenv) as [e' |]; simpl.
      * split; [intros H; inversion H; auto | intros [_ H]; inversion H; reflexivity].
      * cbv zeta. destruct (process cenv ns _) as [w' [ex | [code |]]]; simpl;
          split; try discriminate; intros [_ H]; discriminate.
    + split; [discriminate | intros [H _]; discriminate].
  - intros Hv Hb Hflag. rewrite (main_initial_world cenv ns Hv Hb).
    unfold process.
    destruct (ns_list ns); [reflexivity |].
    destruct (ns_info ns); [reflexivity | discriminate].
Qed.

(** X23.  With [--params] given and no diagram requested: if an emotion
    is given too, the parameter text is ignored; otherwise a text that
    does not parse ends the script with status 1 with nothing built, and
    a text that parses to a number of values different from the cell
    count ends it with status 2, with no backend run and the circuit
    object unchanged. *)
Theorem main_params_handling :
  forall cenv ns text,
    fst (validate_args (to_args ns)) = true ->
    backend_lookup cenv = None ->
    ns_list ns = false -> ns_info ns = false ->
    truthy (ns_diagram ns) = None ->
    truthy (ns_params ns) = Some text ->
    (forall emo, truthy (ns_emotion ns) = Some emo ->
                 forall other, main cenv (with_params other ns) = main cenv ns)
    /\ (truthy (ns_emotion ns) = None ->
        parse_all (parse_float cenv) (split_commas text) = None ->
        main cenv ns = (Some (initial_world cenv), ExitCode 1))
    /\ (truthy (ns_emotion ns) = None ->
        forall values,
          parse_all (parse_float cenv) (split_commas text) = Some values ->
          List.length values <> N_CELLS cenv ->
          snd (main cenv ns) = ExitCode 2
          /\ exists w', fst (main cenv ns) = Some w'
                        /\ self w' = self (initial_world cenv)
                        /\ ~ ran_backend w').
Proof.
  intros cenv ns text Hv Hb Hl Hi Hd Hp. split; [| split].
  - intros emo He other. unfold main.
    change (to_args (with_params other ns)) with (to_args ns).
    destruct (fst (validate_args (to_args ns))); simpl; [| reflexivity].
    destruct (backend_lookup cenv); [reflexivity |]. cbv zeta.
    unfold process. simpl. rewrite Hl, Hi, He. reflexivity.
  - intros He Hparse. rewrite (main_initial_world cenv ns Hv Hb).
    unfold process. rewrite Hl, Hi, Hd, He, Hp, Hparse. reflexivity.
  - intros He values Hparse Hlen. rewrite (main_initial_world cenv ns Hv Hb).
    unfold process. rewrite Hl, Hi, Hd, He, Hp, Hparse.
    unfold bind at 1, ret at 1.
    unfold bind at 1. step_monad.
    apply Nat.eqb_neq in Hlen. simpl. rewrite Hlen. simpl.
    split; [reflexivity |]. eexists. split; [reflexivity |]. split; [reflexivity |].
    intros (g & n & Hin). simpl in Hin.
    destruct Hin as [Hin | [Hin | []]]; discriminate.
Qed.

(** ** Instances *)
Lemma validate_default_intensity ns :
  ns_intensity ns = 1 -> (1 <= ns_shots ns)%Z -> truthy (ns_emotion ns) = None ->
  fst (validate_args (to_args ns)) = true.
Proof.
  intros Hi Hs He. unfold validate_args, to_args, in_unit_interval. simpl.
  rewrite Hi, He.
  destruct (Rle_dec 0 1); [| lra]. destruct (Rle_dec 1 1); [| lra]. simpl.
  destruct (ns_shots ns <? 1)%Z eqn:Hlt; [apply Z.ltb_lt in Hlt; lia | reflexivity].
Qed.

Lemma main_diagram_only :
  snd (main cenv0 diagram_only) = Finished.
Proof.
  rewrite (main_initial_world cenv0 diagram_only
             (validate_default_intensity diagram_only eq_refl ltac:(simpl; lia) eq_refl)
             eq_refl).
  reflexivity.
Qed.

Lemma finished_run_has_simulated_witness :
  snd (main cenv0 diagram_only) = Finished
  /\ exists w', fst (main cenv0 diagram_only) = Some w' /\ ran_backend w'.
Proof.
  split; [exact main_diagram_only |].
  destruct (finished_run_has_simulated cenv0 diagram_only main_diagram_only)
    as (w' & Hw & Hran & _).
  exists w'. split; assumption.
Defined.

Lemma main_exit_status_witness :
  main cenv0 (mkNamespace None None 1024 None None 1 true None false false)
  = (Some (initial_world cenv0), ExitCode 0).
Proof.
  destruct (main_exit_status cenv0
              (mkNamespace None None 1024 None None 1 true None false false))
    as (_ & _ & Hlist).
  apply Hlist; [| reflexivity | reflexivity].
  apply validate_default_intensity; [reflexivity | simpl; lia | reflexivity].
Defined.

Lemma main_params_handling_witness :
  snd (main cenv0 (mkNamespace None None 1024 (Some "0.5,0.5,0.5"%string) None 1
                               false None false false))
  = ExitCode 2.
Proof.
  destruct (main_params_handling cenv0
              (mkNamespace None None 1024 (Some "0.5,0.5,0.5"%string) None 1
                           false None false false)
              "0.5,0.5,0.5"%string) as (_ & _ & Hcount).
  - apply validate_default_intensity; [reflexivity | simpl; lia | reflexivity].
  - reflexivity.
  - reflexivity.
  - reflexivity.
  - reflexivity.
  - reflexivity.
  - destruct (Hcount eq_refl [1 / 2; 1 / 2; 1 / 2] eq_refl) as [Hexit _].
    + simpl. lia.
    + exact Hexit.
Defined.

End Aura400CliFacts.
